(** * Query Profiler: validation, parsing, tree normalisation and thresholds

    A shallow embedding of the computational core of the Query Profiler
    dashboard (public/pages/QueryProfiler): the profile validator
    (utils/validation.ts), the parser/loader (utils/parsing.ts), the tree
    normaliser of the QueryTree component, the breakdown rows of the
    QueryDetailPanel component and the bar colour classifier (constants);
    then the view state of the tree (expansion, rendered rows, resizer),
    the rows of the ShardTable component, the file checks and the handlers
    of the ProfilerDashboard container and of the SettingsPopover.

    JavaScript numbers are IEEE-754 binary64 values, which is what Rocq's
    primitive [float] is: arithmetic and comparisons below are the
    primitive ones, so rounding, NaN and signed zeros behave as in the
    source.  JavaScript objects are association lists in property order. *)

From Stdlib Require Import List String Ascii ZArith Bool Floats Lia DecimalString.
From Stdlib Require Import Sorted Permutation QArith DecimalNat.
From stdpp Require Import base strings gmap list.

#[local] Set Warnings "-register-all".

(** ** JavaScript values and the operators the source applies to them *)

Module JS.

Inductive JSValue : Type :=
| JUndefined
| JNull
| JBool (b : bool)
| JNumber (x : float)
| JString (s : string)
| JArray (elems : list JSValue)
| JObject (props : list (string * JSValue)).

(** The results of [typeof] on the values above. *)
Inductive JSType : Type := TUndefined | TObject | TBoolean | TNumber | TString.

Definition JSType_eqb (a b : JSType) : bool :=
  match a, b with
  | TUndefined, TUndefined | TObject, TObject | TBoolean, TBoolean
  | TNumber, TNumber | TString, TString => true
  | _, _ => false
  end.

(** [typeof null] and [typeof []] are both ['object']. *)
Definition typeof (v : JSValue) : JSType :=
  match v with
  | JUndefined => TUndefined
  | JNull => TObject
  | JBool _ => TBoolean
  | JNumber _ => TNumber
  | JString _ => TString
  | JArray _ => TObject
  | JObject _ => TObject
  end.

Definition is_nan (x : float) : bool := negb (x =? x)%float.

(** ToBoolean on a number: [0], [-0] and [NaN] are falsy. *)
Definition number_truthy (x : float) : bool :=
  negb ((x =? 0)%float || is_nan x).

Definition string_truthy (s : string) : bool :=
  match s with EmptyString => false | _ => true end.

(** ToBoolean. *)
Definition truthy (v : JSValue) : bool :=
  match v with
  | JUndefined | JNull => false
  | JBool b => b
  | JNumber x => number_truthy x
  | JString s => string_truthy s
  | JArray _ | JObject _ => true
  end.

(** [Array.isArray]. *)
Definition isArray (v : JSValue) : bool :=
  match v with JArray _ => true | _ => false end.

(** A plain object: neither [null], nor a primitive, nor an array. *)
Definition is_object (v : JSValue) : bool :=
  match v with JObject _ => true | _ => false end.

(** Own-property lookup in an object's property list. *)
Fixpoint lookup_prop (k : string) (props : list (string * JSValue)) : option JSValue :=
  match props with
  | [] => None
  | (k', v) :: rest => if String.eqb k k' then Some v else lookup_prop k rest
  end.

(** [v.k] for the property names the profiler reads ([profile], [shards],
    [searches], [took], [_shards], [hits]): an absent property reads as
    [undefined]; arrays and primitives carry none of these names.  The
    source never reads a property of [null] or [undefined]: every read
    is guarded by a truthiness test on the receiver. *)
Definition get_prop (v : JSValue) (k : string) : JSValue :=
  match v with
  | JObject props => match lookup_prop k props with Some x => x | None => JUndefined end
  | _ => JUndefined
  end.

(** Assignment [o.k = x] on a property list: an existing property keeps its
    place, a new one is appended. *)
Fixpoint assign_prop (k : string) (x : JSValue) (props : list (string * JSValue))
  : list (string * JSValue) :=
  match props with
  | [] => [(k, x)]
  | (k', v) :: rest =>
      if String.eqb k k' then (k', x) :: rest else (k', v) :: assign_prop k x rest
  end.

(** [v.k = x].  The validator assigns only to a value it has already read a
    truthy [profile] object from, which is a plain object. *)
Definition set_prop (v : JSValue) (k : string) (x : JSValue) : JSValue :=
  match v with
  | JObject props => JObject (assign_prop k x props)
  | other => other
  end.

(** A strictly positive value: what [0 < x] tests. *)
Definition SFpositive (x : spec_float) : bool :=
  match x with
  | S754_infinity false | S754_finite false _ _ => true
  | _ => false
  end.

(** A non-negative integer (an array length, an index) as a number. *)
Definition number_of_nat (n : nat) : float :=
  SF2Prim (binary_normalize prec emax (Z.of_nat n) 0 false).

(** A string between double quotes, as it appears inside a message. *)
Definition quoted (s : string) : string :=
  String (ascii_of_nat 34) (s +:+ String (ascii_of_nat 34) EmptyString).

(** Template-literal rendering of an index: its decimal digits. *)
Definition string_of_index (i : nat) : string :=
  NilZero.string_of_uint (Nat.to_uint i).

End JS.

Import JS.

(** ** types: the error taxonomy *)

Inductive ProfilerErrorType : Type :=
| INVALID_JSON
| INVALID_PROFILE_FORMAT
| FILE_READ_ERROR
| MISSING_PROFILE_DATA
| COMPARISON_ERROR.

Record ProfilerError : Type := mkProfilerError {
  error_type : ProfilerErrorType;
  error_message : string;
  error_details : option string
}.

(** ** utils/validation.ts *)

Module Validation.

Record ValidationResult : Type := mkValidationResult {
  isValid : bool;
  error : option ProfilerError
}.

Definition valid : ValidationResult :=
  {| isValid := true; error := None |}.

Definition invalid (ty : ProfilerErrorType) (message details : string) : ValidationResult :=
  {| isValid := false;
     error := Some {| error_type := ty; error_message := message;
                      error_details := Some details |} |}.

(** The kind of the error a result carries, if any. *)
Definition error_kind (r : ValidationResult) : option ProfilerErrorType :=
  match error r with Some e => Some (error_type e) | None => None end.

(** The [for] loop over [data.profile.shards], from index [i] on: the result
    of the first shard that is rejected, or [None] when the loop runs to
    the end. *)
Fixpoint check_shards (shards : list JSValue) (i : nat) : option ValidationResult :=
  match shards with
  | [] => None
  | shard :: rest =>
      if negb (truthy shard) || negb (JSType_eqb (typeof shard) TObject) then
        Some (invalid INVALID_PROFILE_FORMAT
                ("Invalid shard at index " +:+ string_of_index i)
                "Each shard must be an object")
      else if negb (isArray (get_prop shard "searches")) then
        Some (invalid INVALID_PROFILE_FORMAT
                ("Invalid shard at index " +:+ string_of_index i)
                ("Each shard must have a " +:+ quoted "searches" +:+ " array"))
      else check_shards rest (S i)
  end.

(** A shard the loop accepts: an object with a [searches] array. *)
Definition shard_has_searches (shard : JSValue) : Prop :=
  exists (sprops : list (string * JSValue)) (searches : list JSValue),
    shard = JObject sprops /\ lookup_prop "searches" sprops = Some (JArray searches).

(** The default-filling tail of [validateProfileData], on data whose
    [profile.shards] array has [n] elements. *)
Definition fill_defaults (data : JSValue) (n : nat) : JSValue :=
  let data1 :=
    if negb (JSType_eqb (typeof (get_prop data "took")) TNumber)
    then set_prop data "took" (JNumber 0%float) else data in
  let data2 :=
    if negb (truthy (get_prop data1 "_shards"))
    then set_prop data1 "_shards"
           (JObject [("total", JNumber (number_of_nat n));
                     ("successful", JNumber (number_of_nat n));
                     ("skipped", JNumber 0%float);
                     ("failed", JNumber 0%float)])
    else data1 in
  if negb (truthy (get_prop data2 "hits"))
  then set_prop data2 "hits"
         (JObject [("total", JNumber 0%float);
                   ("max_score", JNull);
                   ("hits", JArray [])])
  else data2.

(** [validateProfileData(data)].  The source mutates [data] in place; the
    second component is [data] as the call leaves it. *)
Definition validateProfileData (data : JSValue) : ValidationResult * JSValue :=
  if negb (truthy data) || negb (JSType_eqb (typeof data) TObject) then
    (invalid INVALID_PROFILE_FORMAT "Invalid profile data"
       "Profile data must be an object", data)
  else
    let profile := get_prop data "profile" in
    if negb (truthy profile) || negb (JSType_eqb (typeof profile) TObject) then
      (invalid MISSING_PROFILE_DATA "Missing required field: profile"
         ("The " +:+ quoted "profile"
            +:+ " field must be an object containing profiling information"),
       data)
    else
      match get_prop profile "shards" with
      | JArray shards =>
          if Nat.eqb (length shards) 0 then
            (invalid MISSING_PROFILE_DATA "No shard data found"
               "profile.shards array must contain at least one shard profile", data)
          else
            match check_shards shards 0 with
            | Some failure => (failure, data)
            | None => (valid, fill_defaults data (length shards))
            end
      | _ =>
          (invalid INVALID_PROFILE_FORMAT "Invalid profile.shards structure"
             "profile.shards must be an array of shard profiles", data)
      end.

End Validation.

(** ** constants: thresholds and the bar colour *)

Module Constants.

Definition PROFILER_COLORS_RED : string := "#F66".
Definition PROFILER_COLORS_ORANGE : string := "#FDB462".
Definition PROFILER_COLORS_GREEN : string := "#90EE90".

Definition DEFAULT_THRESHOLDS_RED : float := 80%float.
Definition DEFAULT_THRESHOLDS_ORANGE : float := 50%float.

(** A parameter with a default value: [None] is an omitted argument. *)
Definition with_default (d : float) (arg : option float) : float :=
  match arg with Some x => x | None => d end.

(** [getBarColor(time, maxTime, redThreshold = 80, orangeThreshold = 50)].
    [a > b] is written [b <? a]. *)
Definition getBarColor (time maxTime : float) (redThreshold orangeThreshold : option float)
  : string :=
  let redThreshold := with_default DEFAULT_THRESHOLDS_RED redThreshold in
  let orangeThreshold := with_default DEFAULT_THRESHOLDS_ORANGE orangeThreshold in
  let ratio := (time / maxTime)%float in
  if (redThreshold / 100 <? ratio)%float then PROFILER_COLORS_RED
  else if (orangeThreshold / 100 <? ratio)%float then PROFILER_COLORS_ORANGE
  else PROFILER_COLORS_GREEN.

End Constants.

(** ** types: the profile records the components receive *)

Module Types.

(** [Record<string, number>]: the own properties in the order [Object.keys]
    enumerates them. *)
Definition Breakdown : Type := list (string * float).

(** [QueryProfile]; [AggregationProfile] has the same fields and the tree
    normaliser treats the two alike.  The components read every field
    through [||] or [?.], so each one may be missing. *)
Inductive QueryProfile : Type := mkQueryProfile {
  qp_type : option string;
  qp_description : option string;
  qp_time_in_nanos : option float;
  qp_breakdown : option Breakdown;
  qp_children : option (list QueryProfile)
}.

(** [CollectorProfile]; the normaliser also reads an optional [breakdown]. *)
Inductive CollectorProfile : Type := mkCollectorProfile {
  cp_name : option string;
  cp_reason : option string;
  cp_time_in_nanos : option float;
  cp_breakdown : option Breakdown;
  cp_children : option (list CollectorProfile)
}.

(** [x || 0] on an optional number. *)
Definition or_zero (x : option float) : float :=
  match x with
  | Some v => if number_truthy v then v else 0%float
  | None => 0%float
  end.

(** [s || d] on an optional string. *)
Definition or_string (s : option string) (d : string) : string :=
  match s with
  | Some v => if string_truthy v then v else d
  | None => d
  end.

(** [b || {}] on an optional breakdown (an object is always truthy). *)
Definition or_empty (b : option Breakdown) : Breakdown :=
  match b with Some v => v | None => [] end.

(** [breakdown[key]]. *)
Fixpoint breakdown_get (key : string) (b : Breakdown) : option float :=
  match b with
  | [] => None
  | (k, v) :: rest => if String.eqb key k then Some v else breakdown_get key rest
  end.

Section ArrayMap.
Context {A B : Type} (f : A -> nat -> B).

(** [Array.prototype.map] with the element index, counting from [i]. *)
Fixpoint map_from (i : nat) (l : list A) : list B :=
  match l with
  | [] => []
  | x :: rest => f x i :: map_from (S i) rest
  end.
End ArrayMap.

(** [l.map((x, i) => f(x, i))]. *)
Definition array_map {A B : Type} (f : A -> nat -> B) (l : list A) : list B :=
  map_from f 0 l.

End Types.

Import Types.

(** ** components/QueryTree: the tree normaliser *)

Module QueryTree.

Inductive ProcessedQuery : Type := mkProcessedQuery {
  id : string;
  queryName : string;
  type : string;
  description : string;
  time_ms : float;
  time_in_nanos : float;
  percentage : float;
  breakdown : Breakdown;
  rawBreakdown : Breakdown;
  children : option (list ProcessedQuery)
}.

Inductive Tab : Type := search | aggregation.

(** The props of the component that the normaliser reads. *)
Record QueryTreeProps : Type := mkQueryTreeProps {
  queries : option (list QueryProfile);
  aggregations : option (list QueryProfile);
  rewriteTime : option float;
  collectors : option (list CollectorProfile)
}.

(** [activeData]: the array of the selected tab, [[]] when it is missing. *)
Definition activeData (props : QueryTreeProps) (activeTab : Tab) : list QueryProfile :=
  match activeTab with
  | aggregation => match aggregations props with Some l => l | None => [] end
  | search => match queries props with Some l => l | None => [] end
  end.

(** [l.reduce((sum, q) => sum + (q.time_in_nanos || 0), 0)]. *)
Definition sum_time_in_nanos {A : Type} (time : A -> option float) (l : list A) : float :=
  fold_left (fun sum q => (sum + or_zero (time q))%float) l 0%float.

(** [totalTime], the denominator of every percentage of one pass. *)
Definition totalTime (props : QueryTreeProps) (activeTab : Tab) : float :=
  let total := sum_time_in_nanos qp_time_in_nanos (activeData props activeTab) in
  match activeTab with
  | search =>
      let total1 :=
        match rewriteTime props with
        | Some r => if (0 <? r)%float then (total + r)%float else total
        | None => total
        end in
      match collectors props with
      | Some cs =>
          if Nat.ltb 0 (length cs)
          then (total1 + sum_time_in_nanos cp_time_in_nanos cs)%float
          else total1
      | None => total1
      end
  | aggregation => total
  end.

(** The shared percentage expression:
    [totalTime > 0 ? (time / totalTime) * 100 : 0]. *)
Definition percentage_of (totalTime time : float) : float :=
  if (0 <? totalTime)%float then (time / totalTime * 100)%float else 0%float.

(** [parentPath ? `${parentPath}-${index}` : root], where [root] is what the
    function uses at the top level. *)
Definition node_path (parentPath : string) (index : nat) (root : string) : string :=
  if string_truthy parentPath then parentPath +:+ "-" +:+ string_of_index index
  else root.

(** [transformQuery(query, index, parentPath = '')]. *)
Fixpoint transformQuery (totalTime : float) (query : QueryProfile) (index : nat)
    (parentPath : string) {struct query} : ProcessedQuery :=
  let nodeId := node_path parentPath index (string_of_index index) in
  let timeMs := (or_zero (qp_time_in_nanos query) / 1000000)%float in
  let percentage := percentage_of totalTime (or_zero (qp_time_in_nanos query)) in
  {| id := "query-" +:+ nodeId;
     queryName := or_string (qp_type query) "Unknown Query";
     type := or_string (qp_type query) "Unknown";
     description := or_string (qp_description query) "";
     time_ms := timeMs;
     time_in_nanos := or_zero (qp_time_in_nanos query);
     percentage := percentage;
     breakdown := or_empty (qp_breakdown query);
     rawBreakdown := or_empty (qp_breakdown query);
     children :=
       match qp_children query with
       | Some cs => Some (array_map (fun child idx => transformQuery totalTime child idx nodeId) cs)
       | None => None
       end |}.

(** [transformCollector(collector, index, parentPath = '')]. *)
Fixpoint transformCollector (totalTime : float) (collector : CollectorProfile) (index : nat)
    (parentPath : string) {struct collector} : ProcessedQuery :=
  let nodeId := node_path parentPath index ("collector-" +:+ string_of_index index) in
  let timeMs := (or_zero (cp_time_in_nanos collector) / 1000000)%float in
  let percentage := percentage_of totalTime (or_zero (cp_time_in_nanos collector)) in
  {| id := nodeId;
     queryName := or_string (cp_name collector) "Collector";
     type := or_string (cp_name collector) "Collector";
     description := or_string (cp_reason collector) "";
     time_ms := timeMs;
     time_in_nanos := or_zero (cp_time_in_nanos collector);
     percentage := percentage;
     breakdown := or_empty (cp_breakdown collector);
     rawBreakdown := or_empty (cp_breakdown collector);
     children :=
       match cp_children collector with
       | Some cs =>
           Some (array_map (fun child idx => transformCollector totalTime child idx nodeId) cs)
       | None => None
       end |}.

(** The synthetic node pushed for [rewriteTime]. *)
Definition rewrite_node (totalTime rewriteTime : float) : ProcessedQuery :=
  {| id := "rewrite";
     queryName := "Rewrite";
     type := "Rewrite";
     description := "Query rewrite time";
     time_ms := (rewriteTime / 1000000)%float;
     time_in_nanos := rewriteTime;
     percentage := percentage_of totalTime rewriteTime;
     breakdown := [];
     rawBreakdown := [];
     children := None |}.

(** The [useMemo] body computing [processedQueries]. *)
Definition processedQueries (props : QueryTreeProps) (activeTab : Tab) : list ProcessedQuery :=
  let data := activeData props activeTab in
  if Nat.eqb (length data) 0 then []
  else
    let total := totalTime props activeTab in
    let result := array_map (fun q i => transformQuery total q i "") data in
    match activeTab with
    | search =>
        let result1 :=
          match rewriteTime props with
          | Some r => if (0 <? r)%float then result ++ [rewrite_node total r] else result
          | None => result
          end in
        match collectors props with
        | Some cs =>
            if Nat.ltb 0 (length cs)
            then result1 ++ array_map (fun c i => transformCollector total c i "") cs
            else result1
        | None => result1
        end
    | aggregation => result
    end.

(** The transformed root nodes of the active array. *)
Definition query_nodes (total : float) (data : list QueryProfile) : list ProcessedQuery :=
  array_map (fun q i => transformQuery total q i "") data.

(** The Rewrite sibling: present when [rewriteTime] is given and positive. *)
Definition rewrite_nodes (total : float) (rewriteTime : option float) : list ProcessedQuery :=
  match rewriteTime with
  | Some r => if (0 <? r)%float then [rewrite_node total r] else []
  | None => []
  end.

(** One sibling per top-level collector. *)
Definition collector_nodes (total : float) (collectors : option (list CollectorProfile))
  : list ProcessedQuery :=
  match collectors with
  | Some cs => array_map (fun c i => transformCollector total c i "") cs
  | None => []
  end.



(** A node together with all its descendants, in display order. *)
Fixpoint subtree (node : ProcessedQuery) : list ProcessedQuery :=
  node ::
  match children node with
  | Some cs => flat_map subtree cs
  | None => []
  end.

(** Every node of a forest, at every depth. *)
Definition all_nodes (forest : list ProcessedQuery) : list ProcessedQuery :=
  flat_map subtree forest.

End QueryTree.

(** ** components/QueryDetailPanel: the breakdown rows *)

Module QueryDetailPanel.

Record Entry : Type := mkEntry {
  operation : string;
  timeNs : float;
  count : float
}.

(** [s.endsWith(suffix)]. *)
Definition endsWith (s suffix : string) : bool :=
  Nat.leb (String.length suffix) (String.length s)
  && String.eqb
       (substring (String.length s - String.length suffix) (String.length suffix) s)
       suffix.

(** The regular-expression class [\w]: ASCII letters, digits and [_]. *)
Definition is_word_char (c : ascii) : bool :=
  let n := nat_of_ascii c in
  (Nat.leb 97 n && Nat.leb n 122) || (Nat.leb 65 n && Nat.leb n 90)
  || (Nat.leb 48 n && Nat.leb n 57) || Nat.eqb n 95.

(** [c.toUpperCase()] on a character matched by [\w]. *)
Definition toUpperCase (c : ascii) : ascii :=
  let n := nat_of_ascii c in
  if Nat.leb 97 n && Nat.leb n 122 then ascii_of_nat (n - 32) else c.

(** [s.replace(/_/g, ' ')]. *)
Fixpoint replace_underscores (s : string) : string :=
  match s with
  | EmptyString => EmptyString
  | String c rest =>
      String (if Ascii.eqb c "_"%char then " "%char else c) (replace_underscores rest)
  end.

(** [s.replace(/\b\w/g, (c) => c.toUpperCase())]: a word character is
    replaced when no word character precedes it.  [prev] tells whether the
    previous character was a word character. *)
Fixpoint capitalize_from (prev : bool) (s : string) : string :=
  match s with
  | EmptyString => EmptyString
  | String c rest =>
      String (if is_word_char c && negb prev then toUpperCase c else c)
             (capitalize_from (is_word_char c) rest)
  end.

(** The label of a row:
    [key.replace(/_/g, ' ').replace(/\b\w/g, (c) => c.toUpperCase())]. *)
Definition humanize (key : string) : string :=
  capitalize_from false (replace_underscores key).

Section ArraySort.
Context {A : Type} (compareFn : A -> A -> float).

(** [x] goes after every element the comparator puts before it
    ([compareFn(x, y) > 0]) and before the first one it does not. *)
Fixpoint sort_insert (x : A) (sorted : list A) : list A :=
  match sorted with
  | [] => [x]
  | y :: rest =>
      if (0 <? compareFn x y)%float then y :: sort_insert x rest
      else x :: y :: rest
  end.

(** [Array.prototype.sort(compareFn)], which is stable: an insertion sort
    that keeps elements the comparator does not order in their original
    order. *)
Fixpoint array_sort (l : list A) : list A :=
  match l with
  | [] => []
  | x :: rest => sort_insert x (array_sort rest)
  end.
End ArraySort.

(** The comparator of the source: [(a, b) => b.timeNs - a.timeNs]. *)
Definition by_time_desc (a b : Entry) : float := (timeNs b - timeNs a)%float.

(** [a] may stand before [b]: the comparator does not ask for [b] first. *)
Definition not_after (a b : Entry) : Prop :=
  (0 <? by_time_desc a b)%float = false.

(** Descending order of the time: [a.timeNs >= b.timeNs]. *)
Definition time_descending (a b : Entry) : Prop :=
  (timeNs b <=? timeNs a)%float = true.

(** A number that [x || 0] leaves alone: anything but [NaN] and [-0]. *)
Definition plain_number (x : float) : Prop :=
  x = 0%float \/ number_truthy x = true.

(** One call of the [forEach] callback: the state is [processedKeys] and
    [entries]. *)
Definition visit_key (breakdown : Breakdown) (includeZeros : bool)
    (state : gset string * list Entry) (key : string) : gset string * list Entry :=
  let '(processedKeys, entries) := state in
  if bool_decide (key ∈ processedKeys) || endsWith key "_count" then state
  else
    let countKey := key +:+ "_count" in
    let countValue := or_zero (breakdown_get countKey breakdown) in
    match breakdown_get key breakdown with
    | Some timeValue =>
        if includeZeros || (0 <? timeValue)%float || (0 <? countValue)%float then
          (processedKeys ∪ {[ key ]} ∪ {[ countKey ]},
           entries ++ [ {| operation := humanize key;
                           timeNs := timeValue;
                           count := countValue |} ])
        else state
    | None => state
    end.

(** [getBreakdownEntries(includeZeros)] for the selected [query]. *)
Definition getBreakdownEntries (query : option QueryProfile) (includeZeros : bool)
  : list Entry :=
  match query with
  | None => []
  | Some q =>
      match qp_breakdown q with
      | None => []
      | Some breakdown =>
          let '(_, entries) :=
            fold_left (visit_key breakdown includeZeros) (map fst breakdown) (∅, []) in
          array_sort by_time_desc entries
      end
  end.

(** The rows one key contributes, as the callback computes them. *)
Definition rows_of_key (breakdown : Breakdown) (includeZeros : bool) (key : string)
  : list Entry :=
  if endsWith key "_count" then []
  else
    let countValue := or_zero (breakdown_get (key +:+ "_count") breakdown) in
    match breakdown_get key breakdown with
    | Some timeValue =>
        if includeZeros || (0 <? timeValue)%float || (0 <? countValue)%float
        then [ {| operation := humanize key; timeNs := timeValue; count := countValue |} ]
        else []
    | None => []
    end.

(** The rows as the specification describes them: every key that does not
    end in [_count], paired with its [_count] sibling (0 when absent), kept
    always in raw mode and only with a positive time or count in filtered
    mode, in key order. *)
Definition spec_rows (breakdown : Breakdown) (includeZeros : bool) : list Entry :=
  flat_map
    (fun '(key, timeValue) =>
       if endsWith key "_count" then []
       else
         let countValue :=
           match breakdown_get (key +:+ "_count") breakdown with
           | Some c => c
           | None => 0%float
           end in
         if includeZeros || (0 <? timeValue)%float || (0 <? countValue)%float
         then [ {| operation := humanize key; timeNs := timeValue; count := countValue |} ]
         else [])
    breakdown.

End QueryDetailPanel.

(** ** utils/parsing.ts *)

Module Parsing.

Import Validation.

Record ParseResult : Type := mkParseResult {
  success : bool;
  data : option JSValue;
  parse_error : option ProfilerError
}.

Section Platform.
(** The platform's [JSON.parse]: the decoded value, or the message of the
    [SyntaxError] it throws. *)
Variable JSON_parse : string -> JSValue + string.
(** The platform's [JSON.stringify(value, null, 2)]: the text, or [None]
    when it throws. *)
Variable JSON_stringify : JSValue -> option string.

(** [validateJSON(jsonString)] of utils/validation.ts. *)
Definition validateJSON (jsonString : string) : ValidationResult :=
  if negb (string_truthy jsonString) then
    invalid INVALID_JSON "Invalid JSON input" "Input must be a non-empty string"
  else
    match JSON_parse jsonString with
    | inl _ => valid
    | inr message => invalid INVALID_JSON "Failed to parse JSON" message
    end.

(** [parseProfileJSON(jsonString)]. *)
Definition parseProfileJSON (jsonString : string) : ParseResult :=
  let jsonValidation := validateJSON jsonString in
  if negb (isValid jsonValidation) then
    {| success := false; data := None; parse_error := error jsonValidation |}
  else
    match JSON_parse jsonString with
    | inr message =>
        {| success := false; data := None;
           parse_error := error (invalid INVALID_JSON "Failed to parse JSON" message) |}
    | inl parsedData =>
        let '(profileValidation, parsedData') := validateProfileData parsedData in
        if negb (isValid profileValidation) then
          {| success := false; data := None; parse_error := error profileValidation |}
        else
          {| success := true; data := Some parsedData'; parse_error := None |}
    end.

End Platform.

End Parsing.

(** ** The platform: ECMAScript's [JSON.parse], [JSON.stringify] and
    Number::toString *)

Module Platform.

(** A JavaScript string is kept as the bytes of its UTF-8 form (a lone
    surrogate as the three bytes of its generalised UTF-8 form). *)

(** *** Number::toString *)








Definition digits_string (z : Z) : string :=
  NilZero.string_of_uint (N.to_uint (Z.to_N z)).




(** *** JSON.stringify(value, null, 2) *)



Definition double_quote : ascii := ascii_of_nat 34.









(** *** JSON.parse *)

(** The number a decimal literal denotes: [digits * 10 ^ exp10] rounded to
    the nearest double, ties to even.  The quotient keeps every bit down to
    [2 ^ -1076] and a sticky bit below, which is all the rounding needs. *)
Definition float_of_decimal (negative : bool) (digits exp10 : Z) : float :=
  if (digits =? 0)%Z then (if negative then (-0)%float else 0%float)
  else
    let num := (digits * 10 ^ Z.max exp10 0 * 2 ^ 1076)%Z in
    let den := (10 ^ Z.max (- exp10) 0)%Z in
    let sticky := if (num mod den =? 0)%Z then 0%Z else 1%Z in
    let magnitude :=
      SF2Prim (binary_normalize prec emax (2 * (num / den) + sticky) (-1077) false) in
    if negative then (- magnitude)%float else magnitude.

Definition is_whitespace (c : ascii) : bool :=
  let n := nat_of_ascii c in
  Nat.eqb n 32 || Nat.eqb n 9 || Nat.eqb n 10 || Nat.eqb n 13.

Fixpoint skip_whitespace (s : string) : string :=
  match s with
  | String c rest => if is_whitespace c then skip_whitespace rest else s
  | EmptyString => s
  end.

Definition digit_value (c : ascii) : option Z :=
  let n := nat_of_ascii c in
  if Nat.leb 48 n && Nat.leb n 57 then Some (Z.of_nat (n - 48)) else None.

(** The digits at the head of [s]: their value after [acc], how many they
    are, and the rest. *)
Fixpoint take_digits (s : string) (acc : Z) (count : nat) : Z * nat * string :=
  match s with
  | String c rest =>
      match digit_value c with
      | Some d => take_digits rest (acc * 10 + d) (S count)
      | None => (acc, count, s)
      end
  | EmptyString => (acc, count, s)
  end.

(** A JSON number: an optional minus sign, an integer part without a
    superfluous leading zero, an optional fraction and an optional
    exponent. *)
Definition parse_number (s : string) : option (float * string) :=
  let '(negative, s1) :=
    match s with
    | String "-" rest => (true, rest)
    | _ => (false, s)
    end in
  let '(int_part, int_count, s2) := take_digits s1 0 0 in
  let leading_zero :=
    match s1 with
    | String "0" _ => Nat.ltb 1 int_count
    | _ => false
    end in
  if Nat.eqb int_count 0 || leading_zero then None
  else
    let fraction :=
      match s2 with
      | String "." rest =>
          let '(mantissa, count, s3) := take_digits rest int_part 0 in
          if Nat.eqb count 0 then None else Some (mantissa, count, s3)
      | _ => Some (int_part, 0, s2)
      end in
    match fraction with
    | None => None
    | Some (mantissa, fraction_count, s3) =>
        let exponent :=
          match s3 with
          | String c rest =>
              if Ascii.eqb c "e" || Ascii.eqb c "E" then
                let '(exp_negative, s4) :=
                  match rest with
                  | String "-" r => (true, r)
                  | String "+" r => (false, r)
                  | _ => (false, rest)
                  end in
                let '(e, count, s5) := take_digits s4 0 0 in
                if Nat.eqb count 0 then None
                else Some ((if exp_negative then - e else e)%Z, s5)
              else Some (0%Z, s3)
          | EmptyString => Some (0%Z, s3)
          end in
        match exponent with
        | None => None
        | Some (e, rest) =>
            Some (float_of_decimal negative mantissa (e - Z.of_nat fraction_count), rest)
        end
    end.

Definition hex_value (c : ascii) : option N :=
  let n := N_of_ascii c in
  if (48 <=? n)%N && (n <=? 57)%N then Some (n - 48)%N
  else if (97 <=? n)%N && (n <=? 102)%N then Some (n - 87)%N
  else if (65 <=? n)%N && (n <=? 70)%N then Some (n - 55)%N
  else None.

Definition hex4 (a b c d : ascii) : option N :=
  match hex_value a, hex_value b, hex_value c, hex_value d with
  | Some x, Some y, Some z, Some w => Some (x * 4096 + y * 256 + z * 16 + w)%N
  | _, _, _, _ => None
  end.

(** The (generalised) UTF-8 bytes of a code point. *)
Definition utf8 (n : N) : string :=
  let byte (k : N) : ascii := ascii_of_N k in
  if (n <? 128)%N then String (byte n) EmptyString
  else if (n <? 2048)%N then
    String (byte (192 + n / 64)%N) (String (byte (128 + n mod 64)%N) EmptyString)
  else if (n <? 65536)%N then
    String (byte (224 + n / 4096)%N)
      (String (byte (128 + n / 64 mod 64)%N)
         (String (byte (128 + n mod 64)%N) EmptyString))
  else
    String (byte (240 + n / 262144)%N)
      (String (byte (128 + n / 4096 mod 64)%N)
         (String (byte (128 + n / 64 mod 64)%N)
            (String (byte (128 + n mod 64)%N) EmptyString))).

(** The characters of a string literal after its opening quote: the decoded
    string and what follows the closing quote. *)
Fixpoint parse_chars (s : string) : option (string * string) :=
  let continue (decoded : string) (rest : option (string * string)) :=
    match rest with
    | Some (content, after) => Some (decoded +:+ content, after)
    | None => None
    end in
  match s with
  | EmptyString => None
  | String c rest =>
      if Ascii.eqb c double_quote then Some (EmptyString, rest)
      else if Nat.ltb (nat_of_ascii c) 32 then None
      else if Ascii.eqb c "\" then
        match rest with
        | String "u" (String h1 (String h2 (String h3 (String h4 rest4)))) =>
            match hex4 h1 h2 h3 h4 with
            | None => None
            | Some hi =>
                let alone := continue (utf8 hi) (parse_chars rest4) in
                if (55296 <=? hi)%N && (hi <=? 56319)%N then
                  match rest4 with
                  | String "\" (String "u" (String l1 (String l2 (String l3 (String l4 rest10))))) =>
                      match hex4 l1 l2 l3 l4 with
                      | Some lo =>
                          if (56320 <=? lo)%N && (lo <=? 57343)%N then
                            continue (utf8 (65536 + (hi - 55296) * 1024 + (lo - 56320))%N)
                                     (parse_chars rest10)
                          else alone
                      | None => alone
                      end
                  | _ => alone
                  end
                else alone
            end
        | String e rest1 =>
            let simple (k : nat) :=
              continue (String (ascii_of_nat k) EmptyString) (parse_chars rest1) in
            if Ascii.eqb e double_quote then simple 34
            else if Ascii.eqb e "\" then simple 92
            else if Ascii.eqb e "/" then simple 47
            else if Ascii.eqb e "b" then simple 8
            else if Ascii.eqb e "f" then simple 12
            else if Ascii.eqb e "n" then simple 10
            else if Ascii.eqb e "r" then simple 13
            else if Ascii.eqb e "t" then simple 9
            else None
        | EmptyString => None
        end
      else continue (String c EmptyString) (parse_chars rest)
  end.

(** An array index as a property name: the canonical decimal form of an
    integer below [2 ^ 32 - 1]. *)
Definition array_index (k : string) : option Z :=
  let '(n, count, rest) := take_digits k 0 0 in
  match rest with
  | EmptyString =>
      if Nat.ltb 0 count && String.eqb (digits_string n) k && (n <? 4294967295)%Z
      then Some n else None
  | _ => None
  end.

(** CreateDataProperty on a property list kept in the order of
    OrdinaryOwnPropertyKeys: array indices first, ascending, then the other
    names in the order they were created; an existing property keeps its
    place. *)
Fixpoint define_property (k : string) (x : JSValue) (props : list (string * JSValue))
  : list (string * JSValue) :=
  match props with
  | [] => [(k, x)]
  | (k', v) :: rest =>
      if String.eqb k k' then (k', x) :: rest
      else
        let goes_first :=
          match array_index k, array_index k' with
          | Some i, Some j => (i <? j)%Z
          | Some _, None => true
          | None, _ => false
          end in
        if goes_first && negb (existsb (fun kv => String.eqb k kv.1) rest)
        then (k, x) :: props
        else (k', v) :: define_property k x rest
  end.

(** A JSON value at the head of [s], after optional white space; the value
    and what follows it. *)
Fixpoint parse_value (fuel : nat) (s : string) {struct fuel} : option (JSValue * string) :=
  match fuel with
  | O => None
  | S fuel' =>
      match skip_whitespace s with
      | String "[" rest =>
          match skip_whitespace rest with
          | String "]" after => Some (JArray [], after)
          | _ => parse_elements fuel' rest []
          end
      | String "{" rest =>
          match skip_whitespace rest with
          | String "}" after => Some (JObject [], after)
          | _ => parse_members fuel' rest []
          end
      | String "t" (String "r" (String "u" (String "e" after))) => Some (JBool true, after)
      | String "f" (String "a" (String "l" (String "s" (String "e" after)))) =>
          Some (JBool false, after)
      | String "n" (String "u" (String "l" (String "l" after))) => Some (JNull, after)
      | String c rest as text =>
          if Ascii.eqb c double_quote then
            match parse_chars rest with
            | Some (content, after) => Some (JString content, after)
            | None => None
            end
          else
            match parse_number text with
            | Some (x, after) => Some (JNumber x, after)
            | None => None
            end
      | EmptyString => None
      end
  end
with parse_elements (fuel : nat) (s : string) (acc : list JSValue) {struct fuel}
  : option (JSValue * string) :=
  match fuel with
  | O => None
  | S fuel' =>
      match parse_value fuel' s with
      | None => None
      | Some (v, after) =>
          match skip_whitespace after with
          | String "," rest => parse_elements fuel' rest (acc ++ [v])
          | String "]" rest => Some (JArray (acc ++ [v]), rest)
          | _ => None
          end
      end
  end
with parse_members (fuel : nat) (s : string) (acc : list (string * JSValue)) {struct fuel}
  : option (JSValue * string) :=
  match fuel with
  | O => None
  | S fuel' =>
      match skip_whitespace s with
      | String c rest =>
          if Ascii.eqb c double_quote then
            match parse_chars rest with
            | None => None
            | Some (key, after_key) =>
                match skip_whitespace after_key with
                | String ":" after_colon =>
                    match parse_value fuel' after_colon with
                    | None => None
                    | Some (v, after) =>
                        match skip_whitespace after with
                        | String "," more =>
                            parse_members fuel' more (define_property key v acc)
                        | String "}" more => Some (JObject (define_property key v acc), more)
                        | _ => None
                        end
                    end
                | _ => None
                end
            end
          else None
      | EmptyString => None
      end
  end.

(** [JSON.parse(text)]: the value, or the message of the SyntaxError (whose
    wording depends on the engine). *)
Definition JSON_parse (text : string) : JSValue + string :=
  match parse_value (2 * String.length text + 2) text with
  | Some (v, after) =>
      match skip_whitespace after with
      | EmptyString => inl v
      | _ => inr "Unexpected non-whitespace character after JSON"
      end
  | None => inr "Unexpected token or end of JSON input"
  end.

(** A text written with single quotes in place of double quotes. *)
Fixpoint double_quoted (s : string) : string :=
  match s with
  | EmptyString => EmptyString
  | String c rest =>
      String (if Ascii.eqb c "'" then double_quote else c) (double_quoted rest)
  end.

End Platform.

(** ** Sample inputs *)

Module Samples.


(** [{"profile": "text"}]: a [profile] that is present and not an object. *)
Definition doc_profile_string : list (string * JSValue) :=
  [("profile", JString "text")].

(** [{"took": 3}]: no [profile] at all. *)
Definition doc_no_profile : list (string * JSValue) :=
  [("took", JNumber 3%float)].

(** [{"profile": []}]. *)
Definition doc_profile_array : list (string * JSValue) :=
  [("profile", JArray [])].

(** [{"profile": {"shards": "none"}}] and [{"profile": {"shards": []}}]. *)
Definition profile_shards_string : list (string * JSValue) :=
  [("shards", JString "none")].

Definition profile_shards_empty : list (string * JSValue) :=
  [("shards", JArray [])].

(** Two shards whose [searches] hold values that are no search profiles,
    one of them with a nonsensical [aggregations]. *)
Definition odd_shards : list JSValue :=
  [JObject [("id", JString "[idx][0]");
            ("searches", JArray [JNumber 5%float; JString "x"; JNull])];
   JObject [("searches", JArray []); ("aggregations", JBool true)]].

(** A leaf query taking [t] nanoseconds. *)
Definition leaf (t : float) : QueryProfile :=
  mkQueryProfile (Some "TermQuery") (Some "x:1") (Some t) None None.

(** A query of 3 ms with two children of 1 ms and 2 ms. *)
Definition parent : QueryProfile :=
  mkQueryProfile (Some "BooleanQuery") (Some "+x:1 +y:2") (Some 3000000%float) None
    (Some [leaf 1000000; leaf 2000000]).

Definition coll : CollectorProfile :=
  mkCollectorProfile (Some "SimpleTopScoreDocCollector") (Some "search_top_hits")
    (Some 500000%float) None
    (Some [mkCollectorProfile (Some "inner") None (Some 100000%float) None None]).

(** Root queries of 1 ms and 3 ms, 0.5 ms of rewriting and one collector of
    0.5 ms: a total of 5 ms. *)
Definition search_props : QueryTree.QueryTreeProps :=
  QueryTree.mkQueryTreeProps (Some [leaf 1000000; parent]) None
    (Some 500000%float) (Some [coll]).

(** The second child of the second root query of [search_props]. *)
Definition nested_child : QueryTree.ProcessedQuery :=
  QueryTree.transformQuery 5000000 (leaf 2000000) 1 "1".

(** A root query reporting no time, with a child that reports 5 ns; no
    rewrite time and no collectors: the total is 0. *)
Definition zero_props : QueryTree.QueryTreeProps :=
  QueryTree.mkQueryTreeProps
    (Some [mkQueryProfile (Some "BooleanQuery") None (Some 0%float) None (Some [leaf 5])])
    None (Some 0%float) (Some []).

Definition zero_child : QueryTree.ProcessedQuery :=
  QueryTree.transformQuery 0 (leaf 5) 0 "0".

(** No root query, but a rewrite time and a collector. *)
Definition no_query_props : QueryTree.QueryTreeProps :=
  QueryTree.mkQueryTreeProps (Some []) None (Some 5%float) (Some [coll]).

(** Two aggregations, next to search data that the aggregation tab ignores. *)
Definition agg_props : QueryTree.QueryTreeProps :=
  QueryTree.mkQueryTreeProps (Some [leaf 1000000]) (Some [leaf 4000000; parent])
    (Some 500000%float) (Some [coll]).

(** A term query with two timed operations, one of them without a counter,
    and one operation that never ran. *)
Definition term_breakdown : Breakdown :=
  [("match", 800000%float); ("match_count", 1%float);
   ("build_scorer", 0%float); ("build_scorer_count", 0%float);
   ("score", 900000%float)].

Definition term_query : QueryProfile :=
  mkQueryProfile (Some "TermQuery") (Some "x:1") (Some 1000000%float)
    (Some term_breakdown) None.

(** The example document of the specification, as a text. *)
Definition example_text : string :=
  Platform.double_quoted
    ("{'profile':{'shards':[{'id':'[idx][0]','searches':[{'query':[{'type':'TermQuery',"
     +:+ "'description':'x:1','time_in_nanos':1000000,"
     +:+ "'breakdown':{'match':800000,'match_count':1}}],"
     +:+ "'rewrite_time':0,'collector':[]}]}]}}").

(** What [parseProfileJSON] makes of it, and the text it is serialised to. *)
Definition example_doc : JSValue :=
  match Parsing.data (Parsing.parseProfileJSON Platform.JSON_parse example_text) with
  | Some d => d
  | None => JUndefined
  end.



End Samples.

(** ** The platform's [Math.max] and [Math.min] *)

Module JSMath.

(** [Math.max(a, b)]: [NaN] when either argument is; [+0] counts as larger
    than [-0]. *)
Definition Math_max (a b : float) : float :=
  if is_nan a || is_nan b then nan
  else if (a <? b)%float then b
  else if (b <? a)%float then a
  else if get_sign a then b else a.

(** [Math.min(a, b)]: [NaN] when either argument is; [-0] counts as smaller
    than [+0]. *)
Definition Math_min (a b : float) : float :=
  if is_nan a || is_nan b then nan
  else if (a <? b)%float then a
  else if (b <? a)%float then b
  else if get_sign a then a else b.

(** [Math.max(...args)]: the largest argument, [-Infinity] when there is
    none. *)
Definition Math_max_list (args : list float) : float :=
  fold_left Math_max args neg_infinity.

End JSMath.

Import JSMath.

(** ** The platform's [String.prototype.trim] and [includes] *)

Module JSString.

(** The three-byte UTF-8 forms of the white space and line terminators
    above U+07FF: U+1680, U+2000 to U+200A, U+2028, U+2029, U+202F, U+205F,
    U+3000 and U+FEFF. *)
Definition is_space3 (n1 n2 n3 : nat) : bool :=
  (Nat.eqb n1 225 && Nat.eqb n2 154 && Nat.eqb n3 128)
  || (Nat.eqb n1 226 && Nat.eqb n2 128
      && ((Nat.leb 128 n3 && Nat.leb n3 138) || Nat.eqb n3 168 || Nat.eqb n3 169
          || Nat.eqb n3 175))
  || (Nat.eqb n1 226 && Nat.eqb n2 129 && Nat.eqb n3 159)
  || (Nat.eqb n1 227 && Nat.eqb n2 128 && Nat.eqb n3 128)
  || (Nat.eqb n1 239 && Nat.eqb n2 187 && Nat.eqb n3 191).

(** [s.trimStart()]: leading white space and line terminators are dropped
    (U+0009 to U+000D, U+0020, U+00A0 and the characters of [is_space3]). *)
Fixpoint trimStart (s : string) : string :=
  match s with
  | EmptyString => s
  | String c1 rest1 =>
      let n1 := nat_of_ascii c1 in
      if (Nat.leb 9 n1 && Nat.leb n1 13) || Nat.eqb n1 32 then trimStart rest1
      else
        match rest1 with
        | EmptyString => s
        | String c2 rest2 =>
            let n2 := nat_of_ascii c2 in
            if Nat.eqb n1 194 && Nat.eqb n2 160 then trimStart rest2
            else
              match rest2 with
              | EmptyString => s
              | String c3 rest3 =>
                  if is_space3 n1 n2 (nat_of_ascii c3) then trimStart rest3 else s
              end
        end
  end.

(** [s.trimEnd()]: the text is cut where only white space follows. *)
Fixpoint trimEnd (s : string) : string :=
  match s with
  | EmptyString => EmptyString
  | String c rest =>
      if string_truthy (trimStart s) then String c (trimEnd rest) else EmptyString
  end.

(** [s.trim()]. *)
Definition trim (s : string) : string := trimEnd (trimStart s).

(** [s.includes(needle)]. *)
Fixpoint includes (s needle : string) : bool :=
  String.prefix needle s
  || match s with
     | EmptyString => false
     | String _ rest => includes rest needle
     end.

End JSString.

(** ** components/QueryTree: expansion state, rendered rows and the resizer *)

Module TreeView.

Import QueryTree.

Definition TREE_PANEL_DEFAULT_WIDTH : float := 320%float.
Definition TREE_PANEL_MIN_WIDTH : float := 180%float.
Definition TREE_PANEL_MAX_WIDTH : float := 600%float.

(** [expandedNodes : Record<string, boolean>], keyed by node id.  The ids
    are those of [processedQueries], none of which is a property name of
    [Object.prototype]. *)
Definition ExpandedNodes : Type := gmap string bool.

(** [prev[nodeId]] under [!]: a missing entry is [undefined], which is
    falsy. *)
Definition flag (expandedNodes : ExpandedNodes) (nodeId : string) : bool :=
  match expandedNodes !! nodeId with Some b => b | None => false end.

(** [toggleNode(nodeId)]: the updater
    [(prev) => ({ ...prev, [nodeId]: !prev[nodeId] })]. *)
Definition toggleNode (nodeId : string) (prev : ExpandedNodes) : ExpandedNodes :=
  <[ nodeId := negb (flag prev nodeId) ]> prev.

(** The names a plain object literal inherits from [Object.prototype]. *)
Definition object_prototype_names : list string :=
  ["constructor"; "hasOwnProperty"; "isPrototypeOf"; "propertyIsEnumerable";
   "toLocaleString"; "toString"; "valueOf"; "__proto__"; "__defineGetter__";
   "__defineSetter__"; "__lookupGetter__"; "__lookupSetter__"].

(** The [colors] table of [getTypeColor]. *)
Definition colors : list (string * string) :=
  [("ConstantScoreQuery", "#FFE0B2"); ("BooleanQuery", "#D1C4E9");
   ("TermQuery", "#B2DFDB"); ("MatchAllDocsQuery", "#FFF9C4"); ("Rewrite", "#C8E6C9")].

(** [getTypeColor(type)].  [colors[type]] finds the five entries of the
    table and, for the names of [object_prototype_names], a member
    inherited from [Object.prototype], which is truthy and no colour: the
    result is then [None]. *)
Definition getTypeColor (type : string) : option string :=
  if JSString.includes type "Collector" then Some "#F2959B"
  else
    match List.find (fun entry => String.eqb type (fst entry)) colors with
    | Some entry => Some (snd entry)
    | None =>
        if List.existsb (String.eqb type) object_prototype_names then None
        else Some "#E0E7EF"
    end.

(** [node.children && node.children.length > 0]. *)
Definition hasChildren (node : ProcessedQuery) : bool :=
  match children node with
  | Some cs => Nat.ltb 0 (length cs)
  | None => false
  end.

(** [expandedNodes[node.id] === true]. *)
Definition isExpanded (expandedNodes : ExpandedNodes) (node : ProcessedQuery) : bool :=
  match expandedNodes !! id node with Some true => true | _ => false end.

(** One rendered row of the tree: the node, its depth (the left margin is
    [depth * TREE_NODE_INDENT]) and whether the percentage is shown
    ([depth > 0]). *)
Record Row : Type := mkRow {
  row_node : ProcessedQuery;
  row_depth : nat;
  row_shows_percentage : bool
}.

(** [renderTreeNode(node, depth = 0)]: the rows it renders, top to bottom. *)
Fixpoint renderTreeNode (expandedNodes : ExpandedNodes) (node : ProcessedQuery)
    (depth : nat) {struct node} : list Row :=
  {| row_node := node; row_depth := depth; row_shows_percentage := Nat.ltb 0 depth |} ::
  match children node with
  | Some cs =>
      if Nat.ltb 0 (length cs) && isExpanded expandedNodes node
      then flat_map (fun child => renderTreeNode expandedNodes child (S depth)) cs
      else []
  | None => []
  end.

(** The tree content: [processedQueries.map((query) => renderTreeNode(query))]. *)
Definition renderTree (expandedNodes : ExpandedNodes) (forest : list ProcessedQuery)
  : list Row :=
  flat_map (fun query => renderTreeNode expandedNodes query 0) forest.

(** The state of the resizer. *)
Record Resizer : Type := mkResizer {
  leftPanelWidth : float;
  isDragging : bool
}.

Definition initial_resizer : Resizer :=
  {| leftPanelWidth := TREE_PANEL_DEFAULT_WIDTH; isDragging := false |}.

Definition handleMouseDown (s : Resizer) : Resizer :=
  {| leftPanelWidth := leftPanelWidth s; isDragging := true |}.

(** [handleMouseMove(e)], with [clientX] the pointer's [e.clientX]. *)
Definition handleMouseMove (clientX : float) (s : Resizer) : Resizer :=
  if negb (isDragging s) then s
  else
    let newWidth :=
      Math_max TREE_PANEL_MIN_WIDTH (Math_min TREE_PANEL_MAX_WIDTH clientX) in
    {| leftPanelWidth := newWidth; isDragging := isDragging s |}.

Definition handleMouseUp (s : Resizer) : Resizer :=
  {| leftPanelWidth := leftPanelWidth s; isDragging := false |}.

(** The mouse events the resizer listens to. *)
Inductive MouseEvent : Type :=
| mousedown
| mousemove (clientX : float)
| mouseup.

(** The [mousemove] and [mouseup] listeners are attached to the document
    only while [isDragging] holds; [handleMouseMove] tests the flag again. *)
Definition handle (s : Resizer) (e : MouseEvent) : Resizer :=
  match e with
  | mousedown => handleMouseDown s
  | mousemove clientX => if isDragging s then handleMouseMove clientX s else s
  | mouseup => if isDragging s then handleMouseUp s else s
  end.

End TreeView.

(** ** components/QueryDetailPanel: bar scaling and the header time *)

Module DetailView.

Import QueryTree QueryDetailPanel.

(** [maxTime]: [Math.max(...breakdownEntries.map((e) => e.timeNs), 1)]. *)
Definition maxTime (breakdownEntries : list Entry) : float :=
  Math_max_list (map timeNs breakdownEntries ++ [1%float]).

(** The width of a row's bar, in percent: [(timeNs / maxTime) * 100]. *)
Definition bar_width (maxTime timeNs : float) : float :=
  (timeNs / maxTime * 100)%float.

(** [timeMs] of the header, for the selected node:
    [query.time_ms || (query.time_in_nanos || 0) / 1000000]. *)
Definition timeMs (query : ProcessedQuery) : float :=
  if number_truthy (time_ms query) then time_ms query
  else (or_zero (Some (time_in_nanos query)) / 1000000)%float.

End DetailView.

(** ** utils/validation.ts: the file-type check *)

Module FileValidation.

Import Validation QueryDetailPanel.

(** What the [FileReader] delivers for a file: the [load] event with
    [event.target?.result] (a text, or nothing), or the [error] event with
    [reader.error?.message]. *)
Inductive ReaderEvent : Type :=
| onload (result : option string)
| onerror (message : option string).

(** A [File]: its [name] and [type] (the MIME type, [''] when the platform
    does not know it), what a [FileReader] delivers for it, and what
    [file.text()] settles to (the text, or the message of the rejection). *)
Record File : Type := mkFile {
  file_name : string;
  file_type : string;
  file_reader : ReaderEvent;
  file_text : string + string
}.

(** The lower-case form of a character of the Basic Latin block. *)
Definition toLowerCase_ascii (c : ascii) : ascii :=
  let n := nat_of_ascii c in
  if Nat.leb 65 n && Nat.leb n 90 then ascii_of_nat (n + 32) else c.

(** [s.toLowerCase()] as far as a test against an ASCII text can tell: the
    letters [A] to [Z] are lowered and every other byte is kept.  Outside
    ASCII only U+0130 and U+212A have a lower-case form with an ASCII
    character in it ([i] and [k]), neither of which occurs in [.json], so
    [endsWith('.json')] sees on this form what it sees on the platform's. *)
Fixpoint toLowerCase (s : string) : string :=
  match s with
  | EmptyString => EmptyString
  | String c rest => String (toLowerCase_ascii c) (toLowerCase rest)
  end.

(** [validateFileType(file)]; [None] is a missing ([null]) file. *)
Definition validateFileType (file : option File) : ValidationResult :=
  match file with
  | None =>
      invalid FILE_READ_ERROR "No file provided" "Please select a file to upload"
  | Some file =>
      let fileName := toLowerCase (file_name file) in
      if negb (endsWith fileName ".json") then
        invalid FILE_READ_ERROR "Invalid file type" "Only JSON files (.json) are supported"
      else if string_truthy (file_type file)
              && negb (String.eqb (file_type file) "application/json")
              && negb (String.eqb (file_type file) "text/json") then
        invalid FILE_READ_ERROR "Invalid file type"
          ("Expected JSON file but got " +:+ file_type file)
      else valid
  end.

End FileValidation.

(** ** utils/parsing.ts: reading a file *)

Module FileParsing.

Import Validation Parsing FileValidation.

(** [readFileAsText(file)]: the text the promise resolves with, or the
    message of the [Error] it rejects with. *)
Definition readFileAsText (file : File) : string + string :=
  match file_reader file with
  | onload (Some result) =>
      if string_truthy result then inl result
      else inr "Failed to read file: No result from FileReader"
  | onload None => inr "Failed to read file: No result from FileReader"
  | onerror message =>
      inr ("Failed to read file: " +:+ or_string message "Unknown error")
  end.

Section Platform.
Variable JSON_parse : string -> JSValue + string.

(** [parseProfileFile(file)]: what the promise resolves with. *)
Definition parseProfileFile (file : File) : ParseResult :=
  match readFileAsText file with
  | inl fileContents => parseProfileJSON JSON_parse fileContents
  | inr message =>
      {| success := false; data := None;
         parse_error := Some {| error_type := FILE_READ_ERROR;
                                error_message := "Failed to read file";
                                error_details := Some message |} |}
  end.
End Platform.

End FileParsing.

(** ** components/ShardTable: the rows of the shard table *)

Module ShardTable.

Import QueryTree QueryDetailPanel JSString.

(** [SearchProfile] and [ShardProfile], every field optional as the
    component reads them. *)
Record SearchProfile : Type := mkSearchProfile {
  sp_query : option (list QueryProfile);
  sp_rewrite_time : option float;
  sp_collector : option (list CollectorProfile)
}.

Record ShardProfile : Type := mkShardProfile {
  shard_id : option string;
  shard_searches : option (list SearchProfile);
  shard_aggregations : option (list QueryProfile)
}.

Record ShardMetrics : Type := mkShardMetrics {
  id : string;
  name : string;
  searchTime : float;
  aggTime : float;
  index : nat
}.

(** [shard.searches?.[0]]. *)
Definition first_search (shard : ShardProfile) : option SearchProfile :=
  match shard_searches shard with
  | Some (s :: _) => Some s
  | _ => None
  end.

(** [list?.reduce((sum, x) => sum + (x.time_in_nanos || 0), 0) || 0]. *)
Definition reduce_or_zero {A : Type} (time : A -> option float) (l : option (list A))
  : float :=
  match l with
  | Some xs => or_zero (Some (sum_time_in_nanos time xs))
  | None => 0%float
  end.

(** The callback of [shards.map((shard, index) => ...)]. *)
Definition metrics_of (shard : ShardProfile) (index : nat) : ShardMetrics :=
  let searchTime :=
    match first_search shard with
    | Some s => reduce_or_zero qp_time_in_nanos (sp_query s)
    | None => 0%float
    end in
  let rewriteTime :=
    match first_search shard with
    | Some s => or_zero (sp_rewrite_time s)
    | None => 0%float
    end in
  let collectorsTime :=
    match first_search shard with
    | Some s => reduce_or_zero cp_time_in_nanos (sp_collector s)
    | None => 0%float
    end in
  let aggTime := reduce_or_zero qp_time_in_nanos (shard_aggregations shard) in
  let shardId := or_string (shard_id shard) ("shard-" +:+ string_of_index index) in
  {| id := or_string (shard_id shard) ("shard-" +:+ string_of_index index);
     name := shardId;
     searchTime := ((searchTime + rewriteTime + collectorsTime) / 1000000)%float;
     aggTime := (aggTime / 1000000)%float;
     index := index |}.

(** [shardMetrics]. *)
Definition shardMetrics (shards : option (list ShardProfile)) : list ShardMetrics :=
  match shards with
  | None => []
  | Some l => array_map metrics_of l
  end.

Inductive SortField : Type := by_searchTime | by_aggTime | by_name.
Inductive SortDirection : Type := asc | desc.

(** [sortedShards.slice(start, end)] for [start <= end]. *)
Definition slice {A : Type} (l : list A) (first last : nat) : list A :=
  firstn (last - first) (skipn first l).

Section Platform.
(** The platform's [String.prototype.toLowerCase] and
    [String.prototype.localeCompare]. *)
Variable toLowerCase : string -> string.
Variable localeCompare : string -> string -> float.

(** [filteredShards]. *)
Definition filteredShards (shardMetrics : list ShardMetrics) (searchTerm : string)
  : list ShardMetrics :=
  if negb (string_truthy searchTerm) then shardMetrics
  else List.filter (fun shard => includes (toLowerCase (name shard)) (toLowerCase searchTerm))
         shardMetrics.

(** [shard[sortField]] for the two numeric fields. *)
Definition numeric_field (sortField : SortField) (shard : ShardMetrics) : float :=
  match sortField with
  | by_aggTime => aggTime shard
  | _ => searchTime shard
  end.

(** The comparator of [sortedShards]. *)
Definition compareShards (sortField : SortField) (sortDirection : SortDirection)
    (a b : ShardMetrics) : float :=
  match sortField with
  | by_name =>
      match sortDirection with
      | asc => localeCompare (name a) (name b)
      | desc => localeCompare (name b) (name a)
      end
  | _ =>
      match sortDirection with
      | desc => (numeric_field sortField b - numeric_field sortField a)%float
      | asc => (numeric_field sortField a - numeric_field sortField b)%float
      end
  end.

(** [sortedShards]: a sorted copy of [filteredShards]. *)
Definition sortedShards (filteredShards : list ShardMetrics) (sortField : SortField)
    (sortDirection : SortDirection) : list ShardMetrics :=
  array_sort (compareShards sortField sortDirection) filteredShards.

(** The rows of one page, from the shards and the state of the component. *)
Definition paginatedItems (shards : option (list ShardProfile)) (searchTerm : string)
    (sortField : SortField) (sortDirection : SortDirection) (pageIndex pageSize : nat)
  : list ShardMetrics :=
  let sorted :=
    sortedShards (filteredShards (shardMetrics shards) searchTerm) sortField sortDirection in
  let startIndex := pageIndex * pageSize in
  slice sorted startIndex (startIndex + pageSize).
End Platform.

(** [maxSearchTime] and [maxAggTime], over the sorted list. *)
Definition maxSearchTime (sortedShards : list ShardMetrics) : float :=
  Math_max_list (map searchTime sortedShards ++ [1%float]).

Definition maxAggTime (sortedShards : list ShardMetrics) : float :=
  Math_max_list (map aggTime sortedShards ++ [1%float]).

End ShardTable.

(** ** containers/ProfilerDashboard: the handlers *)

Module Dashboard.

Import FileValidation FileParsing JSString ShardTable.

(** The state of the dashboard; [data] is the [profileData] of the
    application, which [updateData] sets. *)
Record State : Type := mkState {
  queryInput : string;
  jsonInput : string;
  data : option JSValue;
  selectedShardIndex : nat;
  selectedQuery : option QueryTree.ProcessedQuery;
  error : option ProfilerError
}.

Definition initial_state : State :=
  {| queryInput := ""; jsonInput := ""; data := None; selectedShardIndex := 0;
     selectedQuery := None; error := None |}.

(** [setError(e)]. *)
Definition setError (e : option ProfilerError) (s : State) : State :=
  {| queryInput := queryInput s; jsonInput := jsonInput s; data := data s;
     selectedShardIndex := selectedShardIndex s; selectedQuery := selectedQuery s;
     error := e |}.

Section Platform.
Variable JSON_parse : string -> JSValue + string.

(** [handleGenerateProfile()]. *)
Definition handleGenerateProfile (s : State) : State :=
  if negb (string_truthy (trim (jsonInput s))) then
    setError (Some {| error_type := MISSING_PROFILE_DATA;
                      error_message := "No profile data provided";
                      error_details :=
                        Some "Please enter or import profile JSON in the right editor" |}) s
  else
    let result := Parsing.parseProfileJSON JSON_parse (jsonInput s) in
    if negb (Parsing.success result)
       || negb (match Parsing.data result with Some d => truthy d | None => false end)
    then setError (Parsing.parse_error result) s
    else
      {| queryInput := queryInput s; jsonInput := jsonInput s;
         data := Parsing.data result;
         selectedShardIndex := 0; selectedQuery := None; error := None |}.

(** [handleFileChange(files)], once its promises have settled. *)
Definition handleFileChange (files : option (list File)) (s : State) : State :=
  match files with
  | None | Some [] => s
  | Some (file :: _) =>
      let fileValidation := validateFileType (Some file) in
      if negb (Validation.isValid fileValidation) then
        setError (Validation.error fileValidation) s
      else
        let result := parseProfileFile JSON_parse file in
        if negb (Parsing.success result) then setError (Parsing.parse_error result) s
        else
          match file_text file with
          | inl text =>
              {| queryInput := queryInput s; jsonInput := text; data := data s;
                 selectedShardIndex := selectedShardIndex s;
                 selectedQuery := selectedQuery s; error := None |}
          | inr message =>
              setError (Some {| error_type := FILE_READ_ERROR;
                                error_message := "Failed to read file";
                                error_details := Some message |}) s
          end
  end.
End Platform.

(** [handleReset()]. *)
Definition handleReset (s : State) : State := initial_state.

(** [handleRetry()]. *)
Definition handleRetry (s : State) : State := setError None s.

(** The props the dashboard mounts the [QueryTree] with for the selected
    shard, when it mounts it: the shard exists and its [searches] is a
    non-empty array. *)
Definition tree_props (shards : list ShardProfile) (selectedShardIndex : nat)
  : option QueryTree.QueryTreeProps :=
  match nth_error shards selectedShardIndex with
  | Some shard =>
      match shard_searches shard with
      | Some (first :: _) =>
          Some {| QueryTree.queries := sp_query first;
                  QueryTree.aggregations := shard_aggregations shard;
                  QueryTree.rewriteTime := sp_rewrite_time first;
                  QueryTree.collectors := sp_collector first |}
      | _ => None
      end
  | None => None
  end.

End Dashboard.

(** ** components/SettingsPopover: prettifying the JSON editor *)

Module SettingsPopover.

Section Platform.
Variable JSON_parse : string -> JSValue + string.
Variable JSON_stringify : JSValue -> option string.

End Platform.

End SettingsPopover.

(** ** More sample data *)

Module Files.

Import FileValidation.

(** A text that parses but has a numeric [profile]. *)
Definition numeric_profile_text : string := Platform.double_quoted "{'profile':7}".

(** A JSON file that was read, upper-case extension and no MIME type. *)
Definition upper_case_file : File :=
  {| file_name := "Profile.JSON"; file_type := "";
     file_reader := onload (Some numeric_profile_text);
     file_text := inl numeric_profile_text |}.

(** An empty JSON file. *)
Definition empty_file : File :=
  {| file_name := "p.json"; file_type := "application/json";
     file_reader := onload (Some ""); file_text := inl "" |}.

(** The example document of the specification, as a file. *)
Definition example_file : File :=
  {| file_name := "profile.json"; file_type := "application/json";
     file_reader := onload (Some Samples.example_text);
     file_text := inl Samples.example_text |}.

End Files.

Module Shards.

Import ShardTable.

(** A shard with the search data of [Samples.search_props] and no
    aggregations, and a shard without an id whose [searches] is empty. *)
Definition shard_a : ShardProfile :=
  {| shard_id := Some "[node][idx][0]";
     shard_searches :=
       Some [ {| sp_query := Some [Samples.leaf 1000000; Samples.parent];
                 sp_rewrite_time := Some 500000%float;
                 sp_collector := Some [Samples.coll] |} ];
     shard_aggregations := None |}.

Definition shard_b : ShardProfile :=
  {| shard_id := None;
     shard_searches := Some [];
     shard_aggregations := Some [Samples.leaf 4000000] |}.

Definition shards : list ShardProfile := [shard_a; shard_b].

(** A collation for the sample: every two names compare equal. *)
Definition no_collation (a b : string) : float := 0%float.

End Shards.

(** * Properties *)

(** ** Validation *)


Import Validation.

Lemma lookup_prop_assign_eq (k : string) (x : JSValue) (props : list (string * JSValue)) :
  lookup_prop k (assign_prop k x props) = Some x.
Proof.
  induction props as [|[k' v] rest IH]; simpl.
  - now rewrite String.eqb_refl.
  - destruct (String.eqb k k') eqn:E; simpl; rewrite E; [reflexivity | exact IH].
Qed.

Lemma lookup_prop_assign_ne (k k' : string) (x : JSValue) (props : list (string * JSValue)) :
  String.eqb k' k = false ->
  lookup_prop k' (assign_prop k x props) = lookup_prop k' props.
Proof.
  intros Hne. induction props as [|[k0 v] rest IH]; simpl.
  - now rewrite Hne.
  - destruct (String.eqb k k0) eqn:E; simpl.
    + apply String.eqb_eq in E. subst k0. now rewrite Hne.
    + now rewrite IH.
Qed.

(** Past the first guard, the verdict on a plain object depends only on its
    [profile] property. *)
Lemma validateProfileData_object (props : list (string * JSValue)) :
  validateProfileData (JObject props) =
  let data := JObject props in
  let profile := get_prop data "profile" in
  if negb (truthy profile) || negb (JSType_eqb (typeof profile) TObject) then
    (invalid MISSING_PROFILE_DATA "Missing required field: profile"
       ("The " +:+ quoted "profile"
          +:+ " field must be an object containing profiling information"), data)
  else
    match get_prop profile "shards" with
    | JArray shards =>
        if Nat.eqb (length shards) 0 then
          (invalid MISSING_PROFILE_DATA "No shard data found"
             "profile.shards array must contain at least one shard profile", data)
        else
          match check_shards shards 0 with
          | Some failure => (failure, data)
          | None => (valid, fill_defaults data (length shards))
          end
    | _ =>
        (invalid INVALID_PROFILE_FORMAT "Invalid profile.shards structure"
           "profile.shards must be an array of shard profiles", data)
    end.
Proof. reflexivity. Qed.

(** The shard loop accepts a list exactly when every element is an object
    (or array) whose [searches] is an array. *)
Lemma check_shards_accepts (shards : list JSValue) (i : nat) :
  Forall shard_has_searches shards ->
  check_shards shards i = None.
Proof.
  intros H. revert i. induction H as [|shard rest (sprops & searches & -> & Hs) _ IH]; intros i.
  - reflexivity.
  - simpl. rewrite Hs. simpl. apply IH.
Qed.





Import Validation.

(** C3 as stated fails: a [profile] that is present but a string is reported
    as MISSING_PROFILE_DATA, not as INVALID_PROFILE_FORMAT. *)
Lemma validateProfileData_profile_string_missing :
  lookup_prop "profile" Samples.doc_profile_string = Some (JString "text") /\
  is_object (JString "text") = false /\
  error_kind (fst (validateProfileData (JObject Samples.doc_profile_string)))
    = Some MISSING_PROFILE_DATA /\
  error_kind (fst (validateProfileData (JObject Samples.doc_profile_string)))
    <> Some INVALID_PROFILE_FORMAT.
Proof. repeat split; try reflexivity. discriminate. Qed.

(** C3 (amended): on a decoded object, an absent [profile] key gives
    MISSING_PROFILE_DATA; a [profile] that is present but is [null] or a
    primitive (boolean, number, string) gives MISSING_PROFILE_DATA as well,
    from the same guard; only a [profile] that is an array is reported as
    INVALID_PROFILE_FORMAT (by the [profile.shards] check). *)
Theorem validateProfileData_profile_key (props : list (string * JSValue)) :
  (lookup_prop "profile" props = None ->
   error_kind (fst (validateProfileData (JObject props))) = Some MISSING_PROFILE_DATA) /\
  (forall v : JSValue,
     lookup_prop "profile" props = Some v ->
     is_object v = false ->
     error_kind (fst (validateProfileData (JObject props)))
       = Some (if isArray v then INVALID_PROFILE_FORMAT else MISSING_PROFILE_DATA)).
Proof.
  rewrite validateProfileData_object. cbn zeta. unfold get_prop.
  split.
  - intros ->. reflexivity.
  - intros v -> Hv. destruct v as [| |b|x|s|l|o]; try discriminate Hv; try reflexivity.
    + destruct b; reflexivity.
    + simpl. destruct (number_truthy x); reflexivity.
    + simpl. destruct (string_truthy s); reflexivity.
Qed.

Lemma validateProfileData_profile_key_witness :
  error_kind (fst (validateProfileData (JObject Samples.doc_no_profile)))
    = Some MISSING_PROFILE_DATA /\
  error_kind (fst (validateProfileData (JObject Samples.doc_profile_string)))
    = Some MISSING_PROFILE_DATA /\
  error_kind (fst (validateProfileData (JObject Samples.doc_profile_array)))
    = Some INVALID_PROFILE_FORMAT.
Proof.
  split; [|split].
  - apply (proj1 (validateProfileData_profile_key Samples.doc_no_profile)). reflexivity.
  - apply (proj2 (validateProfileData_profile_key Samples.doc_profile_string)
             (JString "text")); reflexivity.
  - apply (proj2 (validateProfileData_profile_key Samples.doc_profile_array)
             (JArray [])); reflexivity.
Defined.

(** C7: when [profile] is an object, a [profile.shards] that is present but
    not an array gives INVALID_PROFILE_FORMAT, and an empty [profile.shards]
    array gives MISSING_PROFILE_DATA. *)
Theorem validateProfileData_shards_shape
    (props pprops : list (string * JSValue)) (shards : JSValue) :
  lookup_prop "profile" props = Some (JObject pprops) ->
  lookup_prop "shards" pprops = Some shards ->
  (isArray shards = false ->
   error_kind (fst (validateProfileData (JObject props))) = Some INVALID_PROFILE_FORMAT) /\
  (shards = JArray [] ->
   error_kind (fst (validateProfileData (JObject props))) = Some MISSING_PROFILE_DATA).
Proof.
  intros Hp Hs. rewrite validateProfileData_object. cbn zeta.
  unfold get_prop. rewrite Hp. cbn. rewrite Hs. split.
  - intros Ha. destruct shards; try discriminate Ha; reflexivity.
  - intros ->. reflexivity.
Qed.

Lemma validateProfileData_shards_shape_witness :
  error_kind (fst (validateProfileData
                     (JObject [("profile", JObject Samples.profile_shards_string)])))
    = Some INVALID_PROFILE_FORMAT /\
  error_kind (fst (validateProfileData
                     (JObject [("profile", JObject Samples.profile_shards_empty)])))
    = Some MISSING_PROFILE_DATA.
Proof.
  split.
  - apply (proj1 (validateProfileData_shards_shape
                    [("profile", JObject Samples.profile_shards_string)]
                    Samples.profile_shards_string (JString "none")
                    eq_refl eq_refl)).
    reflexivity.
  - apply (proj2 (validateProfileData_shards_shape
                    [("profile", JObject Samples.profile_shards_empty)]
                    Samples.profile_shards_empty (JArray [])
                    eq_refl eq_refl)).
    reflexivity.
Defined.

(** C10: validation is shallow below the shard level.  When [profile] is an
    object whose [shards] is a non-empty array of objects that each have a
    [searches] array, the document is valid, whatever the [searches] arrays
    contain and whatever any other property (such as [aggregations]) is. *)
Theorem validateProfileData_shallow
    (props pprops : list (string * JSValue)) (shards : list JSValue) :
  lookup_prop "profile" props = Some (JObject pprops) ->
  lookup_prop "shards" pprops = Some (JArray shards) ->
  shards <> [] ->
  Forall shard_has_searches shards ->
  fst (validateProfileData (JObject props)) = valid.
Proof.
  intros Hp Hs Hne Hall. rewrite validateProfileData_object. cbn zeta.
  unfold get_prop. rewrite Hp. cbn. rewrite Hs.
  destruct shards as [|s rest]; [contradiction|]. cbn [length Nat.eqb].
  rewrite (check_shards_accepts (s :: rest) 0 Hall). reflexivity.
Qed.

Lemma validateProfileData_shallow_witness :
  fst (validateProfileData
         (JObject [("profile", JObject [("shards", JArray Samples.odd_shards)])]))
  = valid.
Proof.
  apply (validateProfileData_shallow
           [("profile", JObject [("shards", JArray Samples.odd_shards)])]
           [("shards", JArray Samples.odd_shards)] Samples.odd_shards).
  - reflexivity.
  - reflexivity.
  - discriminate.
  - repeat constructor.
    + eexists _, _. split; reflexivity.
    + eexists _, _. split; reflexivity.
Defined.

(** ** Facts about binary64 comparison and subtraction *)

Module FloatFacts.

Lemma SFcompare_antisym (a b : spec_float) :
  SFcompare b a = option_map CompOpp (SFcompare a b).
Proof.
  destruct a as [sa|sa| |sa ma ea], b as [sb|sb| |sb mb eb]; simpl;
    try (destruct sa); try (destruct sb); try reflexivity;
    rewrite (Z.compare_antisym ea eb); destruct (ea ?= eb)%Z; simpl; try reflexivity;
    rewrite (Pos.compare_cont_antisym ma mb Eq); simpl;
    try rewrite CompOpp_involutive; reflexivity.
Qed.

(** [x == y] excludes [x > y]. *)
Lemma eqb_not_gtb (x y : float) :
  (x =? y)%float = true -> (y <? x)%float = false.
Proof.
  rewrite FloatAxioms.eqb_spec, FloatAxioms.ltb_spec. unfold SFeqb, SFltb.
  rewrite (SFcompare_antisym (Prim2SF x) (Prim2SF y)).
  destruct (SFcompare (Prim2SF x) (Prim2SF y)) as [[| |]|]; simpl; congruence.
Qed.

Lemma SFltb_zero (x : spec_float) : SFltb (S754_zero false) x = SFpositive x.
Proof. destruct x as [[|]|[|]| |[|] m e]; reflexivity. Qed.

Lemma binary_round_sign (s : bool) (m : positive) (e : Z) :
  SFpositive (binary_round prec emax s m e) = true -> s = false.
Proof.
  unfold binary_round, binary_round_aux.
  destruct (shl_align m e _) as [mz ez].
  destruct (shr_fexp prec emax (Z.pos mz) ez loc_Exact) as [mrs' e'].
  destruct (shr_fexp prec emax _ e' loc_Exact) as [mrs'' e''].
  destruct (shr_m mrs''); [| destruct (Z.leb e'' (emax - prec)) |];
    destruct s; simpl; congruence.
Qed.

Lemma binary_normalize_positive (m e : Z) :
  SFpositive (binary_normalize prec emax m e false) = true -> (0 < m)%Z.
Proof.
  destruct m as [|p|p]; simpl; intros H.
  - discriminate.
  - lia.
  - apply binary_round_sign in H. discriminate.
Qed.

Lemma binary_normalize_negative (m e : Z) :
  (m < 0)%Z -> SFpositive (binary_normalize prec emax m e false) = false.
Proof.
  destruct m as [|p|p]; simpl; intros H; try lia.
  destruct (SFpositive (binary_round prec emax true p e)) eqn:E; [|reflexivity].
  apply binary_round_sign in E. discriminate.
Qed.

Lemma SFsub_positive_antisym (a b : spec_float) :
  SFpositive (SFsub prec emax a b) = true -> SFpositive (SFsub prec emax b a) = false.
Proof.
  destruct a as [sa|sa| |sa ma ea], b as [sb|sb| |sb mb eb];
    try (simpl; try (destruct sa); try (destruct sb); simpl; congruence).
  unfold SFsub. intros H. apply binary_normalize_positive in H.
  rewrite (Z.min_comm eb ea). apply binary_normalize_negative.
  unfold cond_Zopp in *. lia.
Qed.

(** The comparator [b - a] never orders two values both ways. *)
Lemma sub_positive_antisym (x y : float) :
  (0 <? x - y)%float = true -> (0 <? y - x)%float = false.
Proof.
  rewrite !FloatAxioms.ltb_spec, !FloatAxioms.sub_spec.
  change (Prim2SF 0) with (S754_zero false). rewrite !SFltb_zero.
  apply SFsub_positive_antisym.
Qed.

End FloatFacts.

Module FloatOrder.
Import FloatFacts.

Local Open Scope Z_scope.

Lemma digits2_pos_size (p : positive) : digits2_pos p = Pos.size p.
Proof. induction p as [p IH|p IH|]; simpl; [now rewrite IH | now rewrite IH | reflexivity]. Qed.

(** A positive mantissa of [d] binary digits lies in [[2^(d-1), 2^d)]. *)
Lemma digits2_pos_bounds (p : positive) :
  2 ^ (Z.pos (digits2_pos p) - 1) <= Z.pos p < 2 ^ Z.pos (digits2_pos p).
Proof.
  rewrite digits2_pos_size. split.
  - pose proof (Pos.size_le p) as H. apply Pos2Z.pos_le_pos in H.
    rewrite Pos2Z.inj_pow in H. change (Z.pos 2) with 2 in H.
    replace (Z.pos (Pos.size p)) with (Z.succ (Z.pos (Pos.size p) - 1)) in H by lia.
    rewrite Z.pow_succ_r in H by lia. change (Z.pos p~0) with (2 * Z.pos p) in H. lia.
  - pose proof (Pos.size_gt p) as H. apply Pos2Z.pos_lt_pos in H.
    now rewrite Pos2Z.inj_pow in H.
Qed.

Lemma shr_1_m (mrs : shr_record) :
  0 <= shr_m mrs -> shr_m (shr_1 mrs) = shr_m mrs / 2.
Proof.
  destruct mrs as [m r s]. cbn [shr_m]. intros Hm.
  destruct m as [|[p|p|]|p]; cbn [shr_1 shr_m]; try lia; try reflexivity.
  - change (Z.pos p~1) with (2 * Z.pos p + 1).
    apply Z.div_unique with (r := 1); lia.
  - change (Z.pos p~0) with (2 * Z.pos p).
    apply Z.div_unique with (r := 0); lia.
Qed.

Lemma pow2_xO (n : positive) : 2 ^ Z.pos n~0 = 2 ^ Z.pos n * 2 ^ Z.pos n.
Proof. replace (Z.pos n~0) with (Z.pos n + Z.pos n) by lia. apply Z.pow_add_r; lia. Qed.

Lemma pow2_xI (n : positive) : 2 ^ Z.pos n~1 = 2 * (2 ^ Z.pos n * 2 ^ Z.pos n).
Proof.
  replace (Z.pos n~1) with (Z.succ (Z.pos n + Z.pos n)) by lia.
  rewrite Z.pow_succ_r, Z.pow_add_r by lia. reflexivity.
Qed.

(** Shifting a non-negative mantissa right by [n] bits divides it by
    [2 ^ n]. *)
Lemma iter_shr_1_m (n : positive) :
  forall mrs, 0 <= shr_m mrs ->
              shr_m (SpecFloat.iter_pos shr_1 n mrs) = shr_m mrs / 2 ^ Z.pos n.
Proof.
  assert (Hnonneg : forall mrs, 0 <= shr_m mrs -> 0 <= shr_m (shr_1 mrs)).
  { intros mrs H. rewrite shr_1_m by assumption. apply Z.div_pos; lia. }
  induction n as [n IH|n IH|]; intros mrs Hm; simpl.
  - rewrite IH, IH, shr_1_m; try assumption.
    + rewrite !Z.div_div by lia. now rewrite pow2_xI.
    + now apply Hnonneg.
    + rewrite IH by now apply Hnonneg. apply Z.div_pos; [now apply Hnonneg | lia].
  - rewrite IH, IH; try assumption.
    + rewrite Z.div_div by lia. now rewrite pow2_xO.
    + rewrite IH by assumption. apply Z.div_pos; [assumption | lia].
  - rewrite shr_1_m by assumption. reflexivity.
Qed.

Lemma shr_record_of_loc_m (m : Z) (l : location) : shr_m (shr_record_of_loc m l) = m.
Proof. destruct l as [|[| |]]; reflexivity. Qed.

(** Above the least exponent, the shift to the target precision keeps a
    positive mantissa positive. *)
Lemma shr_fexp_positive (m e : Z) (l : location) :
  0 < m -> emin <= e ->
  0 < shr_m (shr_fexp prec emax m e l).1 /\ emin <= (shr_fexp prec emax m e l).2.
Proof.
  intros Hm He. unfold shr_fexp, shr.
  destruct m as [|p|p]; try lia. cbn [Zdigits2].
  pose proof (digits2_pos_bounds p) as [Hlow _].
  set (d := Z.pos (digits2_pos p)) in *.
  unfold fexp, SpecFloat.emin, prec, emax in *.
  destruct (Z.max (d + e - 53) (3 - 1024 - 53) - e) as [|n|n] eqn:Hn; cbn [fst snd].
  - rewrite shr_record_of_loc_m. lia.
  - rewrite iter_shr_1_m by (rewrite shr_record_of_loc_m; lia).
    rewrite shr_record_of_loc_m. split; [|lia].
    assert (Hshift : Z.pos n = d - 53) by lia.
    apply Z.div_str_pos. split; [apply Z.pow_pos_nonneg; lia|].
    apply Z.le_trans with (2 ^ (d - 1)); [|exact Hlow].
    apply Z.pow_le_mono_r; lia.
  - rewrite shr_record_of_loc_m. lia.
Qed.

Lemma round_nearest_even_positive (m : Z) (l : location) :
  0 < m -> 0 < round_nearest_even m l.
Proof.
  intros Hm. destruct l as [|[| |]]; simpl; try lia. destruct (Z.even m); lia.
Qed.

Lemma binary_round_aux_positive (m e : Z) :
  0 < m -> emin <= e ->
  SFpositive (binary_round_aux prec emax false m e loc_Exact) = true.
Proof.
  intros Hm He. unfold binary_round_aux.
  destruct (shr_fexp_positive m e loc_Exact Hm He) as [Hm1 He1].
  destruct (shr_fexp prec emax m e loc_Exact) as [mrs1 e1]. cbn [fst snd] in *.
  pose proof (round_nearest_even_positive _ (loc_of_shr_record mrs1) Hm1) as Hm2.
  destruct (shr_fexp_positive _ e1 loc_Exact Hm2 He1) as [Hm3 He3].
  destruct (shr_fexp prec emax _ e1 loc_Exact) as [mrs2 e2]. cbn [fst snd] in *.
  destruct (shr_m mrs2) as [|q|q]; try lia.
  destruct (e2 <=? emax - prec); reflexivity.
Qed.

Lemma iter_xO (m d : positive) : Z.pos (Pos.iter xO m d) = Z.pos m * 2 ^ Z.pos d.
Proof.
  induction d as [|d IH] using Pos.peano_ind.
  - simpl. lia.
  - rewrite Pos.iter_succ, Pos2Z.inj_succ, Z.pow_succ_r by lia.
    change (Z.pos (Pos.iter xO m d)~0) with (2 * Z.pos (Pos.iter xO m d)). lia.
Qed.

(** Aligning a mantissa to a lower exponent scales it by the power of two
    in between. *)
Lemma shl_align_le (m : positive) (e e' : Z) :
  e' <= e ->
  Z.pos (shl_align m e e').1 = Z.pos m * 2 ^ (e - e') /\ (shl_align m e e').2 = e'.
Proof.
  intros Hle. unfold shl_align. destruct (e' - e) as [|d|d] eqn:Hd; cbn [fst snd]; try lia.
  - replace (e - e') with 0 by lia. split; lia.
  - rewrite iter_xO. replace (e - e') with (Z.pos d) by lia. split; lia.
Qed.

Lemma shl_align_emin (m : positive) (e e' : Z) :
  emin <= e -> emin <= e' -> emin <= (shl_align m e e').2.
Proof. intros He He'. unfold shl_align. destruct (e' - e); cbn [snd]; lia. Qed.

Lemma binary_round_positive (m : positive) (e : Z) :
  emin <= e -> SFpositive (binary_round prec emax false m e) = true.
Proof.
  intros He. unfold binary_round.
  pose proof (shl_align_emin m e (fexp prec emax (Z.pos (digits2_pos m) + e)) He) as Hez.
  destruct (shl_align m e _) as [mz ez]. cbn [snd] in Hez.
  apply binary_round_aux_positive; [lia|]. apply Hez.
  unfold fexp, SpecFloat.emin. lia.
Qed.

(** A canonical mantissa has at most [prec] digits, and exactly [prec]
    above the least exponent. *)
Lemma canonical_facts (m : positive) (e : Z) :
  canonical_mantissa prec emax m e = true ->
  emin <= e /\ Z.pos (digits2_pos m) <= prec /\ (emin < e -> Z.pos (digits2_pos m) = prec).
Proof.
  unfold canonical_mantissa, fexp, SpecFloat.emin, prec, emax.
  intros H. apply Z.eqb_eq in H. lia.
Qed.

Lemma valid_finite (s : bool) (m : positive) (e : Z) :
  valid_binary (S754_finite s m e) = true ->
  emin <= e /\ Z.pos m < 2 ^ prec /\ (emin < e -> 2 ^ (prec - 1) <= Z.pos m).
Proof.
  cbn [SpecFloat.valid_binary]. unfold bounded. intros H.
  apply andb_true_iff in H as [Hcanon _].
  destruct (canonical_facts m e Hcanon) as (He & Hd & Hnormal).
  pose proof (digits2_pos_bounds m) as [Hlow Hhigh].
  split; [exact He|]. split.
  - apply Z.lt_le_trans with (2 ^ Z.pos (digits2_pos m)); [exact Hhigh|].
    apply Z.pow_le_mono_r; lia.
  - intros Hgt. rewrite <- (Hnormal Hgt). exact Hlow.
Qed.

(** The larger of two canonical magnitudes, by exponent first. *)
Lemma magnitude_lt_exponent (mx my : positive) (ex ey : Z) :
  valid_binary (S754_finite false mx ex) = true ->
  valid_binary (S754_finite false my ey) = true ->
  ex < ey ->
  Z.pos mx < Z.pos my * 2 ^ (ey - ex).
Proof.
  intros Hx Hy Hlt.
  destruct (valid_finite _ _ _ Hx) as (Hex & Hmx & _).
  destruct (valid_finite _ _ _ Hy) as (_ & _ & Hmy).
  specialize (Hmy ltac:(lia)).
  assert (Hpow : 2 ^ 1 <= 2 ^ (ey - ex)) by (apply Z.pow_le_mono_r; lia).
  assert (Hprec : 2 ^ prec = 2 ^ (prec - 1) * 2 ^ 1) by reflexivity.
  nia.
Qed.

Lemma SFsub_finite (sx sy : bool) (mx my : positive) (ex ey : Z) :
  SFsub prec emax (S754_finite sy my ey) (S754_finite sx mx ex)
  = binary_normalize prec emax
      (cond_Zopp sy (Z.pos (shl_align my ey (Z.min ey ex)).1)
       - cond_Zopp sx (Z.pos (shl_align mx ex (Z.min ey ex)).1))
      (Z.min ey ex) false.
Proof. reflexivity. Qed.

Lemma binary_normalize_positive_intro (m e : Z) :
  0 < m -> emin <= e -> SFpositive (binary_normalize prec emax m e false) = true.
Proof.
  intros Hm He. destruct m as [|p|p]; try lia. now apply binary_round_positive.
Qed.

(** [x < y] makes [y - x] strictly positive: a difference of distinct
    doubles never rounds to zero. *)
Lemma SFsub_positive (x y : spec_float) :
  valid_binary x = true -> valid_binary y = true ->
  SFcompare x y = Some Lt ->
  SFpositive (SFsub prec emax y x) = true.
Proof.
  intros Hx Hy.
  destruct x as [sx|sx| |sx mx ex], y as [sy|sy| |sy my ey];
    try (simpl; try (destruct sx); try (destruct sy); simpl; congruence).
  intros Hlt. rewrite SFsub_finite.
  destruct (valid_finite _ _ _ Hx) as (Hex & _ & _).
  destruct (valid_finite _ _ _ Hy) as (Hey & _ & _).
  apply binary_normalize_positive_intro; [|lia].
  destruct (shl_align_le mx ex (Z.min ey ex) ltac:(lia)) as [-> _].
  destruct (shl_align_le my ey (Z.min ey ex) ltac:(lia)) as [-> _].
  assert (Hvx : valid_binary (S754_finite false mx ex) = true) by exact Hx.
  assert (Hvy : valid_binary (S754_finite false my ey) = true) by exact Hy.
  simpl in Hlt. unfold cond_Zopp.
  destruct sx, sy; try discriminate Hlt.
  - (* both negative: the larger magnitude is the smaller value *)
    destruct (ex ?= ey) eqn:Hcmp; try discriminate Hlt.
    + apply Z.compare_eq in Hcmp. subst ey.
      rewrite Z.min_id, Z.sub_diag, !Z.mul_1_r.
      injection Hlt as Hlt. apply (f_equal CompOpp) in Hlt.
      rewrite CompOpp_involutive in Hlt. cbn [CompOpp] in Hlt.
      change (Pos.compare_cont Eq mx my) with (mx ?= my)%positive in Hlt.
      apply Pos.compare_gt_iff in Hlt. lia.
    + apply Z.compare_gt_iff in Hcmp.
      pose proof (magnitude_lt_exponent my mx ey ex Hvy Hvx Hcmp) as H.
      rewrite Z.min_l by lia. rewrite Z.sub_diag, Z.mul_1_r. lia.
  - (* x negative, y positive *)
    assert (0 < 2 ^ (ey - Z.min ey ex)) by (apply Z.pow_pos_nonneg; lia).
    assert (0 < 2 ^ (ex - Z.min ey ex)) by (apply Z.pow_pos_nonneg; lia).
    nia.
  - (* both positive *)
    destruct (ex ?= ey) eqn:Hcmp; try discriminate Hlt.
    + apply Z.compare_eq in Hcmp. subst ey.
      rewrite Z.min_id, Z.sub_diag, !Z.mul_1_r.
      injection Hlt as Hlt.
      change (Pos.compare_cont Eq mx my) with (mx ?= my)%positive in Hlt.
      assert (Hlt' : (mx < my)%positive) by exact Hlt. lia.
    + assert (Hlt' : ex < ey) by exact Hcmp.
      pose proof (magnitude_lt_exponent mx my ex ey Hvx Hvy Hlt') as H.
      rewrite Z.min_r by lia. rewrite Z.sub_diag, Z.mul_1_r. lia.
Qed.

Local Close Scope Z_scope.

(** [x < y] implies [y - x > 0]. *)
Lemma ltb_sub_positive (x y : float) :
  (x <? y)%float = true -> (0 <? y - x)%float = true.
Proof.
  rewrite !FloatAxioms.ltb_spec, FloatAxioms.sub_spec.
  change (Prim2SF 0) with (S754_zero false). rewrite SFltb_zero.
  unfold SFltb. intros H.
  destruct (SFcompare (Prim2SF x) (Prim2SF y)) as [[| |]|] eqn:Hcmp; try discriminate H.
  apply SFsub_positive; [apply Prim2SF_valid | apply Prim2SF_valid | exact Hcmp].
Qed.

Lemma SFcompare_defined (x y : spec_float) :
  SFeqb x x = true -> SFeqb y y = true -> exists c, SFcompare x y = Some c.
Proof.
  destruct x as [sx|sx| |sx mx ex], y as [sy|sy| |sy my ey];
    try discriminate; intros _ _; simpl; eexists; reflexivity.
Qed.

(** Among numbers that are not NaN, a comparator [y - x] that is not
    positive means [y <= x]. *)
Lemma sub_not_positive_leb (x y : float) :
  is_nan x = false -> is_nan y = false ->
  (0 <? y - x)%float = false -> (y <=? x)%float = true.
Proof.
  intros Hx Hy Hsub.
  destruct (x <? y)%float eqn:Hlt; [apply ltb_sub_positive in Hlt; congruence|].
  unfold is_nan in Hx, Hy. apply negb_false_iff in Hx, Hy.
  rewrite FloatAxioms.eqb_spec in Hx, Hy.
  rewrite FloatAxioms.ltb_spec in Hlt. rewrite FloatAxioms.leb_spec.
  unfold SFltb, SFleb in *.
  rewrite (SFcompare_antisym (Prim2SF x) (Prim2SF y)).
  destruct (SFcompare_defined _ _ Hx Hy) as [c Hc]. rewrite Hc in Hlt |- *.
  destruct c; [reflexivity | discriminate Hlt | reflexivity].
Qed.

End FloatOrder.

(** ** The bar colour classifier *)

Import Constants.

Lemma colours_distinct :
  PROFILER_COLORS_RED <> PROFILER_COLORS_ORANGE /\
  PROFILER_COLORS_RED <> PROFILER_COLORS_GREEN /\
  PROFILER_COLORS_ORANGE <> PROFILER_COLORS_GREEN.
Proof. repeat split; discriminate. Qed.

(** Over exact rationals the percent form of the specification and the
    ratio form of the source are the same test; they part only where
    binary64 division and multiplication round. *)
Lemma percent_form_exact (value max cutoff : Q) :
  (cutoff / 100 < value / max <-> cutoff < value / max * 100)%Q.
Proof.
  generalize (value / max)%Q. intros ratio.
  assert (E : (cutoff / 100 * 100 == cutoff)%Q) by field.
  split; intros H.
  - apply (Qmult_lt_r _ _ 100) in H; [|reflexivity]. now rewrite E in H.
  - apply (Qmult_lt_r _ _ 100); [reflexivity|]. now rewrite E.
Qed.

(** C2 as stated fails in binary64 arithmetic: with value 7, max 100 and a
    red cutoff of 7, [(7 / 100) * 100] is [7.000000000000001 > 7], yet the
    classifier compares [7 / 100] with [7 / 100] and answers ORANGE. *)
Lemma getBarColor_percent_form_differs :
  (100 =? 0)%float = false /\
  (7 <? 7 / 100 * 100)%float = true /\
  getBarColor 7 100 (Some 7%float) (Some 5%float) = PROFILER_COLORS_ORANGE /\
  getBarColor 7 100 (Some 7%float) (Some 5%float) <> PROFILER_COLORS_RED.
Proof. repeat split; try reflexivity. discriminate. Qed.

(** C2 (amended): the classifier divides each cutoff by 100 and compares it
    with the ratio [value / max].  It returns RED exactly when
    [value / max > redCutoffPercent / 100], otherwise ORANGE exactly when
    [value / max > orangeCutoffPercent / 100], otherwise GREEN.  A ratio
    equal to [redCutoffPercent / 100] is never RED and a ratio equal to
    [orangeCutoffPercent / 100] is never ORANGE, and
    classify(90,100,80,50) = RED, classify(80,100,80,50) = ORANGE,
    classify(50,100,80,50) = GREEN. *)
Theorem getBarColor_thresholds (value max : float) (red orange : option float) :
  let ratio := (value / max)%float in
  let redCut := (with_default DEFAULT_THRESHOLDS_RED red / 100)%float in
  let orangeCut := (with_default DEFAULT_THRESHOLDS_ORANGE orange / 100)%float in
  (getBarColor value max red orange = PROFILER_COLORS_RED
     <-> (redCut <? ratio)%float = true) /\
  (getBarColor value max red orange = PROFILER_COLORS_ORANGE
     <-> (redCut <? ratio)%float = false /\ (orangeCut <? ratio)%float = true) /\
  (getBarColor value max red orange = PROFILER_COLORS_GREEN
     <-> (redCut <? ratio)%float = false /\ (orangeCut <? ratio)%float = false) /\
  ((ratio =? redCut)%float = true ->
     getBarColor value max red orange <> PROFILER_COLORS_RED) /\
  ((ratio =? orangeCut)%float = true ->
     getBarColor value max red orange <> PROFILER_COLORS_ORANGE) /\
  getBarColor 90 100 (Some 80%float) (Some 50%float) = PROFILER_COLORS_RED /\
  getBarColor 80 100 (Some 80%float) (Some 50%float) = PROFILER_COLORS_ORANGE /\
  getBarColor 50 100 (Some 80%float) (Some 50%float) = PROFILER_COLORS_GREEN.
Proof.
  intros ratio redCut orangeCut.
  assert (Hdef : getBarColor value max red orange =
                 if (redCut <? ratio)%float then PROFILER_COLORS_RED
                 else if (orangeCut <? ratio)%float then PROFILER_COLORS_ORANGE
                 else PROFILER_COLORS_GREEN) by reflexivity.
  destruct colours_distinct as (Hro & Hrg & Hog).
  repeat split; try reflexivity.
  - intros H. rewrite Hdef in H.
    destruct (redCut <? ratio)%float; [reflexivity|].
    destruct (orangeCut <? ratio)%float; congruence.
  - intros H. rewrite Hdef, H. reflexivity.
  - rewrite Hdef in H. destruct (redCut <? ratio)%float; congruence.
  - rewrite Hdef in H. destruct (redCut <? ratio)%float; [congruence|].
    destruct (orangeCut <? ratio)%float; congruence.
  - intros [H1 H2]. rewrite Hdef, H1, H2. reflexivity.
  - rewrite Hdef in H. destruct (redCut <? ratio)%float; congruence.
  - rewrite Hdef in H. destruct (redCut <? ratio)%float; [congruence|].
    destruct (orangeCut <? ratio)%float; congruence.
  - intros [H1 H2]. rewrite Hdef, H1, H2. reflexivity.
  - intros Heq. apply FloatFacts.eqb_not_gtb in Heq. rewrite Hdef, Heq.
    destruct (orangeCut <? ratio)%float; congruence.
  - intros Heq. apply FloatFacts.eqb_not_gtb in Heq. rewrite Hdef, Heq.
    destruct (redCut <? ratio)%float; congruence.
Qed.

Lemma getBarColor_thresholds_witness :
  getBarColor 80 100 (Some 80%float) (Some 50%float) <> PROFILER_COLORS_RED /\
  getBarColor 50 100 (Some 80%float) (Some 50%float) <> PROFILER_COLORS_ORANGE.
Proof.
  split.
  - apply (proj1 (proj2 (proj2 (proj2
             (getBarColor_thresholds 80 100 (Some 80%float) (Some 50%float)))))).
    reflexivity.
  - apply (proj1 (proj2 (proj2 (proj2 (proj2
             (getBarColor_thresholds 50 100 (Some 80%float) (Some 50%float))))))).
    reflexivity.
Defined.

(** ** The tree normaliser *)

Import QueryTree.

(** Induction over a profile tree: the property may be assumed of every
    child. *)
Lemma QueryProfile_tree_ind (P : QueryProfile -> Prop) :
  (forall q, (forall cs, qp_children q = Some cs -> Forall P cs) -> P q) ->
  forall q, P q.
Proof.
  intros step. fix IH 1. intros [ty d t b ch]. apply step. simpl.
  destruct ch as [cs|]; intros cs' E; [|discriminate E].
  injection E as <-.
  induction cs as [|c rest IHrest]; constructor; [apply IH | exact IHrest].
Qed.

Lemma CollectorProfile_tree_ind (P : CollectorProfile -> Prop) :
  (forall c, (forall cs, cp_children c = Some cs -> Forall P cs) -> P c) ->
  forall c, P c.
Proof.
  intros step. fix IH 1. intros [nm r t b ch]. apply step. simpl.
  destruct ch as [cs|]; intros cs' E; [|discriminate E].
  injection E as <-.
  induction cs as [|c rest IHrest]; constructor; [apply IH | exact IHrest].
Qed.

Lemma in_map_from {A B : Type} (f : A -> nat -> B) (l : list A) (k : nat) (y : B) :
  In y (map_from f k l) -> exists x j, In x l /\ y = f x j.
Proof.
  revert k. induction l as [|a rest IH]; simpl; intros k H; [contradiction|].
  destruct H as [<- | H].
  - exists a, k. auto.
  - destruct (IH _ H) as (x & j & Hx & ->). exists x, j. auto.
Qed.

Lemma nth_error_map_from {A B : Type} (f : A -> nat -> B) (l : list A) (k j : nat) :
  nth_error (map_from f k l) j = option_map (fun x => f x (k + j)) (nth_error l j).
Proof.
  revert k j. induction l as [|a rest IH]; intros k [|j]; simpl; try reflexivity.
  - now rewrite Nat.add_0_r.
  - rewrite IH. now rewrite Nat.add_succ_r.
Qed.

(** Every node below a transformed query is itself a transformed query. *)
Lemma transformQuery_subtree (total : float) (q : QueryProfile) :
  forall (i : nat) (p : string) (n : ProcessedQuery),
    In n (subtree (transformQuery total q i p)) ->
    exists q' i' p', n = transformQuery total q' i' p'.
Proof.
  induction q as [q IH] using QueryProfile_tree_ind. intros i p n Hn.
  destruct q as [ty d t b ch]. simpl in Hn. destruct Hn as [<- | Hn].
  - exists (mkQueryProfile ty d t b ch), i, p. reflexivity.
  - destruct ch as [cs|]; [|contradiction].
    apply in_flat_map in Hn. destruct Hn as (c' & Hc' & Hn).
    apply in_map_from in Hc'. destruct Hc' as (x & j & Hx & ->).
    specialize (IH cs eq_refl). rewrite List.Forall_forall in IH.
    exact (IH x Hx _ _ _ Hn).
Qed.

Lemma transformCollector_subtree (total : float) (c : CollectorProfile) :
  forall (i : nat) (p : string) (n : ProcessedQuery),
    In n (subtree (transformCollector total c i p)) ->
    exists c' i' p', n = transformCollector total c' i' p'.
Proof.
  induction c as [c IH] using CollectorProfile_tree_ind. intros i p n Hn.
  destruct c as [nm r t b ch]. simpl in Hn. destruct Hn as [<- | Hn].
  - exists (mkCollectorProfile nm r t b ch), i, p. reflexivity.
  - destruct ch as [cs|]; [|contradiction].
    apply in_flat_map in Hn. destruct Hn as (c' & Hc' & Hn).
    apply in_map_from in Hc'. destruct Hc' as (x & j & Hx & ->).
    specialize (IH cs eq_refl). rewrite List.Forall_forall in IH.
    exact (IH x Hx _ _ _ Hn).
Qed.

(** The result of one pass, by tab and by emptiness of the active array. *)
Lemma processedQueries_unfold (props : QueryTreeProps) (activeTab : Tab) :
  processedQueries props activeTab =
  match activeData props activeTab with
  | [] => []
  | data =>
      let total := totalTime props activeTab in
      match activeTab with
      | search =>
          query_nodes total data ++ rewrite_nodes total (rewriteTime props)
            ++ collector_nodes total (collectors props)
      | aggregation => query_nodes total data
      end
  end.
Proof.
  unfold processedQueries, query_nodes, rewrite_nodes, collector_nodes.
  destruct (activeData props activeTab) as [|q data]; [reflexivity|].
  cbn [length Nat.eqb]. cbv zeta. destruct activeTab; [|reflexivity].
  destruct (rewriteTime props) as [r|], (collectors props) as [[|c cs]|];
    try destruct (0 <? r)%float; cbn [length Nat.ltb Nat.leb array_map map_from];
    rewrite ?app_nil_r, <- ?app_assoc; reflexivity.
Qed.

(** Every node of one pass, at any depth, is a transformed query, the
    Rewrite node or a transformed collector, built with the pass's total. *)
Lemma processedQueries_nodes (props : QueryTreeProps) (activeTab : Tab) (n : ProcessedQuery) :
  In n (all_nodes (processedQueries props activeTab)) ->
  let total := totalTime props activeTab in
  (exists q i p, n = transformQuery total q i p) \/
  (exists r, n = rewrite_node total r) \/
  (exists c i p, n = transformCollector total c i p).
Proof.
  intros Hn total. rewrite processedQueries_unfold in Hn. fold total in Hn.
  assert (Hq : forall data, In n (all_nodes (query_nodes total data)) ->
                            exists q i p, n = transformQuery total q i p).
  { intros data H. apply in_flat_map in H. destruct H as (root & Hroot & H).
    apply in_map_from in Hroot. destruct Hroot as (q & i & _ & ->).
    exact (transformQuery_subtree _ _ _ _ _ H). }
  destruct (activeData props activeTab) as [|q0 data]; [contradiction|].
  cbv zeta in Hn. destruct activeTab; [|left; exact (Hq _ Hn)].
  unfold all_nodes in Hn. rewrite !flat_map_app in Hn.
  apply in_app_or in Hn. destruct Hn as [Hn | Hn]; [left; exact (Hq _ Hn)|].
  apply in_app_or in Hn. destruct Hn as [Hn | Hn]; right.
  - left. unfold rewrite_nodes in Hn. destruct (rewriteTime props) as [r|]; [|contradiction].
    destruct (0 <? r)%float; [|contradiction]. simpl in Hn.
    destruct Hn as [<- | []]. exists r. reflexivity.
  - right. unfold collector_nodes in Hn. destruct (collectors props) as [cs|]; [|contradiction].
    apply in_flat_map in Hn. destruct Hn as (root & Hroot & H).
    apply in_map_from in Hroot. destruct Hroot as (c & i & _ & ->).
    exact (transformCollector_subtree _ _ _ _ _ H).
Qed.

(** Each node carries its own time against the pass's total. *)
Lemma processedQueries_percentage_of (props : QueryTreeProps) (activeTab : Tab)
    (n : ProcessedQuery) :
  In n (all_nodes (processedQueries props activeTab)) ->
  percentage n = percentage_of (totalTime props activeTab) (time_in_nanos n).
Proof.
  intros Hn. destruct (processedQueries_nodes _ _ _ Hn)
    as [(q & i & p & ->) | [(r & ->) | (c & i & p & ->)]].
  - destruct q; reflexivity.
  - reflexivity.
  - destruct c; reflexivity.
Qed.



Ltac in_list := simpl; repeat (first [left; reflexivity | right]).


(** C4: when the denominator is 0, every node at every depth has percentage
    exactly 0: the division is not performed, so the percentage is neither
    NaN nor infinite. *)
Theorem processedQueries_zero_denominator
    (props : QueryTreeProps) (activeTab : Tab) (node : ProcessedQuery) :
  (totalTime props activeTab =? 0)%float = true ->
  In node (all_nodes (processedQueries props activeTab)) ->
  percentage node = 0%float.
Proof.
  intros Hzero Hn. rewrite (processedQueries_percentage_of _ _ _ Hn).
  unfold percentage_of. now rewrite (FloatFacts.eqb_not_gtb _ _ Hzero).
Qed.

Lemma processedQueries_zero_denominator_witness :
  time_in_nanos Samples.zero_child = 5%float /\
  percentage Samples.zero_child = 0%float.
Proof.
  split; [reflexivity|].
  apply (processedQueries_zero_denominator Samples.zero_props search).
  - reflexivity.
  - in_list.
Defined.

(** C5 as stated fails: with no root query the search tab produces no node
    at all, although the rewrite time is positive and a collector exists. *)
Lemma processedQueries_no_queries_no_siblings :
  rewriteTime Samples.no_query_props = Some 5%float /\
  (0 <? 5)%float = true /\
  collectors Samples.no_query_props = Some [Samples.coll] /\
  processedQueries Samples.no_query_props search = [].
Proof. repeat split. Qed.

Lemma length_map_from {A B : Type} (f : A -> nat -> B) (l : list A) (k : nat) :
  length (map_from f k l) = length l.
Proof. revert k. induction l as [|a rest IH]; intros k; simpl; [reflexivity | now rewrite IH]. Qed.

(** C5 (amended): when the search tab has at least one root query, the tree
    is the transformed root queries, followed by one Rewrite node exactly
    when the rewrite time is positive, followed by one node per top-level
    collector; the aggregation tab yields the transformed aggregations
    only; and a tab whose root array is empty yields the empty tree. *)
Theorem processedQueries_shape (props : QueryTreeProps) :
  (activeData props search <> [] ->
   processedQueries props search =
     query_nodes (totalTime props search) (activeData props search)
     ++ rewrite_nodes (totalTime props search) (rewriteTime props)
     ++ collector_nodes (totalTime props search) (collectors props)) /\
  processedQueries props aggregation =
    query_nodes (totalTime props aggregation) (activeData props aggregation) /\
  (forall activeTab, activeData props activeTab = [] ->
                     processedQueries props activeTab = []) /\
  (forall total,
     (exists r, rewriteTime props = Some r /\ (0 <? r)%float = true /\
                rewrite_nodes total (rewriteTime props) = [rewrite_node total r]) \/
     ((forall r, rewriteTime props = Some r -> (0 <? r)%float = false) /\
      rewrite_nodes total (rewriteTime props) = [])) /\
  (forall total cs,
     collectors props = Some cs ->
     length (collector_nodes total (collectors props)) = length cs).
Proof.
  repeat split.
  - intros Hne. rewrite processedQueries_unfold.
    destruct (activeData props search); [contradiction | reflexivity].
  - rewrite processedQueries_unfold.
    destruct (activeData props aggregation); reflexivity.
  - intros activeTab Hempty. rewrite processedQueries_unfold, Hempty. reflexivity.
  - intros total. unfold rewrite_nodes. destruct (rewriteTime props) as [r|].
    + destruct (0 <? r)%float eqn:Hr.
      * left. exists r. auto.
      * right. split; [|reflexivity]. now intros r' [= <-].
    + right. split; [discriminate | reflexivity].
  - intros total cs ->. apply length_map_from.
Qed.

Lemma processedQueries_shape_witness :
  map id (processedQueries Samples.search_props search)
    = ["query-0"; "query-1"; "rewrite"; "collector-0"] /\
  map id (processedQueries Samples.agg_props aggregation) = ["query-0"; "query-1"] /\
  processedQueries Samples.no_query_props search = [].
Proof.
  split; [|split].
  - rewrite (proj1 (processedQueries_shape Samples.search_props)); [reflexivity|].
    discriminate.
  - rewrite (proj1 (proj2 (processedQueries_shape Samples.agg_props))). reflexivity.
  - apply (proj1 (proj2 (proj2 (processedQueries_shape Samples.no_query_props)))).
    reflexivity.
Defined.

(** *** Node identifiers *)

Lemma string_of_index_truthy (i : nat) : string_truthy (string_of_index i) = true.
Proof. unfold string_of_index. destruct (Nat.to_uint i); reflexivity. Qed.

Lemma append_truthy_l (s t : string) :
  string_truthy s = true -> string_truthy (s +:+ t) = true.
Proof. destruct s; [discriminate | reflexivity]. Qed.

Lemma node_path_truthy (p : string) (i : nat) (root : string) :
  string_truthy root = true -> string_truthy (node_path p i root) = true.
Proof.
  intros Hroot. unfold node_path. destruct (string_truthy p) eqn:E; [|exact Hroot].
  now apply append_truthy_l.
Qed.

Lemma node_path_child (p : string) (j : nat) (root : string) :
  string_truthy p = true -> node_path p j root = p +:+ "-" +:+ string_of_index j.
Proof. intros H. unfold node_path. now rewrite H. Qed.

Lemma prefix_append (a s t : string) :
  String.prefix a s = true -> String.prefix a (s +:+ t) = true.
Proof.
  revert s. induction a as [|c a IH]; intros s H; [destruct (s +:+ t); reflexivity|].
  destruct s as [|c' s]; simpl in *; [discriminate H|].
  destruct (ascii_dec c c'); [now apply IH | discriminate H].
Qed.

(** A child's id is its parent's id, a dash and the child's index. *)
Lemma transformQuery_child_id (total : float) (q : QueryProfile) (i : nat) (p : string)
    (cs : list ProcessedQuery) (j : nat) (child : ProcessedQuery) :
  children (transformQuery total q i p) = Some cs ->
  nth_error cs j = Some child ->
  id child = id (transformQuery total q i p) +:+ "-" +:+ string_of_index j.
Proof.
  destruct q as [ty d t b [qs|]]; simpl; intros E Hj; [|discriminate E].
  injection E as <-. unfold array_map in Hj. rewrite nth_error_map_from in Hj.
  destruct (nth_error qs j) as [x|]; [|discriminate Hj].
  injection Hj as <-. destruct x as [ty' d' t' b' ch']. simpl.
  rewrite node_path_child by (apply node_path_truthy, string_of_index_truthy).
  reflexivity.
Qed.

Lemma transformCollector_child_id (total : float) (c : CollectorProfile) (i : nat)
    (p : string) (cs : list ProcessedQuery) (j : nat) (child : ProcessedQuery) :
  children (transformCollector total c i p) = Some cs ->
  nth_error cs j = Some child ->
  id child = id (transformCollector total c i p) +:+ "-" +:+ string_of_index j.
Proof.
  destruct c as [nm r t b [qs|]]; simpl; intros E Hj; [|discriminate E].
  injection E as <-. unfold array_map in Hj. rewrite nth_error_map_from in Hj.
  destruct (nth_error qs j) as [x|]; [|discriminate Hj].
  injection Hj as <-. destruct x as [nm' r' t' b' ch']. simpl.
  rewrite node_path_child by (apply node_path_truthy; reflexivity).
  reflexivity.
Qed.

Lemma transformQuery_id_prefix (total : float) (q : QueryProfile) (i : nat) (p : string) :
  String.prefix "query-" (id (transformQuery total q i p)) = true.
Proof. destruct q. simpl. apply (prefix_append "query-" "query-"). reflexivity. Qed.

(** Below a collector whose path is empty or starts with [collector-], all
    ids start with [collector-]. *)
Lemma transformCollector_id_prefix (total : float) (c : CollectorProfile) :
  forall (i : nat) (p : string) (n : ProcessedQuery),
    p = EmptyString \/ String.prefix "collector-" p = true ->
    In n (subtree (transformCollector total c i p)) ->
    String.prefix "collector-" (id n) = true.
Proof.
  induction c as [c IH] using CollectorProfile_tree_ind. intros i p n Hp Hn.
  assert (Hroot : String.prefix "collector-"
                    (node_path p i ("collector-" +:+ string_of_index i)) = true).
  { unfold node_path. destruct Hp as [-> | Hp].
    - apply (prefix_append "collector-" "collector-"). reflexivity.
    - destruct (string_truthy p); [now apply prefix_append|].
      apply (prefix_append "collector-" "collector-"). reflexivity. }
  destruct c as [nm r t b ch]. simpl in Hn. destruct Hn as [<- | Hn]; [exact Hroot|].
  destruct ch as [cs|]; [|contradiction].
  apply in_flat_map in Hn. destruct Hn as (c' & Hc' & Hn).
  apply in_map_from in Hc'. destruct Hc' as (x & j & Hx & ->).
  specialize (IH cs eq_refl). rewrite List.Forall_forall in IH.
  exact (IH x Hx j _ n (or_intror Hroot) Hn).
Qed.

(** C6 as stated fails: the first root query node has id [query-0], not the
    plain index [0]. *)
Lemma root_query_id_is_prefixed :
  option_map id (nth_error (processedQueries Samples.search_props search) 0)
    = Some "query-0" /\
  option_map id (nth_error (processedQueries Samples.search_props search) 0)
    <> Some (string_of_index 0).
Proof. split; [reflexivity | discriminate]. Qed.

(** C6 (amended): a root query node at index [i] has id [query-i] (the plain
    index behind the prefix [query-]); the Rewrite node has id [rewrite]; a
    top-level collector at index [i] has id [collector-i]; the id of every
    child, of a query node or of a collector node, is the id of its parent,
    a dash and the child's index among its siblings; and no id below a root
    query equals the id of the Rewrite node or an id below a top-level
    collector. *)
Theorem processed_node_ids (total : float) :
  (forall q i, id (transformQuery total q i "") = "query-" +:+ string_of_index i) /\
  (forall r, id (rewrite_node total r) = "rewrite") /\
  (forall c i, id (transformCollector total c i "") = "collector-" +:+ string_of_index i) /\
  (forall q i n cs j child,
     In n (subtree (transformQuery total q i "")) ->
     children n = Some cs -> nth_error cs j = Some child ->
     id child = id n +:+ "-" +:+ string_of_index j) /\
  (forall c i n cs j child,
     In n (subtree (transformCollector total c i "")) ->
     children n = Some cs -> nth_error cs j = Some child ->
     id child = id n +:+ "-" +:+ string_of_index j) /\
  (forall q i n r c k m,
     In n (subtree (transformQuery total q i "")) ->
     m = rewrite_node total r \/ In m (subtree (transformCollector total c k "")) ->
     id n <> id m).
Proof.
  repeat split.
  - intros q i. destruct q; reflexivity.
  - intros c i. destruct c; reflexivity.
  - intros q i n cs j child Hn Hcs Hj.
    destruct (transformQuery_subtree _ _ _ _ _ Hn) as (q' & i' & p' & ->).
    exact (transformQuery_child_id _ _ _ _ _ _ _ Hcs Hj).
  - intros c i n cs j child Hn Hcs Hj.
    destruct (transformCollector_subtree _ _ _ _ _ Hn) as (c' & i' & p' & ->).
    exact (transformCollector_child_id _ _ _ _ _ _ _ Hcs Hj).
  - intros q i n r c k m Hn Hm Heq.
    destruct (transformQuery_subtree _ _ _ _ _ Hn) as (q' & i' & p' & ->).
    pose proof (transformQuery_id_prefix total q' i' p') as Hq. rewrite Heq in Hq.
    destruct Hm as [-> | Hm]; [apply prefix_correct in Hq; discriminate Hq|].
    pose proof (transformCollector_id_prefix total c k "" m (or_introl eq_refl) Hm) as Hc.
    apply prefix_correct in Hq, Hc.
    destruct (id m) as [|ch rest]; simpl in Hq, Hc; congruence.
Qed.

Lemma processed_node_ids_witness :
  id Samples.nested_child = "query-1-1" /\
  id Samples.nested_child <> "rewrite".
Proof.
  destruct (processed_node_ids 5000000) as (_ & _ & _ & Hchild & _ & Hdistinct).
  split.
  - apply (Hchild Samples.parent 1 (transformQuery 5000000 Samples.parent 1 "")
             [transformQuery 5000000 (Samples.leaf 1000000) 0 "1"; Samples.nested_child] 1).
    + left. reflexivity.
    + reflexivity.
    + reflexivity.
  - apply (Hdistinct Samples.parent 1 Samples.nested_child 500000%float Samples.coll 0
             (rewrite_node 5000000 500000)).
    + in_list.
    + left. reflexivity.
Defined.

(** ** The breakdown rows *)

Import QueryDetailPanel.

(** The characters of a label, position by position: an underscore becomes
    a space, and a word character is put in upper case exactly when it is
    the first character or follows a character that is not a word
    character. *)
Lemma replace_underscores_get (s : string) (i : nat) :
  String.get i (replace_underscores s)
  = option_map (fun c => if Ascii.eqb c "_" then " "%char else c) (String.get i s).
Proof.
  revert i. induction s as [|c s IH]; intros [|i]; simpl; try reflexivity. apply IH.
Qed.

Lemma capitalize_from_get (s : string) (prev : bool) (i : nat) :
  String.get i (capitalize_from prev s)
  = match String.get i s with
    | None => None
    | Some c =>
        let after_word :=
          match i with
          | O => prev
          | S j => match String.get j s with
                   | Some p => is_word_char p
                   | None => false
                   end
          end in
        Some (if is_word_char c && negb after_word then toUpperCase c else c)
    end.
Proof.
  revert prev i. induction s as [|c s IH]; intros prev [|i]; simpl; try reflexivity.
  rewrite IH. destruct (String.get i s) as [c'|]; [|reflexivity].
  destruct i as [|j]; reflexivity.
Qed.

Lemma humanize_get (key : string) (i : nat) :
  String.get i (humanize key)
  = match String.get i (replace_underscores key) with
    | None => None
    | Some c =>
        let first_of_word :=
          match i with
          | O => true
          | S j => match String.get j (replace_underscores key) with
                   | Some p => negb (is_word_char p)
                   | None => true
                   end
          end in
        Some (if is_word_char c && first_of_word then toUpperCase c else c)
    end.
Proof.
  unfold humanize. rewrite capitalize_from_get.
  destruct (String.get i (replace_underscores key)) as [c|]; [|reflexivity].
  destruct i as [|j]; [reflexivity|].
  destruct (String.get j (replace_underscores key)); reflexivity.
Qed.

Lemma substring_all (s : string) : substring 0 (String.length s) s = s.
Proof. induction s as [|c s IH]; simpl; [reflexivity | now rewrite IH]. Qed.

Lemma substring_append_r (k s : string) :
  substring (String.length k) (String.length s) (k +:+ s) = s.
Proof. induction k as [|c k IH]; simpl; [apply substring_all | exact IH]. Qed.

Lemma length_append (k s : string) :
  String.length (k +:+ s) = String.length k + String.length s.
Proof. induction k as [|c k IH]; simpl; [reflexivity | now rewrite IH]. Qed.

Lemma endsWith_append (k s : string) : endsWith (k +:+ s) s = true.
Proof.
  unfold endsWith. rewrite length_append.
  replace (String.length k + String.length s - String.length s)
    with (String.length k) by lia.
  rewrite substring_append_r, String.eqb_refl.
  apply andb_true_iff. split; [apply Nat.leb_le; lia | reflexivity].
Qed.

(** One call of the callback on a key that has not been consumed. *)
Lemma visit_key_fresh (breakdown : Breakdown) (includeZeros : bool)
    (processedKeys : gset string) (entries : list Entry) (key : string) :
  endsWith key "_count" = true \/ key ∉ processedKeys ->
  exists processedKeys' : gset string,
    visit_key breakdown includeZeros (processedKeys, entries) key
    = (processedKeys', entries ++ rows_of_key breakdown includeZeros key) /\
    (forall x, x ∈ processedKeys' ->
               x ∈ processedKeys \/ x = key \/ x = key +:+ "_count").
Proof.
  intros Hkey. unfold visit_key, rows_of_key.
  destruct (endsWith key "_count") eqn:Hend.
  - rewrite orb_true_r, app_nil_r. exists processedKeys. split; [reflexivity | auto].
  - destruct Hkey as [Hkey | Hkey]; [discriminate Hkey|].
    rewrite (bool_decide_eq_false_2 _ Hkey). cbn [orb].
    destruct (breakdown_get key breakdown) as [timeValue|];
      [|rewrite app_nil_r; exists processedKeys; split; [reflexivity | auto]].
    destruct (includeZeros || (0 <? timeValue)%float
              || (0 <? or_zero (breakdown_get (key +:+ "_count") breakdown))%float);
      [|rewrite app_nil_r; exists processedKeys; split; [reflexivity | auto]].
    eexists. split; [reflexivity|]. intros x Hx.
    apply elem_of_union in Hx as [Hx|Hx]; [apply elem_of_union in Hx as [Hx|Hx]|].
    + now left.
    + apply elem_of_singleton in Hx. auto.
    + apply elem_of_singleton in Hx. auto.
Qed.

(** With distinct keys the set of consumed keys never stops a key: it only
    holds earlier keys and names ending in [_count]. *)
Lemma fold_visit_key (breakdown : Breakdown) (includeZeros : bool) :
  forall (keys : list string) (processedKeys : gset string) (entries : list Entry),
    NoDup keys ->
    (forall x, x ∈ processedKeys -> endsWith x "_count" = true \/ ~ In x keys) ->
    (fold_left (visit_key breakdown includeZeros) keys (processedKeys, entries)).2
    = entries ++ flat_map (rows_of_key breakdown includeZeros) keys.
Proof.
  induction keys as [|key keys IH]; intros pk es Hnd Hpk; cbn [fold_left flat_map].
  - now rewrite app_nil_r.
  - apply NoDup_cons_1_1 in Hnd as Hnotin. apply NoDup_cons_1_2 in Hnd as Hnd'.
    destruct (visit_key_fresh breakdown includeZeros pk es key) as (pk' & -> & Hpk').
    { destruct (endsWith key "_count") eqn:Hend; [now left | right].
      intros Hin. destruct (Hpk key Hin) as [H|H]; [congruence|].
      apply H. now left. }
    rewrite IH; [now rewrite <- app_assoc | assumption |].
    intros x Hx. destruct (Hpk' x Hx) as [Hx'|[->| ->]].
    + destruct (Hpk x Hx') as [H|H]; [now left|]. right. intros Hin. apply H. now right.
    + right. intros Hin. apply Hnotin. now apply list_elem_of_In.
    + left. apply endsWith_append.
Qed.

Lemma breakdown_get_In (breakdown : Breakdown) (key : string) (v : float) :
  NoDup (map fst breakdown) -> In (key, v) breakdown -> breakdown_get key breakdown = Some v.
Proof.
  induction breakdown as [|[k w] rest IH]; simpl; intros Hnd Hin; [contradiction|].
  apply NoDup_cons_1_1 in Hnd as Hnotin. apply NoDup_cons_1_2 in Hnd as Hnd'.
  destruct Hin as [E | Hin].
  - injection E as -> ->. now rewrite String.eqb_refl.
  - destruct (String.eqb key k) eqn:E; [|now apply IH].
    apply String.eqb_eq in E. subst k. exfalso. apply Hnotin.
    apply list_elem_of_In. apply (in_map fst _ _ Hin).
Qed.

Lemma breakdown_get_Some_In (breakdown : Breakdown) (key : string) (v : float) :
  breakdown_get key breakdown = Some v -> In (key, v) breakdown.
Proof.
  induction breakdown as [|[k w] rest IH]; simpl; [discriminate|].
  destruct (String.eqb key k) eqn:E.
  - apply String.eqb_eq in E. subst k. intros [= ->]. now left.
  - intros H. right. now apply IH.
Qed.

Lemma or_zero_plain (v : float) : plain_number v -> or_zero (Some v) = v.
Proof.
  intros [-> | H]; simpl; [reflexivity | now rewrite H].
Qed.

Lemma flat_map_keys {B : Type} (f : string -> list B) (g : string * float -> list B)
    (l : Breakdown) :
  (forall kv, In kv l -> f kv.1 = g kv) -> flat_map f (map fst l) = flat_map g l.
Proof.
  induction l as [|kv rest IH]; simpl; intros H; [reflexivity|].
  rewrite (H kv) by now left. rewrite IH; [reflexivity|]. intros kv' Hin. apply H. now right.
Qed.

(** On distinct keys and plain numbers the callback computes the rows of the
    specification, key by key. *)
Lemma rows_of_key_spec (breakdown : Breakdown) (includeZeros : bool) :
  NoDup (map fst breakdown) ->
  Forall (fun kv => plain_number kv.2) breakdown ->
  flat_map (rows_of_key breakdown includeZeros) (map fst breakdown)
  = spec_rows breakdown includeZeros.
Proof.
  intros Hnd Hplain. unfold spec_rows. apply flat_map_keys.
  intros [key timeValue] Hin. unfold rows_of_key. simpl.
  destruct (endsWith key "_count"); [reflexivity|].
  rewrite (breakdown_get_In _ _ _ Hnd Hin).
  destruct (breakdown_get (key +:+ "_count") breakdown) as [c|] eqn:Hc; [|reflexivity].
  rewrite or_zero_plain; [reflexivity|].
  rewrite List.Forall_forall in Hplain.
  exact (Hplain _ (breakdown_get_Some_In _ _ _ Hc)).
Qed.

Section SortFacts.
Context {A : Type} (compareFn : A -> A -> float).

Lemma sort_insert_perm (x : A) (l : list A) :
  Permutation (sort_insert compareFn x l) (x :: l).
Proof.
  induction l as [|y rest IH]; simpl; [reflexivity|].
  destruct (0 <? compareFn x y)%float; [|reflexivity].
  rewrite IH. apply perm_swap.
Qed.

Lemma array_sort_perm (l : list A) : Permutation (array_sort compareFn l) l.
Proof.
  induction l as [|x rest IH]; simpl; [reflexivity|].
  rewrite sort_insert_perm. now constructor.
Qed.

(** When the comparator never orders two elements both ways, the sort
    leaves no element before one the comparator wants first. *)
Hypothesis compare_antisym :
  forall a b, (0 <? compareFn a b)%float = true -> (0 <? compareFn b a)%float = false.

Let ordered (a b : A) : Prop := (0 <? compareFn a b)%float = false.

Lemma sort_insert_sorted (x : A) (l : list A) :
  Sorted ordered l -> Sorted ordered (sort_insert compareFn x l).
Proof using compare_antisym.
  induction l as [|y rest IH]; simpl; intros Hs.
  - repeat constructor.
  - destruct (0 <? compareFn x y)%float eqn:E.
    + apply Sorted_inv in Hs as [Hrest Hhd]. constructor; [now apply IH|].
      destruct rest as [|z rest']; simpl.
      * constructor. now apply compare_antisym.
      * destruct (0 <? compareFn x z)%float.
        -- apply HdRel_inv in Hhd. now constructor.
        -- constructor. now apply compare_antisym.
    + constructor; [assumption|]. now constructor.
Qed.

Lemma array_sort_sorted (l : list A) : Sorted ordered (array_sort compareFn l).
Proof using compare_antisym.
  induction l as [|x rest IH]; simpl; [constructor | now apply sort_insert_sorted].
Qed.
End SortFacts.

Lemma by_time_desc_antisym (a b : Entry) :
  (0 <? by_time_desc a b)%float = true -> (0 <? by_time_desc b a)%float = false.
Proof. apply FloatFacts.sub_positive_antisym. Qed.

Lemma plain_number_not_nan (x : float) : plain_number x -> is_nan x = false.
Proof.
  intros [-> | H]; [reflexivity|]. unfold number_truthy in H.
  apply negb_true_iff, orb_false_iff in H. tauto.
Qed.

(** Every specified row carries the time of a key of the breakdown. *)
Lemma spec_rows_time (breakdown : Breakdown) (includeZeros : bool) (row : Entry) :
  In row (spec_rows breakdown includeZeros) ->
  exists key, In (key, timeNs row) breakdown.
Proof.
  unfold spec_rows. intros H. apply in_flat_map in H. destruct H as ([key t] & Hin & H).
  destruct (endsWith key "_count"); [contradiction|].
  destruct (includeZeros || _ || _); [|contradiction].
  destruct H as [<- | []]. exists key. exact Hin.
Qed.

Lemma Sorted_weaken {A : Type} (R R' : A -> A -> Prop) (l : list A) :
  (forall a b, In a l -> In b l -> R a b -> R' a b) -> Sorted R l -> Sorted R' l.
Proof.
  induction l as [|x rest IH]; intros Himp Hs; [constructor|].
  apply Sorted_inv in Hs as [Hrest Hhd]. constructor.
  - apply IH; [|exact Hrest]. intros a b Ha Hb. apply Himp; now right.
  - destruct Hhd as [|y rest' Hxy]; constructor.
    apply Himp; [now left | right; now left | exact Hxy].
Qed.

(** C8: for a query whose breakdown has numeric values, the rows are those
    of the keys that do not end in [_count] (a consumed key is never met
    again), each paired with its [_count] sibling, 0 when absent, labelled
    with underscores turned into spaces and each word capitalised, kept
    always in raw mode and only with a positive time or count in filtered
    mode, and returned sorted by time, largest first. *)
Theorem getBreakdownEntries_rows
    (q : QueryProfile) (breakdown : Breakdown) (includeZeros : bool) :
  qp_breakdown q = Some breakdown ->
  NoDup (map fst breakdown) ->
  Forall (fun kv => plain_number kv.2) breakdown ->
  getBreakdownEntries (Some q) includeZeros
    = array_sort by_time_desc (spec_rows breakdown includeZeros) /\
  Permutation (getBreakdownEntries (Some q) includeZeros)
              (spec_rows breakdown includeZeros) /\
  Sorted time_descending (getBreakdownEntries (Some q) includeZeros).
Proof.
  intros Hq Hnd Hplain.
  assert (Hrows : getBreakdownEntries (Some q) includeZeros
                  = array_sort by_time_desc (spec_rows breakdown includeZeros)).
  { unfold getBreakdownEntries. rewrite Hq.
    pose proof (fold_visit_key breakdown includeZeros (map fst breakdown) ∅ [] Hnd) as Hfold.
    destruct (fold_left _ _ _) as [pk es]. simpl in Hfold.
    rewrite Hfold, rows_of_key_spec by (assumption || set_solver). reflexivity. }
  rewrite Hrows. split; [reflexivity|]. split; [apply array_sort_perm|].
  assert (Hnan : forall row, In row (array_sort by_time_desc (spec_rows breakdown includeZeros))
                             -> is_nan (timeNs row) = false).
  { intros row Hin. apply (Permutation_in _ (array_sort_perm by_time_desc _)) in Hin.
    destruct (spec_rows_time _ _ _ Hin) as [key Hkey].
    rewrite List.Forall_forall in Hplain. exact (plain_number_not_nan _ (Hplain _ Hkey)). }
  apply (Sorted_weaken not_after time_descending);
    [|apply (array_sort_sorted by_time_desc by_time_desc_antisym)].
  intros a b Ha Hb Hab. apply FloatOrder.sub_not_positive_leb; auto.
Qed.

Lemma getBreakdownEntries_rows_witness :
  getBreakdownEntries (Some Samples.term_query) false
  = [ {| operation := "Score"; timeNs := 900000; count := 0 |};
      {| operation := "Match"; timeNs := 800000; count := 1 |} ] /\
  getBreakdownEntries (Some Samples.term_query) true
  = [ {| operation := "Score"; timeNs := 900000; count := 0 |};
      {| operation := "Match"; timeNs := 800000; count := 1 |};
      {| operation := "Build Scorer"; timeNs := 0; count := 0 |} ].
Proof.
  assert (Hnd : NoDup (map fst Samples.term_breakdown)).
  { apply (bool_decide_unpack _). vm_compute. exact I. }
  assert (Hplain : Forall (fun kv => plain_number kv.2) Samples.term_breakdown).
  { repeat constructor; first [left; reflexivity | right; reflexivity]. }
  split.
  - rewrite (proj1 (getBreakdownEntries_rows Samples.term_query Samples.term_breakdown
                      false eq_refl Hnd Hplain)).
    reflexivity.
  - rewrite (proj1 (getBreakdownEntries_rows Samples.term_query Samples.term_breakdown
                      true eq_refl Hnd Hplain)).
    reflexivity.
Defined.

(** ** Parsing and serialisation *)

Import Parsing.

(** Case analysis on the innermost conditions first. *)
Ltac split_ifs :=
  repeat (match goal with
          | |- context [if ?c then _ else _] =>
              lazymatch c with
              | context [if _ then _ else _] => fail
              | _ => destruct c eqn:?
              end
          end; cbn [set_prop get_prop]).

(** Default filling leaves [profile] alone. *)
Lemma fill_defaults_profile (props : list (string * JSValue)) (n : nat) :
  get_prop (fill_defaults (JObject props) n) "profile" = get_prop (JObject props) "profile".
Proof.
  unfold fill_defaults. cbv zeta. split_ifs.
  all: rewrite ?lookup_prop_assign_ne by reflexivity; reflexivity.
Qed.

Lemma fill_defaults_object (props : list (string * JSValue)) (n : nat) :
  exists props', fill_defaults (JObject props) n = JObject props'.
Proof. unfold fill_defaults. cbv zeta. split_ifs; eexists; reflexivity. Qed.

(** After default filling [took] is a number and [_shards] and [hits] are
    truthy. *)
Lemma fill_defaults_filled (props : list (string * JSValue)) (n : nat) :
  let d := fill_defaults (JObject props) n in
  JSType_eqb (typeof (get_prop d "took")) TNumber = true /\
  truthy (get_prop d "_shards") = true /\
  truthy (get_prop d "hits") = true.
Proof.
  unfold fill_defaults. cbv zeta. split_ifs.
  all: repeat split.
  all: cbn [get_prop] in *.
  all: rewrite ?lookup_prop_assign_eq, ?lookup_prop_assign_ne by reflexivity.
  all: rewrite ?lookup_prop_assign_eq, ?lookup_prop_assign_ne by reflexivity.
  all: try reflexivity.
  all: repeat match goal with
              | H : negb _ = false |- _ => apply negb_false_iff in H
              end.
  all: try assumption.
  all: repeat match goal with
              | H : context [lookup_prop _ (assign_prop _ _ _)] |- _ =>
                  rewrite ?lookup_prop_assign_eq, ?lookup_prop_assign_ne in H by reflexivity
              end.
  all: try assumption.
Qed.

(** Data that already has its defaults is left as it is. *)
Lemma fill_defaults_fixed (d : JSValue) (n : nat) :
  JSType_eqb (typeof (get_prop d "took")) TNumber = true ->
  truthy (get_prop d "_shards") = true ->
  truthy (get_prop d "hits") = true ->
  fill_defaults d n = d.
Proof.
  intros Htook Hshards Hhits. unfold fill_defaults. cbv zeta.
  rewrite Htook. cbn [negb]. rewrite Hshards. cbn [negb]. now rewrite Hhits.
Qed.

(** Default filling is idempotent. *)
Lemma fill_defaults_idempotent (props : list (string * JSValue)) (n m : nat) :
  fill_defaults (fill_defaults (JObject props) n) m = fill_defaults (JObject props) n.
Proof.
  destruct (fill_defaults_filled props n) as (Htook & Hshards & Hhits).
  now apply fill_defaults_fixed.
Qed.

(** A document the validator accepts is a plain object, and validating what
    the call left behind accepts it again and changes nothing. *)
Lemma validateProfileData_valid_again (d : JSValue) :
  isValid (validateProfileData d).1 = true ->
  validateProfileData (validateProfileData d).2
  = (valid, (validateProfileData d).2).
Proof.
  intros Hvalid.
  destruct d as [| |b|x|s|l|props];
    try (unfold validateProfileData in Hvalid; simpl in Hvalid;
         repeat match type of Hvalid with
                | context [if ?c then _ else _] => destruct c
                end; discriminate Hvalid).
  rewrite validateProfileData_object in Hvalid |- *. cbv zeta in Hvalid |- *.
  destruct (negb (truthy (get_prop (JObject props) "profile"))
            || negb (JSType_eqb (typeof (get_prop (JObject props) "profile")) TObject))
    eqn:Hprofile; [discriminate Hvalid|].
  destruct (get_prop (get_prop (JObject props) "profile") "shards")
    as [| | | | |shards|] eqn:Hshards; try discriminate Hvalid.
  destruct (Nat.eqb (length shards) 0) eqn:Hlen; [discriminate Hvalid|].
  destruct (check_shards shards 0) as [failure|] eqn:Hcheck.
  - exfalso. clear - Hcheck Hvalid. simpl in Hvalid. revert Hcheck Hvalid.
    generalize 0. induction shards as [|shard rest IH]; intros i; simpl; [discriminate|].
    repeat match goal with
           | |- context [if ?c then _ else _] => destruct c
           end; try (intros [= <-]; discriminate); apply IH.
  - cbn [snd].
    destruct (fill_defaults_object props (length shards)) as [props' Hprops'].
    pose proof (fill_defaults_profile props (length shards)) as Hsame.
    rewrite Hprops' in Hsame |- *.
    rewrite validateProfileData_object. cbv zeta.
    rewrite Hsame, Hprofile, Hshards, Hlen, Hcheck.
    rewrite <- Hprops', fill_defaults_idempotent. reflexivity.
Qed.

Section RoundTrip.
Variable JSON_parse : string -> JSValue + string.
Variable JSON_stringify : JSValue -> option string.


End RoundTrip.



(** * Further properties *)

(** ** Order facts about binary64 values *)

Module FloatCompare.

Lemma SFleb_trans (a b c : spec_float) :
  SFleb a b = true -> SFleb b c = true -> SFleb a c = true.
Proof.
  unfold SFleb.
  destruct a as [sa|sa| |sa ma ea], b as [sb|sb| |sb mb eb], c as [sc|sc| |sc mc ec];
    simpl; try (destruct sa); try (destruct sb); try (destruct sc); simpl;
    try reflexivity; try discriminate.
  all: destruct (Z.compare_spec ea eb), (Z.compare_spec eb ec), (Z.compare_spec ea ec);
    simpl; try reflexivity; try discriminate; try lia; subst.
  all: change (PosDef.Pos.compare_cont Eq ?x ?y) with (x ?= y)%positive.
  all: destruct (Pos.compare_spec ma mb), (Pos.compare_spec mb mc), (Pos.compare_spec ma mc);
    simpl; try reflexivity; try discriminate; try lia.
Qed.

Lemma SFltb_leb (a b : spec_float) : SFltb a b = true -> SFleb a b = true.
Proof. unfold SFltb, SFleb. destruct (SFcompare a b) as [[| |]|]; congruence. Qed.

Lemma SFcompare_nan (a b : spec_float) :
  SFcompare a b = None <-> SFeqb a a = false \/ SFeqb b b = false.
Proof.
  destruct a as [sa|sa| |sa ma ea], b as [sb|sb| |sb mb eb]; unfold SFeqb; simpl;
    try (destruct sa); try (destruct sb); simpl;
    rewrite ?Z.compare_refl; change (PosDef.Pos.compare_cont Eq ?x ?y) with (x ?= y)%positive;
    rewrite ?Pos.compare_refl; simpl; intuition discriminate.
Qed.

Lemma leb_trans (x y z : float) :
  (x <=? y)%float = true -> (y <=? z)%float = true -> (x <=? z)%float = true.
Proof. rewrite !FloatAxioms.leb_spec. apply SFleb_trans. Qed.

Lemma ltb_leb (x y : float) : (x <? y)%float = true -> (x <=? y)%float = true.
Proof. rewrite FloatAxioms.ltb_spec, FloatAxioms.leb_spec. apply SFltb_leb. Qed.

Lemma is_nan_spec (x : float) :
  is_nan x = false <-> SFeqb (Prim2SF x) (Prim2SF x) = true.
Proof.
  unfold is_nan. rewrite FloatAxioms.eqb_spec, negb_false_iff. reflexivity.
Qed.

(** Two numbers are always comparable: when [x < y] fails, [y <= x] holds. *)
Lemma not_ltb_leb (x y : float) :
  is_nan x = false -> is_nan y = false ->
  (x <? y)%float = false -> (y <=? x)%float = true.
Proof.
  rewrite !is_nan_spec, FloatAxioms.ltb_spec, FloatAxioms.leb_spec.
  unfold SFltb, SFleb. intros Hx Hy.
  rewrite (FloatFacts.SFcompare_antisym (Prim2SF x) (Prim2SF y)).
  destruct (SFcompare (Prim2SF x) (Prim2SF y)) as [[| |]|] eqn:E; simpl; try congruence.
  apply SFcompare_nan in E. destruct E; congruence.
Qed.

Lemma leb_refl (x : float) : is_nan x = false -> (x <=? x)%float = true.
Proof.
  intros Hx. apply not_ltb_leb; try assumption.
  rewrite FloatAxioms.ltb_spec. unfold SFltb.
  apply is_nan_spec in Hx. unfold SFeqb in Hx.
  destruct (SFcompare (Prim2SF x) (Prim2SF x)) as [[| |]|]; congruence.
Qed.

Lemma leb_not_nan (x y : float) :
  (x <=? y)%float = true -> is_nan x = false /\ is_nan y = false.
Proof.
  rewrite FloatAxioms.leb_spec, !is_nan_spec. unfold SFleb. intros H.
  destruct (SFeqb (Prim2SF x) (Prim2SF x)) eqn:Ex, (SFeqb (Prim2SF y) (Prim2SF y)) eqn:Ey;
    try (split; reflexivity);
    assert (E : SFcompare (Prim2SF x) (Prim2SF y) = None)
      by (apply SFcompare_nan; auto);
    rewrite E in H; discriminate.
Qed.

(** [Math.max] of two numbers is one of them and bounds both. *)
Lemma Math_max_spec (a b : float) :
  is_nan a = false -> is_nan b = false ->
  (Math_max a b = a \/ Math_max a b = b) /\
  (a <=? Math_max a b)%float = true /\ (b <=? Math_max a b)%float = true.
Proof.
  intros Ha Hb. unfold Math_max. rewrite Ha, Hb. cbn [orb].
  destruct (a <? b)%float eqn:Hab.
  - split; [now right|]. split; [now apply ltb_leb | now apply leb_refl].
  - destruct (b <? a)%float eqn:Hba.
    + split; [now left|]. split; [now apply leb_refl | now apply ltb_leb].
    + destruct (get_sign a).
      * split; [now right|]. split; [now apply not_ltb_leb | now apply leb_refl].
      * split; [now left|]. split; [now apply leb_refl | now apply not_ltb_leb].
Qed.

(** [Math.min] of two numbers is one of them and is bounded by both. *)
Lemma Math_min_spec (a b : float) :
  is_nan a = false -> is_nan b = false ->
  (Math_min a b = a \/ Math_min a b = b) /\
  (Math_min a b <=? a)%float = true /\ (Math_min a b <=? b)%float = true.
Proof.
  intros Ha Hb. unfold Math_min. rewrite Ha, Hb. cbn [orb].
  destruct (a <? b)%float eqn:Hab.
  - split; [now left|]. split; [now apply leb_refl | now apply ltb_leb].
  - destruct (b <? a)%float eqn:Hba.
    + split; [now right|]. split; [now apply ltb_leb | now apply leb_refl].
    + destruct (get_sign a).
      * split; [now left|]. split; [now apply leb_refl | now apply not_ltb_leb].
      * split; [now right|]. split; [now apply not_ltb_leb | now apply leb_refl].
Qed.

End FloatCompare.

(** ** Uniqueness of node identifiers *)

Lemma append_assoc (a b c : string) : (a +:+ b) +:+ c = a +:+ (b +:+ c).
Proof.
  induction a as [|x a IH]; [reflexivity|].
  change (String x ((a +:+ b) +:+ c) = String x (a +:+ (b +:+ c))). now f_equal.
Qed.

Lemma append_inj_l (a x y : string) : a +:+ x = a +:+ y -> x = y.
Proof.
  induction a as [|c a IH]; [auto|].
  change (String c (a +:+ x) = String c (a +:+ y) -> x = y). intros [= H]. auto.
Qed.

Lemma append_empty_r (s : string) : s +:+ "" = s.
Proof.
  induction s as [|c s IH]; [reflexivity|].
  change (String c (s +:+ "") = String c s). now f_equal.
Qed.

(** The decimal digits of an index hold no dash. *)
Lemma string_of_uint_no_dash (d : Decimal.uint) :
  forall c, In c (list_ascii_of_string (NilEmpty.string_of_uint d)) -> c <> "-"%char.
Proof.
  induction d; simpl; intros c H; try contradiction;
    (destruct H as [<- | H]; [discriminate | now apply IHd]).
Qed.

Lemma string_of_index_no_dash (i : nat) :
  forall c, In c (list_ascii_of_string (string_of_index i)) -> c <> "-"%char.
Proof.
  unfold string_of_index, NilZero.string_of_uint.
  destruct (Nat.to_uint i); try apply string_of_uint_no_dash.
  intros c [<- | []]. discriminate.
Qed.

Lemma string_of_index_inj (i j : nat) : string_of_index i = string_of_index j -> i = j.
Proof.
  unfold string_of_index. intros H.
  assert (Hu : forall n, NilZero.uint_of_string (NilZero.string_of_uint (Nat.to_uint n))
                         = Some (Nat.to_uint n)).
  { intros n. apply NilZero.usu. intros E.
    pose proof (DecimalNat.Unsigned.of_to n) as Hn. rewrite E in Hn.
    subst n. discriminate E. }
  pose proof (Hu i) as Hi. rewrite H, Hu in Hi. injection Hi as Hi.
  apply (f_equal Nat.of_uint) in Hi. now rewrite !DecimalNat.Unsigned.of_to in Hi.
Qed.

(** Two dash-free segments, each followed by the end of the text or by a
    dash, are equal when the texts are. *)
Lemma segment_inj (a b s t : string) :
  (forall c, In c (list_ascii_of_string a) -> c <> "-"%char) ->
  (forall c, In c (list_ascii_of_string b) -> c <> "-"%char) ->
  (s = EmptyString \/ exists s', s = String "-" s') ->
  (t = EmptyString \/ exists t', t = String "-" t') ->
  a +:+ s = b +:+ t -> a = b /\ s = t.
Proof.
  revert b. induction a as [|x a IH]; intros [|y b] Ha Hb Hs Ht H.
  - auto.
  - exfalso. change (s = String y (b +:+ t)) in H. apply (Hb y); [now left|].
    destruct Hs as [-> | [s' ->]]; [discriminate H | now injection H].
  - exfalso. change (String x (a +:+ s) = t) in H. apply (Ha x); [now left|].
    destruct Ht as [-> | [t' ->]]; [discriminate H | now injection H].
  - change (String x (a +:+ s) = String y (b +:+ t)) in H. injection H as -> H.
    destruct (IH b) as [-> ->]; auto.
    + intros c Hc. apply Ha. now right.
    + intros c Hc. apply Hb. now right.
Qed.

(** The ids of a forest whose [j]-th tree has ids made of a common base,
    the index [j] and a tail that is empty or starts with a dash. *)
Lemma forest_ids {A : Type} (base : string) (f : A -> nat -> ProcessedQuery) (cs : list A) :
  Forall (fun c => forall j,
            NoDup (map id (subtree (f c j))) /\
            forall n, In n (subtree (f c j)) ->
                      exists s, (s = EmptyString \/ exists s', s = String "-" s') /\
                                id n = base +:+ string_of_index j +:+ s) cs ->
  forall k,
    NoDup (map id (flat_map subtree (map_from f k cs))) /\
    forall n, In n (flat_map subtree (map_from f k cs)) ->
              exists j s, k <= j /\ (s = EmptyString \/ exists s', s = String "-" s') /\
                          id n = base +:+ string_of_index j +:+ s.
Proof.
  induction 1 as [|c cs Hc _ IH]; intros k.
  - split; [constructor | intros n []].
  - cbn [map_from flat_map]. destruct (Hc k) as [Hnd Hform]. destruct (IH (S k)) as [Hnd' Hform'].
    split.
    + rewrite map_app. apply NoDup_app. split; [exact Hnd|]. split; [|exact Hnd'].
      intros x Hx Hx'. apply list_elem_of_In, in_map_iff in Hx, Hx'.
      destruct Hx as (n & <- & Hn). destruct Hx' as (n' & E & Hn').
      destruct (Hform n Hn) as (s & Hs & En).
      destruct (Hform' n' Hn') as (j & s' & Hj & Hs' & En').
      rewrite En, En' in E. apply append_inj_l in E.
      apply segment_inj in E;
        [| apply string_of_index_no_dash | apply string_of_index_no_dash
         | assumption | assumption].
      destruct E as [E _]. apply string_of_index_inj in E. lia.
    + intros n Hn. apply in_app_or in Hn. destruct Hn as [Hn | Hn].
      * destruct (Hform n Hn) as (s & Hs & En). exists k, s. auto.
      * destruct (Hform' n Hn) as (j & s & Hj & Hs & En). exists j, s.
        split; [lia | auto].
Qed.

Lemma node_path_base (p : string) (i : nat) (root : string) :
  node_path p i (root +:+ string_of_index i)
  = (if string_truthy p then p +:+ "-" else root) +:+ string_of_index i.
Proof.
  unfold node_path. destruct (string_truthy p); [|reflexivity].
  now rewrite append_assoc.
Qed.

(** The ids below a transformed query are pairwise distinct and extend the
    id of the query. *)
Lemma transformQuery_ids (total : float) (q : QueryProfile) :
  forall (i : nat) (p : string),
    NoDup (map id (subtree (transformQuery total q i p))) /\
    forall n, In n (subtree (transformQuery total q i p)) ->
              exists s, (s = EmptyString \/ exists s', s = String "-" s') /\
                        id n = ("query-" +:+ (if string_truthy p then p +:+ "-" else ""))
                                 +:+ string_of_index i +:+ s.
Proof.
  induction q as [q IH] using QueryProfile_tree_ind. intros i p.
  destruct q as [ty d t b ch].
  assert (Hpath : node_path p i (string_of_index i)
                  = (if string_truthy p then p +:+ "-" else "") +:+ string_of_index i)
    by exact (node_path_base p i "").
  assert (Hself : forall s, ("query-" +:+ node_path p i (string_of_index i)) +:+ s
                            = ("query-" +:+ (if string_truthy p then p +:+ "-" else ""))
                                +:+ string_of_index i +:+ s).
  { intros s. rewrite Hpath, !append_assoc. reflexivity. }
  cbn [subtree transformQuery children id qp_children]. destruct ch as [cs|].
  - specialize (IH cs eq_refl).
    set (nodeId := node_path p i (string_of_index i)) in *.
    assert (Htruthy : string_truthy nodeId = true)
      by apply node_path_truthy, string_of_index_truthy.
    destruct (forest_ids ("query-" +:+ nodeId +:+ "-")
                (fun child idx => transformQuery total child idx nodeId) cs) with (k := 0)
      as [Hnd Hform].
    { apply (Forall_impl _ _ _ IH). intros c Hc j. destruct (Hc j nodeId) as [H1 H2].
      split; [exact H1|]. rewrite Htruthy in H2. intros n Hn.
      destruct (H2 n Hn) as (s & Hs & ->). exists s. split; [exact Hs|].
      now rewrite !append_assoc. }
    assert (Hbelow : forall n, In n (flat_map subtree (array_map
                        (fun child idx => transformQuery total child idx nodeId) cs)) ->
                      exists s', id n = ("query-" +:+ nodeId) +:+ String "-" s').
    { intros n Hn. destruct (Hform n Hn) as (j & s & _ & _ & ->).
      exists (string_of_index j +:+ s). now rewrite !append_assoc. }
    split.
    + cbn [map]. apply NoDup_cons. split; [|exact Hnd].
      intros Hin. apply list_elem_of_In, in_map_iff in Hin. destruct Hin as (n & E & Hn).
      destruct (Hbelow n Hn) as (s' & En). rewrite En in E.
      apply (f_equal String.length) in E. rewrite length_append in E. simpl in E. lia.
    + intros n [<- | Hn].
      * exists EmptyString. split; [now left|]. cbn [id]. rewrite <- Hself.
        now rewrite append_empty_r.
      * destruct (Hbelow n Hn) as (s' & ->). exists (String "-" s').
        split; [right; now exists s' | apply Hself].
  - split.
    + cbn [map]. apply NoDup_cons. split; [apply not_elem_of_nil | constructor].
    + intros n [<- | []]. exists EmptyString. split; [now left|]. cbn [id].
      rewrite <- Hself. now rewrite append_empty_r.
Qed.

(** The ids below a transformed collector are pairwise distinct and extend
    the id of the collector. *)
Lemma transformCollector_ids (total : float) (c : CollectorProfile) :
  forall (i : nat) (p : string),
    NoDup (map id (subtree (transformCollector total c i p))) /\
    forall n, In n (subtree (transformCollector total c i p)) ->
              exists s, (s = EmptyString \/ exists s', s = String "-" s') /\
                        id n = (if string_truthy p then p +:+ "-" else "collector-")
                                 +:+ string_of_index i +:+ s.
Proof.
  induction c as [c IH] using CollectorProfile_tree_ind. intros i p.
  destruct c as [nm r t b ch].
  pose proof (node_path_base p i "collector-") as Hpath.
  set (nodeId := node_path p i ("collector-" +:+ string_of_index i)) in *.
  assert (Htruthy : string_truthy nodeId = true) by (apply node_path_truthy; reflexivity).
  assert (Hself : forall s, nodeId +:+ s
                            = (if string_truthy p then p +:+ "-" else "collector-")
                                +:+ string_of_index i +:+ s).
  { intros s. rewrite Hpath, !append_assoc. reflexivity. }
  cbn [subtree transformCollector children id cp_children]. fold nodeId.
  destruct ch as [cs|].
  - specialize (IH cs eq_refl).
    destruct (forest_ids (nodeId +:+ "-")
                (fun child idx => transformCollector total child idx nodeId) cs) with (k := 0)
      as [Hnd Hform].
    { apply (Forall_impl _ _ _ IH). intros c Hc j. destruct (Hc j nodeId) as [H1 H2].
      split; [exact H1|]. rewrite Htruthy in H2. exact H2. }
    assert (Hbelow : forall n, In n (flat_map subtree (array_map
                        (fun child idx => transformCollector total child idx nodeId) cs)) ->
                      exists s', id n = nodeId +:+ String "-" s').
    { intros n Hn. destruct (Hform n Hn) as (j & s & _ & _ & ->).
      exists (string_of_index j +:+ s). now rewrite !append_assoc. }
    split.
    + cbn [map]. apply NoDup_cons. split; [|exact Hnd].
      intros Hin. apply list_elem_of_In, in_map_iff in Hin. destruct Hin as (n & E & Hn).
      destruct (Hbelow n Hn) as (s' & En). rewrite En in E.
      apply (f_equal String.length) in E. rewrite length_append in E. simpl in E. lia.
    + intros n [<- | Hn].
      * exists EmptyString. split; [now left|]. cbn [id]. rewrite <- Hself.
        now rewrite append_empty_r.
      * destruct (Hbelow n Hn) as (s' & ->). exists (String "-" s').
        split; [right; now exists s' | apply Hself].
  - split.
    + cbn [map]. apply NoDup_cons. split; [apply not_elem_of_nil | constructor].
    + intros n [<- | []]. exists EmptyString. split; [now left|]. cbn [id].
      rewrite <- Hself. now rewrite append_empty_r.
Qed.

(** The ids of the transformed roots: distinct, behind [query-]. *)
Lemma query_nodes_ids (total : float) (data : list QueryProfile) :
  NoDup (map id (all_nodes (query_nodes total data))) /\
  forall n, In n (all_nodes (query_nodes total data)) ->
            exists s, id n = String "q" s.
Proof.
  destruct (forest_ids "query-" (fun q i => transformQuery total q i "") data) with (k := 0)
    as [Hnd Hform].
  { apply List.Forall_forall. intros q _ j. exact (transformQuery_ids total q j ""). }
  split; [exact Hnd|]. intros n Hn. destruct (Hform n Hn) as (j & s & _ & _ & ->).
  eexists. reflexivity.
Qed.

(** The ids of the transformed collectors: distinct, behind [collector-]. *)
Lemma collector_nodes_ids (total : float) (cs : option (list CollectorProfile)) :
  NoDup (map id (all_nodes (collector_nodes total cs))) /\
  forall n, In n (all_nodes (collector_nodes total cs)) ->
            exists s, id n = String "c" s.
Proof.
  destruct cs as [cs|]; [|split; [constructor | intros n []]].
  destruct (forest_ids "collector-" (fun c i => transformCollector total c i "") cs)
    with (k := 0) as [Hnd Hform].
  { apply List.Forall_forall. intros c _ j. exact (transformCollector_ids total c j ""). }
  split; [exact Hnd|]. intros n Hn. destruct (Hform n Hn) as (j & s & _ & _ & ->).
  eexists. reflexivity.
Qed.

Lemma rewrite_nodes_ids (total : float) (r : option float) :
  NoDup (map id (all_nodes (rewrite_nodes total r))) /\
  forall n, In n (all_nodes (rewrite_nodes total r)) -> id n = "rewrite".
Proof.
  unfold rewrite_nodes. destruct r as [r|]; [destruct (0 <? r)%float|].
  2, 3: split; [constructor | intros n []].
  split.
  - cbn. apply NoDup_cons. split; [apply not_elem_of_nil | constructor].
  - intros n [<- | []]. reflexivity.
Qed.

(** No two nodes of one pass, at any depth, share an id. *)
Lemma processedQueries_ids_NoDup (props : QueryTreeProps) (activeTab : Tab) :
  NoDup (map id (all_nodes (processedQueries props activeTab))).
Proof.
  rewrite processedQueries_unfold.
  destruct (activeData props activeTab) as [|q data]; [constructor|].
  cbv zeta. set (total := totalTime props activeTab).
  destruct (query_nodes_ids total (q :: data)) as [Hq Hqid].
  destruct activeTab; [|exact Hq].
  destruct (rewrite_nodes_ids total (rewriteTime props)) as [Hr Hrid].
  destruct (collector_nodes_ids total (collectors props)) as [Hc Hcid].
  unfold all_nodes in *. rewrite !flat_map_app, !map_app.
  apply NoDup_app. split; [exact Hq|]. split.
  - intros x Hx Hx'. apply list_elem_of_In in Hx, Hx'.
    apply in_map_iff in Hx. destruct Hx as (n & <- & Hn).
    destruct (Hqid n Hn) as (s & En). rewrite En in Hx'.
    apply in_app_or in Hx'. destruct Hx' as [Hx' | Hx'];
      apply in_map_iff in Hx'; destruct Hx' as (m & Em & Hm).
    + rewrite (Hrid m Hm) in Em. discriminate Em.
    + destruct (Hcid m Hm) as (s' & E'). rewrite E' in Em. discriminate Em.
  - apply NoDup_app. split; [exact Hr|]. split; [|exact Hc].
    intros x Hx Hx'. apply list_elem_of_In, in_map_iff in Hx, Hx'.
    destruct Hx as (n & <- & Hn). destruct Hx' as (m & Em & Hm).
    destruct (Hcid m Hm) as (s' & E'). rewrite E', (Hrid n Hn) in Em. discriminate Em.
Qed.

(** ** The tree view: expansion state and rendered rows *)

Import TreeView.

(** Induction over a processed tree: the property may be assumed of every
    child. *)
Lemma ProcessedQuery_tree_ind (P : ProcessedQuery -> Prop) :
  (forall n, (forall cs, children n = Some cs -> Forall P cs) -> P n) ->
  forall n, P n.
Proof.
  intros step. fix IH 1. intros [i nm ty d tm t pc b rb ch]. apply step. simpl.
  destruct ch as [cs|]; intros cs' E; [|discriminate E].
  injection E as <-.
  induction cs as [|c rest IHrest]; constructor; [apply IH | exact IHrest].
Qed.

Lemma NoDup_map_inj {A B : Type} (f : A -> B) (l : list A) (a b : A) :
  NoDup (map f l) -> In a l -> In b l -> f a = f b -> a = b.
Proof.
  induction l as [|x l IH]; simpl; intros Hnd Ha Hb E; [contradiction|].
  apply NoDup_cons in Hnd as [Hx Hnd].
  destruct Ha as [-> | Ha], Hb as [-> | Hb]; auto.
  - exfalso. apply Hx, list_elem_of_In. rewrite E. now apply in_map.
  - exfalso. apply Hx, list_elem_of_In. rewrite <- E. now apply in_map.
Qed.

Lemma isExpanded_flag (e : ExpandedNodes) (n : ProcessedQuery) :
  isExpanded e n = flag e (id n).
Proof. unfold isExpanded, flag. destruct (e !! id n) as [[|]|]; reflexivity. Qed.

Lemma flag_toggle_eq (e : ExpandedNodes) (i : string) :
  flag (toggleNode i e) i = negb (flag e i).
Proof.
  unfold toggleNode. generalize (negb (flag e i)). intros b.
  unfold flag, ExpandedNodes in *. now rewrite lookup_insert_eq.
Qed.

Lemma flag_toggle_ne (e : ExpandedNodes) (i j : string) :
  i <> j -> flag (toggleNode i e) j = flag e j.
Proof.
  intros Hne. unfold toggleNode. generalize (negb (flag e i)). intros b.
  unfold flag, ExpandedNodes in *. now rewrite lookup_insert_ne.
Qed.

(** X1: no two nodes of one pass, at any depth, share an id: a node of the
    tree is determined by its id. *)
Theorem processedQueries_ids_unique (props : QueryTreeProps) (activeTab : Tab) :
  NoDup (map id (all_nodes (processedQueries props activeTab))) /\
  forall n m : ProcessedQuery,
    In n (all_nodes (processedQueries props activeTab)) ->
    In m (all_nodes (processedQueries props activeTab)) ->
    id n = id m -> n = m.
Proof.
  split; [apply processedQueries_ids_NoDup|]. intros n m Hn Hm E.
  exact (NoDup_map_inj id _ n m (processedQueries_ids_NoDup props activeTab) Hn Hm E).
Qed.

Lemma processedQueries_ids_unique_witness :
  map id (all_nodes (processedQueries Samples.search_props search))
    = ["query-0"; "query-1"; "query-1-0"; "query-1-1"; "rewrite"; "collector-0";
       "collector-0-0"] /\
  Samples.nested_child = transformQuery 5000000 (Samples.leaf 2000000) 1 "1".
Proof.
  split; [reflexivity|].
  apply (proj2 (processedQueries_ids_unique Samples.search_props search)).
  - in_list.
  - in_list.
  - reflexivity.
Defined.

(** X2: toggling a node of the tree flips its own expansion and leaves the
    expansion of every other node of the tree as it was. *)
Theorem toggleNode_flips_one (props : QueryTreeProps) (activeTab : Tab)
    (e : ExpandedNodes) (n m : ProcessedQuery) :
  In n (all_nodes (processedQueries props activeTab)) ->
  In m (all_nodes (processedQueries props activeTab)) ->
  isExpanded (toggleNode (id n) e) n = negb (isExpanded e n) /\
  (m <> n -> isExpanded (toggleNode (id n) e) m = isExpanded e m).
Proof.
  intros Hn Hm. rewrite !isExpanded_flag. split.
  - apply flag_toggle_eq.
  - intros Hne. apply flag_toggle_ne.
    intros E. apply Hne. symmetry.
    exact (NoDup_map_inj id _ n m (processedQueries_ids_NoDup props activeTab) Hn Hm E).
Qed.

Lemma toggleNode_flips_one_witness :
  isExpanded (toggleNode "query-1-1" ∅) Samples.nested_child = true /\
  isExpanded (toggleNode "query-1-1" ∅) (rewrite_node 5000000 500000) = false.
Proof.
  destruct (toggleNode_flips_one Samples.search_props search ∅ Samples.nested_child
              (rewrite_node 5000000 500000)) as [Hself Hother].
  - in_list.
  - in_list.
  - split; [exact Hself|]. apply Hother. discriminate.
Defined.

Lemma renderTreeNode_collapsed (n : ProcessedQuery) (depth : nat) :
  renderTreeNode ∅ n depth
  = [ {| row_node := n; row_depth := depth; row_shows_percentage := Nat.ltb 0 depth |} ].
Proof.
  destruct n as [i nm ty d tm t pc b rb [cs|]]; [|reflexivity].
  cbn [renderTreeNode children]. unfold isExpanded.
  change (∅ !! _) with (@None bool) || rewrite lookup_empty.
  now rewrite andb_false_r.
Qed.

Lemma renderTreeNode_sublist (e : ExpandedNodes) (n : ProcessedQuery) :
  forall depth, sublist (map row_node (renderTreeNode e n depth)) (subtree n).
Proof.
  induction n as [n IH] using ProcessedQuery_tree_ind. intros depth.
  destruct n as [i nm ty d tm t pc b rb ch].
  cbn [renderTreeNode subtree children map row_node]. apply sublist_skip.
  destruct ch as [cs|]; [|apply sublist_nil_l].
  destruct (Nat.ltb 0 (length cs) && isExpanded e _); [|apply sublist_nil_l].
  specialize (IH cs eq_refl). clear -IH.
  induction IH as [|c cs Hc _ IHcs]; [constructor|].
  cbn [flat_map]. rewrite map_app. apply sublist_app; [apply Hc | exact IHcs].
Qed.

Lemma renderTreeNode_expanded (e : ExpandedNodes) (n : ProcessedQuery) :
  forall depth,
    (forall m, In m (subtree n) -> hasChildren m = true -> isExpanded e m = true) ->
    map row_node (renderTreeNode e n depth) = subtree n.
Proof.
  induction n as [n IH] using ProcessedQuery_tree_ind. intros depth Hall.
  assert (Hn : hasChildren n = true -> isExpanded e n = true)
    by (apply Hall; destruct n; now left).
  destruct n as [i nm ty d tm t pc b rb ch].
  cbn [renderTreeNode subtree children map row_node] in *. f_equal.
  destruct ch as [cs|]; [|reflexivity].
  unfold hasChildren in Hn. cbn [children] in Hn.
  destruct (Nat.ltb 0 (length cs)) eqn:Hlen.
  - rewrite (Hn eq_refl). cbn [andb].
    specialize (IH cs eq_refl).
    assert (Hsub : forall c m, In c cs -> In m (subtree c) ->
                               hasChildren m = true -> isExpanded e m = true).
    { intros c m Hc Hm. apply Hall. right. apply in_flat_map. eauto. }
    clear -IH Hsub. induction IH as [|c cs Hc _ IHcs]; [reflexivity|].
    cbn [flat_map]. rewrite map_app. f_equal.
    + apply Hc. intros m Hm. apply (Hsub c); [now left | exact Hm].
    + apply IHcs. intros c' m Hc'. apply Hsub. now right.
  - destruct cs; [reflexivity | discriminate Hlen].
Qed.

(** X3: the rows of the tree view.  Whatever the expansion state, the
    rendered nodes are nodes of the tree, in tree order; with nothing
    expanded (the initial state) exactly the root nodes are rendered, at
    depth 0 and without a percentage; with every node that has children
    expanded, every node of the tree is rendered. *)
Theorem renderTree_rows (e : ExpandedNodes) (forest : list ProcessedQuery) :
  sublist (map row_node (renderTree e forest)) (all_nodes forest) /\
  renderTree ∅ forest
    = map (fun n => {| row_node := n; row_depth := 0; row_shows_percentage := false |})
        forest /\
  ((forall n, In n (all_nodes forest) -> hasChildren n = true -> isExpanded e n = true) ->
   map row_node (renderTree e forest) = all_nodes forest).
Proof.
  unfold renderTree, all_nodes. split; [|split].
  - induction forest as [|n forest IH]; [constructor|].
    cbn [flat_map]. rewrite map_app.
    apply sublist_app; [apply renderTreeNode_sublist | exact IH].
  - induction forest as [|n forest IH]; [reflexivity|].
    cbn [flat_map map]. now rewrite renderTreeNode_collapsed, IH.
  - induction forest as [|n forest IH]; [reflexivity|]. intros Hall.
    cbn [flat_map]. rewrite map_app. f_equal.
    + apply renderTreeNode_expanded. intros m Hm. apply Hall.
      cbn [flat_map]. apply in_or_app. now left.
    + apply IH. intros m Hm. apply Hall. cbn [flat_map]. apply in_or_app. now right.
Qed.

Lemma renderTree_rows_witness :
  map row_node
    (renderTree (toggleNode "query-1" (toggleNode "collector-0" ∅))
       (processedQueries Samples.search_props search))
  = all_nodes (processedQueries Samples.search_props search).
Proof.
  apply (proj2 (proj2 (renderTree_rows _ _))).
  intros n Hn Hc. simpl in Hn.
  repeat (destruct Hn as [<- | Hn]; [first [discriminate Hc | vm_compute; reflexivity]|]).
  contradiction.
Defined.

(** ** The resizer of the tree panel *)

Lemma clamp_bounds (clientX : float) :
  is_nan clientX = false ->
  let w := Math_max TREE_PANEL_MIN_WIDTH (Math_min TREE_PANEL_MAX_WIDTH clientX) in
  (TREE_PANEL_MIN_WIDTH <=? w)%float = true /\ (w <=? TREE_PANEL_MAX_WIDTH)%float = true.
Proof.
  intros Hx w.
  destruct (FloatCompare.Math_min_spec TREE_PANEL_MAX_WIDTH clientX eq_refl Hx)
    as (Hmin & Hle & _).
  assert (Hm : is_nan (Math_min TREE_PANEL_MAX_WIDTH clientX) = false)
    by (destruct Hmin as [-> | ->]; [reflexivity | exact Hx]).
  destruct (FloatCompare.Math_max_spec TREE_PANEL_MIN_WIDTH
              (Math_min TREE_PANEL_MAX_WIDTH clientX) eq_refl Hm) as (Hmax & Hlo & _).
  fold w in Hmax, Hlo. split; [exact Hlo|].
  destruct Hmax as [-> | ->]; [reflexivity | exact Hle].
Qed.

Lemma clamp_inside (clientX : float) :
  (TREE_PANEL_MIN_WIDTH <? clientX)%float = true ->
  (clientX <? TREE_PANEL_MAX_WIDTH)%float = true ->
  Math_max TREE_PANEL_MIN_WIDTH (Math_min TREE_PANEL_MAX_WIDTH clientX) = clientX.
Proof.
  intros Hlo Hhi.
  assert (Hx : is_nan clientX = false)
    by exact (proj1 (FloatCompare.leb_not_nan _ _ (FloatCompare.ltb_leb _ _ Hhi))).
  assert (Hhi' : (TREE_PANEL_MAX_WIDTH <? clientX)%float = false).
  { rewrite FloatAxioms.ltb_spec in Hhi |- *. unfold SFltb in *.
    rewrite (FloatFacts.SFcompare_antisym (Prim2SF clientX)).
    destruct (SFcompare (Prim2SF clientX) _) as [[| |]|]; simpl; congruence. }
  assert (Hmin : Math_min TREE_PANEL_MAX_WIDTH clientX = clientX).
  { unfold Math_min. rewrite Hx, Hhi', Hhi. reflexivity. }
  rewrite Hmin. unfold Math_max. rewrite Hx, Hlo. reflexivity.
Qed.

(** X4: however the divider is dragged, the width of the tree panel stays
    between the minimum and the maximum width; while dragging, a pointer
    position strictly inside the bounds becomes the width as it is, and
    while not dragging a move changes nothing. *)
Theorem resizer_width_bounded (events : list MouseEvent) :
  Forall (fun ev => match ev with
                    | mousemove clientX => is_nan clientX = false
                    | _ => True
                    end) events ->
  let s := fold_left handle events initial_resizer in
  ((TREE_PANEL_MIN_WIDTH <=? leftPanelWidth s)%float = true /\
   (leftPanelWidth s <=? TREE_PANEL_MAX_WIDTH)%float = true) /\
  (forall clientX,
     isDragging s = true ->
     (TREE_PANEL_MIN_WIDTH <? clientX)%float = true ->
     (clientX <? TREE_PANEL_MAX_WIDTH)%float = true ->
     leftPanelWidth (handle s (mousemove clientX)) = clientX) /\
  (forall clientX, isDragging s = false -> handle s (mousemove clientX) = s).
Proof.
  intros Hev s. split; [|split].
  - subst s.
    assert (Hinit : (TREE_PANEL_MIN_WIDTH <=? leftPanelWidth initial_resizer)%float = true /\
                    (leftPanelWidth initial_resizer <=? TREE_PANEL_MAX_WIDTH)%float = true)
      by (split; reflexivity).
    revert Hinit. generalize initial_resizer.
    induction Hev as [|ev events Hx _ IH]; intros s0 Hs0; [exact Hs0|].
    cbn [fold_left]. apply IH. destruct ev as [|clientX|]; cbn [handle].
    + exact Hs0.
    + destruct (isDragging s0) eqn:Hd; [|exact Hs0].
      unfold handleMouseMove. rewrite Hd. cbn [negb leftPanelWidth].
      now apply clamp_bounds.
    + destruct (isDragging s0); exact Hs0.
  - intros clientX Hd Hlo Hhi. cbn [handle]. rewrite Hd. unfold handleMouseMove.
    rewrite Hd. cbn [negb leftPanelWidth]. now apply clamp_inside.
  - intros clientX Hd. cbn [handle]. now rewrite Hd.
Qed.

Lemma resizer_width_bounded_witness :
  leftPanelWidth
    (fold_left handle [mousemove 90; mousedown; mousemove 1000; mousemove 50; mousemove 250;
                       mouseup; mousemove 400] initial_resizer) = 250%float /\
  leftPanelWidth (fold_left handle [mousedown; mousemove 1000] initial_resizer) = 600%float /\
  (TREE_PANEL_MIN_WIDTH
   <=? leftPanelWidth (fold_left handle [mousedown; mousemove 50] initial_resizer))%float
  = true.
Proof.
  split; [reflexivity|]. split; [reflexivity|].
  apply (resizer_width_bounded [mousedown; mousemove 50]).
  repeat constructor.
Defined.

(** ** Bar scaling *)

(** [Math.max] over numbers, from a number: a number that bounds the start
    value and every argument, and is one of them. *)
Lemma Math_max_fold (l : list float) :
  forall acc : float,
    is_nan acc = false ->
    Forall (fun x => is_nan x = false) l ->
    let r := fold_left Math_max l acc in
    is_nan r = false /\ (acc <=? r)%float = true /\
    Forall (fun x => (x <=? r)%float = true) l /\ (r = acc \/ In r l).
Proof.
  induction l as [|x l IH]; intros acc Hacc Hl; cbn [fold_left].
  - repeat split; [exact Hacc | now apply FloatCompare.leb_refl | constructor | now left].
  - apply Forall_cons in Hl as [Hx Hl].
    destruct (FloatCompare.Math_max_spec acc x Hacc Hx) as (Hone & Ha & Hb).
    assert (Hm : is_nan (Math_max acc x) = false) by (destruct Hone as [-> | ->]; assumption).
    destruct (IH (Math_max acc x) Hm Hl) as (Hr & Hle & Hall & Hin).
    split; [exact Hr|]. split; [exact (FloatCompare.leb_trans _ _ _ Ha Hle)|]. split.
    + constructor; [exact (FloatCompare.leb_trans _ _ _ Hb Hle) | exact Hall].
    + destruct Hin as [Hin | Hin]; [|right; now right].
      rewrite Hin. destruct Hone as [-> | ->]; [now left | right; now left].
Qed.

(** [Math.max(...xs, 1)] over numbers: at least 1, at least every [x], and
    either 1 or one of the [xs]. *)
Lemma Math_max_list_floor (xs : list float) :
  Forall (fun x => is_nan x = false) xs ->
  let r := Math_max_list (xs ++ [1%float]) in
  (1 <=? r)%float = true /\ Forall (fun x => (x <=? r)%float = true) xs /\
  (r = 1%float \/ In r xs).
Proof.
  intros Hxs r.
  destruct (Math_max_fold (xs ++ [1%float]) neg_infinity eq_refl) as (_ & _ & Hall & Hin).
  { apply Forall_app. split; [exact Hxs | repeat constructor]. }
  fold (Math_max_list (xs ++ [1%float])) in Hall, Hin. fold r in Hall, Hin.
  apply Forall_app in Hall as [Hall Hone]. apply Forall_cons in Hone as [Hone _].
  split; [exact Hone|]. split; [exact Hall|].
  destruct Hin as [Hin | Hin].
  - rewrite Hin in Hone. discriminate Hone.
  - apply in_app_or in Hin. destruct Hin as [Hin | [Hin | []]]; [now right | now left].
Qed.

(** Every row carries the value of a key of the breakdown as its time. *)
Lemma visit_key_times (breakdown : Breakdown) (includeZeros : bool) (keys : list string) :
  forall state : gset string * list Entry,
    Forall (fun e => exists key, In (key, timeNs e) breakdown) state.2 ->
    Forall (fun e => exists key, In (key, timeNs e) breakdown)
      (fold_left (visit_key breakdown includeZeros) keys state).2.
Proof.
  induction keys as [|key keys IH]; intros [pk es] Hes; cbn [fold_left]; [exact Hes|].
  apply IH. unfold visit_key.
  destruct (bool_decide (key ∈ pk) || endsWith key "_count"); [exact Hes|].
  destruct (breakdown_get key breakdown) as [timeValue|] eqn:Hget; [|exact Hes].
  destruct (includeZeros || _ || _); [|exact Hes].
  cbn [snd] in *. apply Forall_app. split; [exact Hes|]. constructor; [|constructor].
  exists key. exact (breakdown_get_Some_In _ _ _ Hget).
Qed.

Lemma getBreakdownEntries_times (q : QueryProfile) (breakdown : Breakdown)
    (includeZeros : bool) (e : Entry) :
  qp_breakdown q = Some breakdown ->
  In e (getBreakdownEntries (Some q) includeZeros) ->
  exists key, In (key, timeNs e) breakdown.
Proof.
  intros Hq. unfold getBreakdownEntries. rewrite Hq.
  pose proof (visit_key_times breakdown includeZeros (map fst breakdown) (∅, [])
                (List.Forall_nil _)) as Hall.
  destruct (fold_left _ _ _) as [pk es]. cbn [snd] in Hall. intros Hin.
  apply (Permutation_in _ (array_sort_perm by_time_desc es)) in Hin.
  rewrite List.Forall_forall in Hall. exact (Hall e Hin).
Qed.

Import DetailView.

(** X5: the scale of the bars of the breakdown table.  For a breakdown
    whose values are numbers, [maxTime] is at least 1 (so no bar divides by
    zero), no displayed row has a time above it, and it is 1 or the time of
    a displayed row. *)
Theorem maxTime_bounds (q : QueryProfile) (breakdown : Breakdown) :
  qp_breakdown q = Some breakdown ->
  Forall (fun kv => is_nan kv.2 = false) breakdown ->
  let breakdownEntries := getBreakdownEntries (Some q) false in
  (1 <=? maxTime breakdownEntries)%float = true /\
  Forall (fun e => (timeNs e <=? maxTime breakdownEntries)%float = true) breakdownEntries /\
  (maxTime breakdownEntries = 1%float \/
   exists e, In e breakdownEntries /\ maxTime breakdownEntries = timeNs e).
Proof.
  intros Hq Hnum rows.
  destruct (Math_max_list_floor (map timeNs rows)) as (Hone & Hall & Hin).
  { apply List.Forall_forall. intros x Hx. apply in_map_iff in Hx.
    destruct Hx as (e & <- & He).
    destruct (getBreakdownEntries_times q breakdown false e Hq He) as [key Hkey].
    rewrite List.Forall_forall in Hnum. exact (Hnum _ Hkey). }
  fold (maxTime rows) in Hone, Hall, Hin. split; [exact Hone|]. split.
  - rewrite List.Forall_forall in Hall |- *. intros e He. apply Hall. now apply in_map.
  - destruct Hin as [Hin | Hin]; [now left | right].
    apply in_map_iff in Hin. destruct Hin as (e & E & He). exists e. auto.
Qed.

Lemma maxTime_bounds_witness :
  maxTime (getBreakdownEntries (Some Samples.term_query) false) = 900000%float /\
  (1 <=? maxTime (getBreakdownEntries (Some Samples.term_query) false))%float = true.
Proof.
  split; [reflexivity|].
  apply (maxTime_bounds Samples.term_query Samples.term_breakdown eq_refl).
  repeat constructor.
Defined.

(** ** The header of the detail panel *)

Lemma or_zero_idempotent (t : option float) : or_zero (Some (or_zero t)) = or_zero t.
Proof.
  destruct t as [v|]; [|reflexivity]. cbn [or_zero].
  destruct (number_truthy v) eqn:Hv; [now rewrite Hv | reflexivity].
Qed.

Lemma positive_truthy (r : float) : (0 <? r)%float = true -> number_truthy r = true.
Proof.
  intros Hr. unfold number_truthy.
  destruct (FloatCompare.leb_not_nan _ _ (FloatCompare.ltb_leb _ _ Hr)) as [_ ->].
  destruct (r =? 0)%float eqn:E; [|reflexivity].
  apply FloatFacts.eqb_not_gtb in E. congruence.
Qed.

(** As [processedQueries_nodes], with the sign of the rewrite time. *)
Lemma processedQueries_nodes_rewrite (props : QueryTreeProps) (activeTab : Tab)
    (n : ProcessedQuery) :
  In n (all_nodes (processedQueries props activeTab)) ->
  let total := totalTime props activeTab in
  (exists q i p, n = transformQuery total q i p) \/
  (exists r, (0 <? r)%float = true /\ n = rewrite_node total r) \/
  (exists c i p, n = transformCollector total c i p).
Proof.
  intros Hn total. rewrite processedQueries_unfold in Hn. fold total in Hn.
  assert (Hq : forall data, In n (all_nodes (query_nodes total data)) ->
                            exists q i p, n = transformQuery total q i p).
  { intros data H. apply in_flat_map in H. destruct H as (root & Hroot & H).
    apply in_map_from in Hroot. destruct Hroot as (q & i & _ & ->).
    exact (transformQuery_subtree _ _ _ _ _ H). }
  destruct (activeData props activeTab) as [|q0 data]; [contradiction|].
  cbv zeta in Hn. destruct activeTab; [|left; exact (Hq _ Hn)].
  unfold all_nodes in Hn. rewrite !flat_map_app in Hn.
  apply in_app_or in Hn. destruct Hn as [Hn | Hn]; [left; exact (Hq _ Hn)|].
  apply in_app_or in Hn. destruct Hn as [Hn | Hn]; right.
  - left. unfold rewrite_nodes in Hn. destruct (rewriteTime props) as [r|]; [|contradiction].
    destruct (0 <? r)%float eqn:Hr; [|contradiction]. simpl in Hn.
    destruct Hn as [<- | []]. exists r. auto.
  - right. unfold collector_nodes in Hn. destruct (collectors props) as [cs|]; [|contradiction].
    apply in_flat_map in Hn. destruct Hn as (root & Hroot & H).
    apply in_map_from in Hroot. destruct Hroot as (c & i & _ & ->).
    exact (transformCollector_subtree _ _ _ _ _ H).
Qed.

(** X6: for every node of the tree, at any depth, the time in milliseconds
    is the time in nanoseconds divided by 1000000, and the total time in
    the header of the detail panel for that node is the very time shown in
    its row of the tree: the fallback of the header never changes it. *)
Theorem timeMs_of_processed_node (props : QueryTreeProps) (activeTab : Tab)
    (n : ProcessedQuery) :
  In n (all_nodes (processedQueries props activeTab)) ->
  time_ms n = (time_in_nanos n / 1000000)%float /\
  timeMs n = time_ms n.
Proof.
  intros Hn.
  assert (H : time_ms n = (time_in_nanos n / 1000000)%float /\
              or_zero (Some (time_in_nanos n)) = time_in_nanos n).
  { destruct (processedQueries_nodes_rewrite _ _ _ Hn)
      as [(q & i & p & ->) | [(r & Hr & ->) | (c & i & p & ->)]].
    - destruct q as [ty d t b ch]. cbn [time_ms time_in_nanos transformQuery qp_time_in_nanos].
      split; [reflexivity | apply or_zero_idempotent].
    - cbn [time_ms time_in_nanos rewrite_node or_zero].
      split; [reflexivity | now rewrite (positive_truthy r Hr)].
    - destruct c as [nm r t b ch].
      cbn [time_ms time_in_nanos transformCollector cp_time_in_nanos].
      split; [reflexivity | apply or_zero_idempotent]. }
  destruct H as [Hms Hns]. split; [exact Hms|].
  unfold timeMs. rewrite Hns. destruct (number_truthy (time_ms n)); [reflexivity|].
  now rewrite Hms.
Qed.

Lemma timeMs_of_processed_node_witness :
  time_ms Samples.nested_child = 2%float /\
  timeMs Samples.zero_child = (5 / 1000000)%float.
Proof.
  split.
  - exact (proj1 (timeMs_of_processed_node Samples.search_props search Samples.nested_child
                    ltac:(in_list))).
  - rewrite (proj2 (timeMs_of_processed_node Samples.zero_props search Samples.zero_child
                      ltac:(in_list))).
    reflexivity.
Defined.

(** ** The two breakdown tables *)

Lemma getBreakdownEntries_flat (q : QueryProfile) (breakdown : Breakdown)
    (includeZeros : bool) :
  qp_breakdown q = Some breakdown ->
  NoDup (map fst breakdown) ->
  getBreakdownEntries (Some q) includeZeros
  = array_sort by_time_desc
      (flat_map (rows_of_key breakdown includeZeros) (map fst breakdown)).
Proof.
  intros Hq Hnd. unfold getBreakdownEntries. rewrite Hq.
  pose proof (fold_visit_key breakdown includeZeros (map fst breakdown) ∅ [] Hnd) as Hfold.
  destruct (fold_left _ _ _) as [pk es]. simpl in Hfold.
  rewrite Hfold by set_solver. reflexivity.
Qed.

Lemma rows_of_key_filtered (breakdown : Breakdown) (key : string) (e : Entry) :
  In e (rows_of_key breakdown false key) <->
  In e (rows_of_key breakdown true key) /\
  ((0 <? timeNs e)%float || (0 <? count e)%float) = true.
Proof.
  unfold rows_of_key. destruct (endsWith key "_count"); [simpl; tauto|].
  destruct (breakdown_get key breakdown) as [timeValue|]; [|simpl; tauto].
  cbn [orb].
  destruct ((0 <? timeValue)%float
            || (0 <? or_zero (breakdown_get (key +:+ "_count") breakdown))%float) eqn:Hc.
  - split.
    + intros [<- | []]. split; [now left | exact Hc].
    + intros [H _]. exact H.
  - split; [intros [] |]. intros [[<- | []] H]. cbn [timeNs count] in H. congruence.
Qed.

(** X7: the visual breakdown table shows exactly the rows of the raw table
    that have a positive time or a positive count. *)
Theorem getBreakdownEntries_filtered (q : QueryProfile) (breakdown : Breakdown) (e : Entry) :
  qp_breakdown q = Some breakdown ->
  NoDup (map fst breakdown) ->
  (In e (getBreakdownEntries (Some q) false) <->
   In e (getBreakdownEntries (Some q) true) /\
   ((0 <? timeNs e)%float || (0 <? count e)%float) = true).
Proof.
  intros Hq Hnd. rewrite !(getBreakdownEntries_flat q breakdown) by assumption.
  assert (Hperm : forall z x,
            In x (array_sort by_time_desc
                    (flat_map (rows_of_key breakdown z) (map fst breakdown)))
            <-> In x (flat_map (rows_of_key breakdown z) (map fst breakdown))).
  { intros z x. split; apply Permutation_in;
      [|symmetry]; apply (array_sort_perm by_time_desc). }
  rewrite !Hperm, !in_flat_map. split.
  - intros (key & Hkey & Hin). apply rows_of_key_filtered in Hin as [Hin Hc].
    split; [exists key; auto | exact Hc].
  - intros [(key & Hkey & Hin) Hc]. exists key. split; [exact Hkey|].
    apply rows_of_key_filtered. auto.
Qed.

Lemma getBreakdownEntries_filtered_witness :
  In {| operation := "Score"; timeNs := 900000; count := 0 |}
     (getBreakdownEntries (Some Samples.term_query) false) /\
  ~ In {| operation := "Build Scorer"; timeNs := 0; count := 0 |}
       (getBreakdownEntries (Some Samples.term_query) false).
Proof.
  assert (Hnd : NoDup (map fst Samples.term_breakdown)).
  { apply (bool_decide_unpack _). vm_compute. exact I. }
  split.
  - apply (getBreakdownEntries_filtered Samples.term_query Samples.term_breakdown _
             eq_refl Hnd).
    split; [in_list | reflexivity].
  - intros H.
    apply (getBreakdownEntries_filtered Samples.term_query Samples.term_breakdown _
             eq_refl Hnd) in H.
    destruct H as [_ H]. discriminate H.
Defined.

(** ** The validator: what a verdict guarantees *)

(** The shard loop runs to its end only over objects with a [searches]
    array. *)
Lemma check_shards_None (shards : list JSValue) :
  forall i, check_shards shards i = None -> Forall shard_has_searches shards.
Proof.
  induction shards as [|shard rest IH]; intros i H; [constructor|].
  cbn [check_shards] in H.
  destruct (negb (truthy shard) || negb (JSType_eqb (typeof shard) TObject)); [discriminate H|].
  destruct (isArray (get_prop shard "searches")) eqn:Hs; [|discriminate H].
  cbn [negb] in H. constructor; [|exact (IH _ H)].
  destruct shard as [| |b|x|s|l|sprops]; try discriminate Hs.
  cbn [get_prop] in Hs. destruct (lookup_prop "searches" sprops) as [v|] eqn:Hv;
    [|discriminate Hs].
  destruct v; try discriminate Hs. eexists _, _. split; [reflexivity | exact Hv].
Qed.

(** A rejection by the shard loop is a format error. *)
Lemma check_shards_Some (shards : list JSValue) :
  forall i failure,
    check_shards shards i = Some failure ->
    isValid failure = false /\
    exists message details,
      error failure = Some {| error_type := INVALID_PROFILE_FORMAT;
                              error_message := message;
                              error_details := Some details |}.
Proof.
  induction shards as [|shard rest IH]; intros i failure H; [discriminate H|].
  cbn [check_shards] in H.
  destruct (negb (truthy shard) || negb (JSType_eqb (typeof shard) TObject)).
  { injection H as <-. split; [reflexivity | eexists _, _; reflexivity]. }
  destruct (negb (isArray (get_prop shard "searches"))).
  { injection H as <-. split; [reflexivity | eexists _, _; reflexivity]. }
  exact (IH _ _ H).
Qed.

Ltac rejected :=
  left; split; [reflexivity|]; split; [reflexivity|];
  eexists _, _, _; (split; [|reflexivity]);
  first [left; reflexivity | right; reflexivity].

(** The verdict and the document left behind, case by case. *)
Lemma validateProfileData_cases (d : JSValue) :
  (isValid (validateProfileData d).1 = false /\ (validateProfileData d).2 = d /\
   exists ty message details,
     (ty = INVALID_PROFILE_FORMAT \/ ty = MISSING_PROFILE_DATA) /\
     error (validateProfileData d).1
     = Some {| error_type := ty; error_message := message;
               error_details := Some details |}) \/
  (exists props pprops shards,
     d = JObject props /\
     lookup_prop "profile" props = Some (JObject pprops) /\
     lookup_prop "shards" pprops = Some (JArray shards) /\
     shards <> [] /\ Forall shard_has_searches shards /\
     validateProfileData d = (valid, fill_defaults d (length shards))).
Proof.
  destruct d as [| |b|x|s|l|props]; try rejected.
  - destruct b; rejected.
  - unfold validateProfileData. cbn [truthy typeof JSType_eqb negb].
    rewrite orb_true_r. rejected.
  - unfold validateProfileData. cbn [truthy typeof JSType_eqb negb].
    rewrite orb_true_r. rejected.
  - rewrite validateProfileData_object. cbv zeta.
    destruct (negb (truthy (get_prop (JObject props) "profile"))
              || negb (JSType_eqb (typeof (get_prop (JObject props) "profile")) TObject))
      eqn:Hprofile; [rejected|].
    destruct (get_prop (get_prop (JObject props) "profile") "shards")
      as [| |b|x|s|shards|o] eqn:Hshards; try rejected.
    destruct (Nat.eqb (length shards) 0) eqn:Hlen; [rejected|].
    destruct (check_shards shards 0) as [failure|] eqn:Hcheck.
    { left. destruct (check_shards_Some _ _ _ Hcheck) as (Hf & message & details & He).
      cbn [fst snd]. split; [exact Hf|]. split; [reflexivity|].
      exists INVALID_PROFILE_FORMAT, message, details. auto. }
    right. cbn [get_prop] in Hprofile, Hshards.
    destruct (lookup_prop "profile" props) as [profile|] eqn:Hp; [|discriminate Hprofile].
    destruct profile as [| |b|x|s|l|pprops]; try discriminate Hshards.
    cbn [get_prop] in Hshards.
    destruct (lookup_prop "shards" pprops) as [v|] eqn:Hs; [|discriminate Hshards].
    subst v. exists props, pprops, shards.
    split; [reflexivity|]. split; [exact Hp|]. split; [exact Hs|].
    split; [intros ->; discriminate Hlen|].
    split; [exact (check_shards_None _ _ Hcheck) | reflexivity].
Qed.

(** X8: what an accepted document is.  When [validateProfileData] accepts,
    the document is a plain object whose [profile] is a plain object whose
    [shards] is a non-empty array of plain objects that each have a
    [searches] array; the call leaves a plain object with the same
    [profile], a numeric [took] and truthy [_shards] and [hits], and the
    verdict carries no error. *)
Theorem validateProfileData_valid_shape (d : JSValue) :
  isValid (validateProfileData d).1 = true ->
  exists props pprops shards,
    d = JObject props /\
    lookup_prop "profile" props = Some (JObject pprops) /\
    lookup_prop "shards" pprops = Some (JArray shards) /\
    shards <> [] /\ Forall shard_has_searches shards /\
    is_object (validateProfileData d).2 = true /\
    get_prop (validateProfileData d).2 "profile" = JObject pprops /\
    JSType_eqb (typeof (get_prop (validateProfileData d).2 "took")) TNumber = true /\
    truthy (get_prop (validateProfileData d).2 "_shards") = true /\
    truthy (get_prop (validateProfileData d).2 "hits") = true /\
    error (validateProfileData d).1 = None.
Proof.
  intros Hvalid.
  destruct (validateProfileData_cases d)
    as [(Hbad & _) | (props & pprops & shards & -> & Hp & Hs & Hne & Hall & Hv)];
    [congruence|].
  exists props, pprops, shards. rewrite Hv. cbn [fst snd].
  destruct (fill_defaults_object props (length shards)) as [props' Hprops'].
  destruct (fill_defaults_filled props (length shards)) as (Htook & Hshards & Hhits).
  pose proof (fill_defaults_profile props (length shards)) as Hprofile.
  cbn [get_prop] in Hprofile. rewrite Hp in Hprofile.
  repeat (split; [first [reflexivity | assumption | now rewrite Hprops']|]).
  reflexivity.
Qed.

Lemma validateProfileData_valid_shape_witness :
  exists props pprops shards : _,
    Samples.example_doc = JObject props /\
    lookup_prop "profile" props = Some (JObject pprops) /\
    lookup_prop "shards" pprops = Some (JArray shards) /\
    length shards = 1.
Proof.
  destruct (validateProfileData_valid_shape Samples.example_doc)
    as (props & pprops & shards & Hd & Hp & Hs & _).
  - vm_compute. reflexivity.
  - exists props, pprops, shards. split; [exact Hd|]. split; [exact Hp|].
    split; [exact Hs|].
    assert (E : get_prop (get_prop Samples.example_doc "profile") "shards" = JArray shards).
    { rewrite Hd. cbn [get_prop]. rewrite Hp. cbn [get_prop]. now rewrite Hs. }
    vm_compute in E. injection E as <-. reflexivity.
Defined.

(** X9: a rejected document is left exactly as it was, and the verdict
    carries an error with details whose kind is INVALID_PROFILE_FORMAT or
    MISSING_PROFILE_DATA. *)
Theorem validateProfileData_rejected (d : JSValue) :
  isValid (validateProfileData d).1 = false ->
  (validateProfileData d).2 = d /\
  exists ty message details,
    (ty = INVALID_PROFILE_FORMAT \/ ty = MISSING_PROFILE_DATA) /\
    error (validateProfileData d).1
    = Some {| error_type := ty; error_message := message; error_details := Some details |}.
Proof.
  intros Hinvalid.
  destruct (validateProfileData_cases d) as [(_ & Hsame & He) | (props & pprops & shards & H)].
  - auto.
  - destruct H as (_ & _ & _ & _ & _ & Hv). rewrite Hv in Hinvalid. discriminate Hinvalid.
Qed.

Lemma validateProfileData_rejected_witness :
  (validateProfileData (JObject Samples.doc_no_profile)).2 = JObject Samples.doc_no_profile /\
  (validateProfileData (JArray [JNumber 1])).2 = JArray [JNumber 1].
Proof.
  split.
  - apply (validateProfileData_rejected (JObject Samples.doc_no_profile)). reflexivity.
  - apply (validateProfileData_rejected (JArray [JNumber 1])). reflexivity.
Defined.

Lemma get_prop_set_eq (props : list (string * JSValue)) (k : string) (x : JSValue) :
  get_prop (set_prop (JObject props) k x) k = x.
Proof. cbn [set_prop get_prop]. now rewrite lookup_prop_assign_eq. Qed.

Lemma get_prop_set_ne (props : list (string * JSValue)) (k k' : string) (x : JSValue) :
  k' <> k -> get_prop (set_prop (JObject props) k x) k' = get_prop (JObject props) k'.
Proof.
  intros Hne. cbn [set_prop get_prop]. rewrite lookup_prop_assign_ne; [reflexivity|].
  now apply String.eqb_neq.
Qed.

(** One conditional assignment [if (c) d.k = x]. *)
Lemma assign_when (props : list (string * JSValue)) (c : bool) (k : string) (x : JSValue) :
  exists props',
    (if c then set_prop (JObject props) k x else JObject props) = JObject props' /\
    (forall k', k' <> k -> get_prop (JObject props') k' = get_prop (JObject props) k') /\
    get_prop (JObject props') k = (if c then x else get_prop (JObject props) k).
Proof.
  destruct c.
  - exists (assign_prop k x props). split; [reflexivity|]. split.
    + intros k' Hk'. now apply (get_prop_set_ne props k k' x).
    + apply (get_prop_set_eq props k x).
  - exists props. auto.
Qed.

(** What default filling writes: only [took], [_shards] and [hits], each
    only when the test of the source finds it missing. *)
Lemma fill_defaults_frame (props : list (string * JSValue)) (n : nat) :
  let d := JObject props in
  let d' := fill_defaults d n in
  (forall k, k <> "took" -> k <> "_shards" -> k <> "hits" -> get_prop d' k = get_prop d k) /\
  get_prop d' "took"
  = (if JSType_eqb (typeof (get_prop d "took")) TNumber then get_prop d "took"
     else JNumber 0%float) /\
  get_prop d' "_shards"
  = (if truthy (get_prop d "_shards") then get_prop d "_shards"
     else JObject [("total", JNumber (number_of_nat n));
                   ("successful", JNumber (number_of_nat n));
                   ("skipped", JNumber 0%float);
                   ("failed", JNumber 0%float)]) /\
  get_prop d' "hits"
  = (if truthy (get_prop d "hits") then get_prop d "hits"
     else JObject [("total", JNumber 0%float); ("max_score", JNull); ("hits", JArray [])]).
Proof.
  intros d d'. subst d d'. unfold fill_defaults. cbv zeta.
  destruct (assign_when props
              (negb (JSType_eqb (typeof (get_prop (JObject props) "took")) TNumber))
              "took" (JNumber 0%float)) as (props1 & -> & F1 & V1).
  destruct (assign_when props1 (negb (truthy (get_prop (JObject props1) "_shards")))
              "_shards"
              (JObject [("total", JNumber (number_of_nat n));
                        ("successful", JNumber (number_of_nat n));
                        ("skipped", JNumber 0%float);
                        ("failed", JNumber 0%float)])) as (props2 & -> & F2 & V2).
  destruct (assign_when props2 (negb (truthy (get_prop (JObject props2) "hits")))
              "hits"
              (JObject [("total", JNumber 0%float); ("max_score", JNull);
                        ("hits", JArray [])])) as (props3 & -> & F3 & V3).
  split; [|split; [|split]].
  - intros k H1 H2 H3. now rewrite F3, F2, F1.
  - rewrite F3, F2, V1 by discriminate.
    now destruct (JSType_eqb (typeof (get_prop (JObject props) "took")) TNumber).
  - rewrite F3, V2, (F1 "_shards") by discriminate.
    now destruct (truthy (get_prop (JObject props) "_shards")).
  - rewrite V3, (F2 "hits"), (F1 "hits") by discriminate.
    now destruct (truthy (get_prop (JObject props) "hits")).
Qed.

(** X10: what validation changes in an accepted document.  Only [took],
    [_shards] and [hits] are ever written: [took] becomes 0 unless it is
    a number, a falsy [_shards] becomes the counts of a run in which every
    shard of [profile.shards] succeeded, a falsy [hits] becomes the empty
    hit list, and every other property reads as before. *)
Theorem validateProfileData_defaults (d : JSValue) :
  isValid (validateProfileData d).1 = true ->
  let d' := (validateProfileData d).2 in
  exists shards,
    get_prop (get_prop d "profile") "shards" = JArray shards /\
    (forall k, k <> "took" -> k <> "_shards" -> k <> "hits" ->
               get_prop d' k = get_prop d k) /\
    get_prop d' "took"
    = (if JSType_eqb (typeof (get_prop d "took")) TNumber then get_prop d "took"
       else JNumber 0%float) /\
    get_prop d' "_shards"
    = (if truthy (get_prop d "_shards") then get_prop d "_shards"
       else JObject [("total", JNumber (number_of_nat (length shards)));
                     ("successful", JNumber (number_of_nat (length shards)));
                     ("skipped", JNumber 0%float);
                     ("failed", JNumber 0%float)]) /\
    get_prop d' "hits"
    = (if truthy (get_prop d "hits") then get_prop d "hits"
       else JObject [("total", JNumber 0%float); ("max_score", JNull);
                     ("hits", JArray [])]).
Proof.
  intros Hvalid d'. subst d'.
  destruct (validateProfileData_cases d)
    as [(Hbad & _) | (props & pprops & shards & -> & Hp & Hs & Hne & Hall & Hv)];
    [congruence|].
  exists shards. rewrite Hv. cbn [snd]. split.
  - cbn [get_prop]. rewrite Hp. cbn [get_prop]. now rewrite Hs.
  - apply fill_defaults_frame.
Qed.

Lemma validateProfileData_defaults_witness :
  get_prop Samples.example_doc "took" = JNumber 0%float /\
  get_prop Samples.example_doc "_shards"
  = JObject [("total", JNumber 1%float); ("successful", JNumber 1%float);
             ("skipped", JNumber 0%float); ("failed", JNumber 0%float)].
Proof.
  assert (Hparse : exists parsed,
            Platform.JSON_parse Samples.example_text = inl parsed /\
            isValid (validateProfileData parsed).1 = true /\
            Samples.example_doc = (validateProfileData parsed).2).
  { eexists. split; [vm_compute; reflexivity|]. split; vm_compute; reflexivity. }
  destruct Hparse as (parsed & Hparsed & Hvalid & ->).
  destruct (validateProfileData_defaults parsed Hvalid)
    as (shards & Hshards & _ & Htook & Hcounts & _).
  vm_compute in Hparsed. injection Hparsed as <-.
  vm_compute in Hshards. injection Hshards as <-.
  split; [exact Htook | exact Hcounts].
Defined.

(** The shard loop walks past accepted shards, counting them. *)
Lemma check_shards_app (good rest : list JSValue) :
  Forall shard_has_searches good ->
  forall i, check_shards (good ++ rest) i = check_shards rest (i + length good).
Proof.
  induction 1 as [|shard good (sprops & searches & -> & Hs) _ IH]; intros i; cbn [app length].
  - now rewrite Nat.add_0_r.
  - cbn [check_shards truthy typeof JSType_eqb negb orb get_prop]. rewrite Hs.
    cbn [isArray negb]. rewrite IH. f_equal. lia.
Qed.

(** X11: the shard loop stops at the first shard that is not an object
    with a [searches] array: the document is rejected as
    INVALID_PROFILE_FORMAT, the message names the index of that shard, and
    the details tell whether the shard is no object or lacks the array. *)
Theorem validateProfileData_first_invalid_shard
    (props pprops : list (string * JSValue)) (good rest : list JSValue) (bad : JSValue) :
  lookup_prop "profile" props = Some (JObject pprops) ->
  lookup_prop "shards" pprops = Some (JArray (good ++ bad :: rest)) ->
  Forall shard_has_searches good ->
  ~ shard_has_searches bad ->
  validateProfileData (JObject props)
  = (invalid INVALID_PROFILE_FORMAT
       ("Invalid shard at index " +:+ string_of_index (length good))
       (if truthy bad && JSType_eqb (typeof bad) TObject
        then "Each shard must have a " +:+ quoted "searches" +:+ " array"
        else "Each shard must be an object"),
     JObject props).
Proof.
  intros Hp Hs Hgood Hbad. rewrite validateProfileData_object. cbv zeta.
  cbn [get_prop]. rewrite Hp. cbn [truthy typeof JSType_eqb negb orb get_prop]. rewrite Hs.
  destruct (Nat.eqb (length (good ++ bad :: rest)) 0) eqn:Hlen.
  { apply Nat.eqb_eq in Hlen. rewrite length_app in Hlen. cbn [length] in Hlen. lia. }
  rewrite (check_shards_app good (bad :: rest) Hgood 0). cbn [Nat.add check_shards].
  destruct (truthy bad && JSType_eqb (typeof bad) TObject) eqn:Hobj.
  - apply andb_true_iff in Hobj as [-> ->]. cbn [negb orb].
    destruct (isArray (get_prop bad "searches")) eqn:Ha; [|reflexivity].
    exfalso. apply Hbad. destruct bad as [| |b|x|s|l|sprops]; try discriminate Ha.
    cbn [get_prop] in Ha.
    destruct (lookup_prop "searches" sprops) as [[| | | | |searches|]|] eqn:Hl;
      try discriminate Ha.
    exists sprops, searches. auto.
  - apply andb_false_iff in Hobj.
    destruct Hobj as [-> | ->]; cbn [negb orb]; rewrite ?orb_true_r; reflexivity.
Qed.

Lemma validateProfileData_first_invalid_shard_witness :
  error_message <$> error (validateProfileData
    (JObject [("profile",
               JObject [("shards",
                         JArray [JObject [("searches", JArray [])];
                                 JObject [("searches", JArray [])];
                                 JObject [("id", JString "s2")];
                                 JNull])])])).1
  = Some "Invalid shard at index 2".
Proof.
  rewrite (validateProfileData_first_invalid_shard
             [("profile",
               JObject [("shards",
                         JArray [JObject [("searches", JArray [])];
                                 JObject [("searches", JArray [])];
                                 JObject [("id", JString "s2")];
                                 JNull])])]
             [("shards", JArray [JObject [("searches", JArray [])];
                                 JObject [("searches", JArray [])];
                                 JObject [("id", JString "s2")];
                                 JNull])]
             [JObject [("searches", JArray [])]; JObject [("searches", JArray [])]]
             [JNull] (JObject [("id", JString "s2")]) eq_refl eq_refl).
  - reflexivity.
  - repeat constructor; eexists _, _; split; reflexivity.
  - intros (sprops & searches & E & Hl). injection E as <-. discriminate Hl.
Defined.

(** ** The file-type check *)

Import FileValidation.

Lemma substring_split (k : nat) :
  forall s, k <= String.length s ->
            substring 0 k s +:+ substring k (String.length s - k) s = s.
Proof.
  induction k as [|k IH]; intros s Hk.
  - rewrite Nat.sub_0_r, substring_all. now destruct s.
  - destruct s as [|c s]; [simpl in Hk; lia|]. simpl in Hk.
    change (String c (substring 0 k s +:+ substring k (String.length s - k) s) = String c s).
    f_equal. apply IH. lia.
Qed.

(** [s.endsWith(suffix)] holds exactly of the texts [stem + suffix]. *)
Lemma endsWith_iff (s suffix : string) :
  endsWith s suffix = true <-> exists stem, s = stem +:+ suffix.
Proof.
  split.
  - unfold endsWith. intros H. apply andb_true_iff in H as [Hlen Heq].
    apply Nat.leb_le in Hlen. apply String.eqb_eq in Heq.
    exists (substring 0 (String.length s - String.length suffix) s).
    pose proof (substring_split (String.length s - String.length suffix) s
                  ltac:(lia)) as H.
    replace (String.length s - (String.length s - String.length suffix))
      with (String.length suffix) in H by lia.
    rewrite Heq in H. now symmetry.
  - intros [stem ->]. apply endsWith_append.
Qed.

Lemma toLowerCase_append (a b : string) :
  toLowerCase (a +:+ b) = toLowerCase a +:+ toLowerCase b.
Proof.
  induction a as [|c a IH]; [reflexivity|].
  change (String (toLowerCase_ascii c) (toLowerCase (a +:+ b))
          = String (toLowerCase_ascii c) (toLowerCase a +:+ toLowerCase b)).
  now f_equal.
Qed.

Lemma toLowerCase_split (a b : string) :
  forall s, toLowerCase s = a +:+ b ->
            exists a' b', s = a' +:+ b' /\ toLowerCase a' = a /\ toLowerCase b' = b.
Proof.
  induction a as [|c a IH]; intros s H.
  - exists EmptyString, s. auto.
  - destruct s as [|x s]; [discriminate H|].
    change (String (toLowerCase_ascii x) (toLowerCase s) = String c (a +:+ b)) in H.
    injection H as Hx H. destruct (IH s H) as (a' & b' & -> & Ha & Hb).
    exists (String x a'), b'. split; [reflexivity|]. split; [|exact Hb].
    cbn [toLowerCase]. now rewrite Hx, Ha.
Qed.

(** X12: [validateFileType] accepts exactly the files whose name ends in
    [.json] in any mix of upper and lower case and whose MIME type is
    empty, [application/json] or [text/json]; every other file, and a
    missing file, is rejected with a FILE_READ_ERROR that carries details. *)
Theorem validateFileType_accepts (file : option File) :
  (validateFileType file = valid <->
   exists f,
     file = Some f /\
     (exists stem ext, file_name f = stem +:+ ext /\ toLowerCase ext = ".json") /\
     (file_type f = "" \/ file_type f = "application/json" \/ file_type f = "text/json")) /\
  (validateFileType file = valid \/
   exists message details,
     validateFileType file = invalid FILE_READ_ERROR message details).
Proof.
  destruct file as [f|]; cbn [validateFileType].
  2: { split; [|right; eexists _, _; reflexivity].
       split; [discriminate | intros (f & E & _); discriminate E]. }
  assert (Hname : endsWith (toLowerCase (file_name f)) ".json" = true <->
                  exists stem ext, file_name f = stem +:+ ext /\ toLowerCase ext = ".json").
  { rewrite endsWith_iff. split.
    - intros [stem H]. apply toLowerCase_split in H as (a' & b' & E & _ & Hb). eauto.
    - intros (stem & ext & E & Hext). exists (toLowerCase stem).
      now rewrite E, toLowerCase_append, Hext. }
  assert (Htype : string_truthy (file_type f)
                  && negb (String.eqb (file_type f) "application/json")
                  && negb (String.eqb (file_type f) "text/json") = false <->
                  file_type f = "" \/ file_type f = "application/json"
                  \/ file_type f = "text/json").
  { destruct (String.eqb_spec (file_type f) "application/json") as [-> | H1];
      [split; [auto | reflexivity]|].
    destruct (String.eqb_spec (file_type f) "text/json") as [-> | H2];
      [split; [auto | reflexivity]|].
    destruct (file_type f) as [|c t]; [split; [auto | reflexivity]|].
    split; [discriminate|]. intros [H | [H | H]]; congruence. }
  destruct (endsWith (toLowerCase (file_name f)) ".json") eqn:Hend; cbn [negb].
  - destruct (string_truthy (file_type f) && _ && _) eqn:Hty.
    + split; [|right; eexists _, _; reflexivity].
      split; [discriminate|]. intros (f' & [= <-] & _ & H).
      apply Htype in H. discriminate H.
    + split; [|now left]. split; [|reflexivity]. intros _. exists f.
      split; [reflexivity|]. split; [now apply Hname | now apply Htype].
  - split; [|right; eexists _, _; reflexivity].
    split; [discriminate|]. intros (f' & [= <-] & H & _).
    apply Hname in H. discriminate H.
Qed.

Lemma validateFileType_accepts_witness :
  validateFileType (Some Files.upper_case_file) = valid.
Proof.
  apply (proj1 (validateFileType_accepts _)).
  exists Files.upper_case_file. split; [reflexivity|]. split.
  - exists "Profile", ".JSON". split; reflexivity.
  - left. reflexivity.
Defined.

(** ** Parse results *)

Import FileParsing.

Section ParseResults.
Variable JSON_parse : string -> JSValue + string.

(** The result of [parseProfileJSON], case by case. *)
Lemma parseProfileJSON_cases (x : string) :
  let r := parseProfileJSON JSON_parse x in
  (exists parsed,
     string_truthy x = true /\ JSON_parse x = inl parsed /\
     isValid (validateProfileData parsed).1 = true /\
     r = {| success := true; data := Some (validateProfileData parsed).2;
            parse_error := None |}) \/
  (exists ty message details,
     r = {| success := false; data := None;
            parse_error := Some {| error_type := ty; error_message := message;
                                   error_details := Some details |} |} /\
     ((ty = INVALID_JSON /\ (x = "" \/ exists m, JSON_parse x = inr m)) \/
      ((ty = INVALID_PROFILE_FORMAT \/ ty = MISSING_PROFILE_DATA) /\
       x <> "" /\ exists parsed, JSON_parse x = inl parsed))).
Proof.
  intros r. subst r. unfold parseProfileJSON, validateJSON.
  destruct x as [|c x]; cbn [string_truthy negb].
  { right. eexists _, _, _. split; [reflexivity|]. left. auto. }
  destruct (JSON_parse (String c x)) as [parsed|m] eqn:Hparse; cbn [isValid valid invalid negb].
  2: { right. eexists _, _, _. split; [reflexivity|]. left. split; [reflexivity|]. eauto. }
  destruct (validateProfileData parsed) as [result parsed'] eqn:Hv.
  destruct (isValid result) eqn:Hr; cbn [negb].
  - left. exists parsed. rewrite Hv. cbn [fst snd]. auto.
  - right.
    destruct (validateProfileData_cases parsed)
      as [(_ & _ & ty & message & details & Hty & He) | (props & pprops & shards & H)].
    + rewrite Hv in He. cbn [fst] in He. rewrite He.
      exists ty, message, details. split; [reflexivity|]. right.
      split; [exact Hty|]. split; [discriminate | eauto].
    + destruct H as (_ & _ & _ & _ & _ & Hv'). rewrite Hv in Hv'.
      injection Hv' as -> _. discriminate Hr.
Qed.

(** X13: the result of [parseProfileJSON] is well formed.  Either it is a
    success that carries a document and no error, and the document is a
    plain object that the validator accepts again without changing it; or
    it is a failure that carries no document and an error with details,
    whose kind is INVALID_JSON exactly when the text is empty or the
    platform's parser rejects it, and INVALID_PROFILE_FORMAT or
    MISSING_PROFILE_DATA otherwise. *)
Theorem parseProfileJSON_result (x : string) :
  let r := parseProfileJSON JSON_parse x in
  (success r = true /\ parse_error r = None /\
   exists d, data r = Some d /\ is_object d = true /\ validateProfileData d = (valid, d)) \/
  (success r = false /\ data r = None /\
   exists ty message details,
     parse_error r = Some {| error_type := ty; error_message := message;
                             error_details := Some details |} /\
     (ty = INVALID_JSON \/ ty = INVALID_PROFILE_FORMAT \/ ty = MISSING_PROFILE_DATA) /\
     (ty = INVALID_JSON <-> x = "" \/ exists m, JSON_parse x = inr m)).
Proof.
  intros r. subst r.
  destruct (parseProfileJSON_cases x)
    as [(parsed & Hx & Hparse & Hvalid & ->)
       | (ty & message & details & -> & [[-> Hwhy] | (Hty & Hne & parsed & Hparse)])].
  - left. cbn [success parse_error data]. split; [reflexivity|]. split; [reflexivity|].
    eexists. split; [reflexivity|]. split.
    + destruct (validateProfileData_cases parsed)
        as [(Hbad & _) | (props & pprops & shards & -> & _ & _ & _ & _ & ->)];
        [congruence|].
      cbn [snd]. destruct (fill_defaults_object props (length shards)) as [props' ->].
      reflexivity.
    + exact (validateProfileData_valid_again parsed Hvalid).
  - right. cbn [success parse_error data]. split; [reflexivity|]. split; [reflexivity|].
    eexists _, _, _. split; [reflexivity|]. split; [now left|]. tauto.
  - right. cbn [success parse_error data]. split; [reflexivity|]. split; [reflexivity|].
    eexists _, _, _. split; [reflexivity|]. split; [right; exact Hty|].
    split.
    + intros ->. destruct Hty; discriminate.
    + intros [-> | [m Hm]]; [contradiction | congruence].
Qed.

(** X14: [parseProfileFile] reports FILE_READ_ERROR exactly when the file
    could not be read, an empty file included; a file that was read with
    a text in it gets the result of [parseProfileJSON] on that text. *)
Theorem parseProfileFile_result (file : File) :
  (forall contents,
     file_reader file = onload (Some contents) -> contents <> "" ->
     parseProfileFile JSON_parse file = parseProfileJSON JSON_parse contents) /\
  (error_type <$> parse_error (parseProfileFile JSON_parse file) = Some FILE_READ_ERROR
   <-> forall contents, file_reader file = onload (Some contents) -> contents = "") /\
  (file_reader file = onload (Some "") ->
   parseProfileFile JSON_parse file
   = {| success := false; data := None;
        parse_error :=
          Some {| error_type := FILE_READ_ERROR;
                  error_message := "Failed to read file";
                  error_details :=
                    Some "Failed to read file: No result from FileReader" |} |}).
Proof.
  unfold parseProfileFile, readFileAsText. split; [|split].
  - intros contents -> Hne. destruct contents; [contradiction | reflexivity].
  - destruct (file_reader file) as [[contents|]|message].
    + destruct contents as [|c contents]; cbn [string_truthy].
      * split; [intros _ x [= <-]; reflexivity | reflexivity].
      * split.
        -- intros H. exfalso.
           destruct (parseProfileJSON_cases (String c contents))
             as [(parsed & _ & _ & _ & E)
                | (ty & message & details & E & [[-> _] | ([-> | ->] & _)])];
             cbv zeta in E; rewrite E in H; discriminate H.
        -- intros H. specialize (H _ eq_refl). discriminate H.
    + split; [discriminate | reflexivity].
    + split; [discriminate | reflexivity].
  - intros ->. reflexivity.
Qed.
End ParseResults.

Lemma parseProfileFile_result_witness :
  parseProfileFile Platform.JSON_parse Files.upper_case_file
  = parseProfileJSON Platform.JSON_parse Files.numeric_profile_text /\
  parse_error (parseProfileFile Platform.JSON_parse Files.empty_file)
  = Some {| error_type := FILE_READ_ERROR;
            error_message := "Failed to read file";
            error_details := Some "Failed to read file: No result from FileReader" |}.
Proof.
  split.
  - apply (proj1 (parseProfileFile_result Platform.JSON_parse Files.upper_case_file));
      [reflexivity|].
    vm_compute. discriminate.
  - rewrite (proj2 (proj2 (parseProfileFile_result Platform.JSON_parse Files.empty_file))
               eq_refl).
    reflexivity.
Defined.

Lemma parseProfileJSON_result_witness :
  parse_error (parseProfileJSON Platform.JSON_parse Samples.example_text) = None /\
  error_type <$> parse_error (parseProfileJSON Platform.JSON_parse Files.numeric_profile_text)
  = Some MISSING_PROFILE_DATA.
Proof.
  split.
  - destruct (parseProfileJSON_result Platform.JSON_parse Samples.example_text)
      as [(_ & H & _) | (H & _)]; [exact H | vm_compute in H; discriminate H].
  - destruct (parseProfileJSON_result Platform.JSON_parse Files.numeric_profile_text)
      as [(H & _) | (_ & _ & ty & message & details & H & _)];
      [vm_compute in H; discriminate H|].
    vm_compute in H. injection H as <- _ _. reflexivity.
Defined.

(** ** The dashboard: generating a profile and importing a file *)

Import JSString Dashboard.

Section DashboardFacts.
Variable JSON_parse : string -> JSValue + string.

(** X15: what [Generate profile] does to the dashboard.  The editors are
    never changed.  Either the error is cleared, the selection is reset
    to the first shard with no query selected, and the data is the
    document [parseProfileJSON] made of the JSON editor's text, a plain
    object that the validator accepts as it is; or an error of kind
    MISSING_PROFILE_DATA, INVALID_JSON or INVALID_PROFILE_FORMAT is shown
    and the data and the selection stay as they were.  A text that is
    blank after trimming is never parsed. *)
Theorem handleGenerateProfile_outcome (s : State) :
  let s' := handleGenerateProfile JSON_parse s in
  (jsonInput s' = jsonInput s /\ queryInput s' = queryInput s) /\
  ((error s' = None /\ selectedShardIndex s' = 0 /\ selectedQuery s' = None /\
    exists d, data s' = Some d /\
              Parsing.data (parseProfileJSON JSON_parse (jsonInput s)) = Some d /\
              is_object d = true /\ validateProfileData d = (valid, d)) \/
   (exists e, error s' = Some e /\
              (error_type e = MISSING_PROFILE_DATA \/ error_type e = INVALID_JSON \/
               error_type e = INVALID_PROFILE_FORMAT) /\
              data s' = data s /\ selectedShardIndex s' = selectedShardIndex s /\
              selectedQuery s' = selectedQuery s)) /\
  (trim (jsonInput s) = "" ->
   error s' = Some {| error_type := MISSING_PROFILE_DATA;
                      error_message := "No profile data provided";
                      error_details :=
                        Some "Please enter or import profile JSON in the right editor" |}).
Proof.
  intros s'. subst s'. unfold handleGenerateProfile.
  destruct (string_truthy (trim (jsonInput s))) eqn:Htrim; cbn [negb].
  2: { split; [split; reflexivity|]. split; [|reflexivity].
       right. eexists. split; [reflexivity|]. cbn. auto. }
  destruct (parseProfileJSON_cases JSON_parse (jsonInput s))
    as [(parsed & Hx & Hparse & Hvalid & E)
       | (ty & message & details & E & Hty)]; cbv zeta in E; rewrite E;
    cbn [Parsing.success Parsing.data Parsing.parse_error negb orb].
  - assert (Hobj : is_object (validateProfileData parsed).2 = true).
    { destruct (validateProfileData_cases parsed)
        as [(Hbad & _) | (props & pprops & shards & -> & _ & _ & _ & _ & ->)];
        [congruence|].
      cbn [snd]. destruct (fill_defaults_object props (length shards)) as [props' ->].
      reflexivity. }
    assert (Htruthy : truthy (validateProfileData parsed).2 = true)
      by (destruct (validateProfileData parsed).2; try discriminate Hobj; reflexivity).
    rewrite Htruthy. cbn [negb].
    split; [split; reflexivity|]. split.
    + left. cbn [error selectedShardIndex selectedQuery data].
      split; [reflexivity|]. split; [reflexivity|]. split; [reflexivity|].
      eexists. split; [reflexivity|]. split; [reflexivity|]. split; [exact Hobj|].
      exact (validateProfileData_valid_again parsed Hvalid).
    + intros Hblank. rewrite Hblank in Htrim. discriminate Htrim.
  - split; [split; reflexivity|]. split.
    + right. eexists. split; [reflexivity|]. cbn [error_type setError data
        selectedShardIndex selectedQuery].
      split; [tauto | auto].
    + intros Hblank. rewrite Hblank in Htrim. discriminate Htrim.
Qed.
End DashboardFacts.

Lemma handleGenerateProfile_outcome_witness :
  error (handleGenerateProfile Platform.JSON_parse
           {| queryInput := ""; jsonInput := "  "; data := Some Samples.example_doc;
              selectedShardIndex := 3; selectedQuery := None; error := None |})
  = Some {| error_type := MISSING_PROFILE_DATA;
            error_message := "No profile data provided";
            error_details :=
              Some "Please enter or import profile JSON in the right editor" |}.
Proof.
  apply (proj2 (proj2 (handleGenerateProfile_outcome Platform.JSON_parse _))).
  reflexivity.
Defined.

Lemma validateFileType_isValid (file : option File) :
  Validation.isValid (validateFileType file) = true -> validateFileType file = valid.
Proof.
  destruct file as [f|]; cbn [validateFileType]; [|discriminate].
  destruct (negb (endsWith (toLowerCase (file_name f)) ".json")); [discriminate|].
  destruct (string_truthy (file_type f) && _ && _); [discriminate | reflexivity].
Qed.

Section ImportFacts.
Variable JSON_parse : string -> JSValue + string.

(** X16: importing a file never changes the visualised data, the selection
    or the query editor.  The JSON editor is only ever replaced by the
    text of a file: every change of the editor comes with no error, a
    file that [validateFileType] accepts, that was read with a text in it,
    and whose text [parseProfileJSON] accepts. *)
Theorem handleFileChange_outcome (files : option (list File)) (s : State) :
  let s' := handleFileChange JSON_parse files s in
  (data s' = data s /\ selectedShardIndex s' = selectedShardIndex s /\
   selectedQuery s' = selectedQuery s /\ queryInput s' = queryInput s) /\
  (jsonInput s' <> jsonInput s ->
   error s' = None /\
   exists file rest contents,
     files = Some (file :: rest) /\
     validateFileType (Some file) = valid /\
     file_reader file = onload (Some contents) /\ contents <> "" /\
     Parsing.success (parseProfileJSON JSON_parse contents) = true /\
     file_text file = inl (jsonInput s')).
Proof.
  intros s'. subst s'. unfold handleFileChange.
  destruct files as [[|file rest]|]; try (split; [auto | intros H; now contradiction H]).
  destruct (Validation.isValid (validateFileType (Some file))) eqn:Hv; cbn [negb];
    [apply validateFileType_isValid in Hv
    |split; [cbn; auto | intros H; now contradiction H]].
  unfold parseProfileFile, readFileAsText.
  destruct (file_reader file) as [[contents|]|message] eqn:Hreader;
    try (split; [cbn; auto | intros H; now contradiction H]).
  destruct contents as [|c contents]; cbn [string_truthy];
    [split; [cbn; auto | intros H; now contradiction H]|].
  destruct (Parsing.success (parseProfileJSON JSON_parse (String c contents))) eqn:Hok;
    cbn [negb]; [|split; [cbn; auto | intros H; now contradiction H]].
  destruct (file_text file) as [text|message] eqn:Htext;
    [|split; [cbn; auto | intros H; now contradiction H]].
  split; [cbn; auto|]. intros _. split; [reflexivity|].
  exists file, rest, (String c contents). cbn [jsonInput]. repeat split; auto; discriminate.
Qed.

(** X17: import, then generate.  When a file passes the file-type check,
    is read with a text that [parseProfileJSON] accepts and that is not
    blank, and [file.text()] delivers the same text, importing it puts
    the text in the JSON editor with no error and leaves the data alone,
    and [Generate profile] then installs the parsed document, with the
    first shard selected and no error. *)
Theorem import_then_generate (file : File) (rest : list File) (contents : string)
    (s : State) :
  validateFileType (Some file) = valid ->
  file_reader file = onload (Some contents) ->
  file_text file = inl contents ->
  Parsing.success (parseProfileJSON JSON_parse contents) = true ->
  string_truthy (trim contents) = true ->
  let s1 := handleFileChange JSON_parse (Some (file :: rest)) s in
  let s2 := handleGenerateProfile JSON_parse s1 in
  (jsonInput s1 = contents /\ error s1 = None /\ data s1 = data s) /\
  (error s2 = None /\ selectedShardIndex s2 = 0 /\
   data s2 = Parsing.data (parseProfileJSON JSON_parse contents) /\ data s2 <> None).
Proof.
  intros Hv Hreader Htext Hok Htrim s1 s2.
  assert (Hs1 : s1 = {| queryInput := queryInput s; jsonInput := contents; data := data s;
                        selectedShardIndex := selectedShardIndex s;
                        selectedQuery := selectedQuery s; error := None |}).
  { subst s1. unfold handleFileChange. rewrite Hv. cbn [Validation.isValid valid negb].
    unfold parseProfileFile, readFileAsText. rewrite Hreader.
    destruct contents as [|c contents]; [discriminate Htrim|]. cbn [string_truthy].
    rewrite Hok, Htext. reflexivity. }
  split; [rewrite Hs1; auto|].
  subst s2. rewrite Hs1. unfold handleGenerateProfile. cbn [jsonInput].
  rewrite Htrim. cbn [negb].
  destruct (parseProfileJSON_cases JSON_parse contents)
    as [(parsed & Hx & Hparse & Hvalid & E)
       | (ty & message & details & E & _)]; cbv zeta in E; rewrite E in Hok |- *;
    [|discriminate Hok].
  cbn [Parsing.success Parsing.data negb orb].
  assert (Htruthy : truthy (validateProfileData parsed).2 = true).
  { destruct (validateProfileData_cases parsed)
      as [(Hbad & _) | (props & pprops & shards & -> & _ & _ & _ & _ & ->)];
      [congruence|].
    cbn [snd]. destruct (fill_defaults_object props (length shards)) as [props' ->].
    reflexivity. }
  rewrite Htruthy. cbn. repeat split. discriminate.
Qed.
End ImportFacts.

Lemma handleFileChange_outcome_witness :
  jsonInput (handleFileChange Platform.JSON_parse (Some [Files.example_file]) initial_state)
    = Samples.example_text /\
  error (handleFileChange Platform.JSON_parse (Some [Files.example_file]) initial_state)
    = None.
Proof.
  split; [vm_compute; reflexivity|].
  apply (proj2 (handleFileChange_outcome Platform.JSON_parse (Some [Files.example_file])
                  initial_state)).
  vm_compute. discriminate.
Defined.

Lemma import_then_generate_witness :
  data (handleGenerateProfile Platform.JSON_parse
          (handleFileChange Platform.JSON_parse (Some [Files.example_file]) initial_state))
  = Parsing.data (parseProfileJSON Platform.JSON_parse Samples.example_text).
Proof.
  assert (Hok : Parsing.success (parseProfileJSON Platform.JSON_parse Samples.example_text)
                = true) by (vm_compute; reflexivity).
  assert (Htrim : string_truthy (trim Samples.example_text) = true)
    by (vm_compute; reflexivity).
  exact (proj1 (proj2 (proj2 (proj2
           (import_then_generate Platform.JSON_parse Files.example_file []
              Samples.example_text initial_state eq_refl eq_refl eq_refl Hok Htrim))))).
Defined.

(** ** The shard table *)

Lemma in_map_from_nth {A B : Type} (f : A -> nat -> B) (l : list A) (k : nat) (y : B) :
  In y (map_from f k l) -> exists x j, nth_error l j = Some x /\ y = f x (k + j).
Proof.
  revert k. induction l as [|a rest IH]; simpl; intros k H; [contradiction|].
  destruct H as [<- | H].
  - exists a, 0. now rewrite Nat.add_0_r.
  - destruct (IH _ H) as (x & j & Hx & ->). exists x, (S j).
    split; [exact Hx | f_equal; lia].
Qed.

Lemma in_firstn {A : Type} (n : nat) (l : list A) (x : A) : In x (firstn n l) -> In x l.
Proof.
  revert l. induction n as [|n IH]; intros [|a l]; simpl; try contradiction.
  intros [-> | H]; [now left | right; now apply IH].
Qed.

Lemma in_skipn {A : Type} (n : nat) (l : list A) (x : A) : In x (skipn n l) -> In x l.
Proof.
  revert l. induction n as [|n IH]; intros [|a l]; simpl; try contradiction; auto.
Qed.

Section ShardRows.
Variable toLowerCase : string -> string.
Variable localeCompare : string -> string -> float.

(** The rows of a page are rows of the sorted list, which are the filtered
    rows, which are rows of [shardMetrics]. *)
Lemma paginatedItems_in (shards : option (list ShardTable.ShardProfile)) (searchTerm : string)
    (sortField : ShardTable.SortField) (sortDirection : ShardTable.SortDirection)
    (pageIndex pageSize : nat) (row : ShardTable.ShardMetrics) :
  In row (ShardTable.paginatedItems toLowerCase localeCompare shards searchTerm sortField
            sortDirection pageIndex pageSize) ->
  In row (ShardTable.sortedShards localeCompare
            (ShardTable.filteredShards toLowerCase (ShardTable.shardMetrics shards) searchTerm)
            sortField sortDirection) /\
  In row (ShardTable.shardMetrics shards).
Proof.
  unfold ShardTable.paginatedItems, ShardTable.slice. cbv zeta. intros H.
  apply in_firstn, in_skipn in H. split; [exact H|].
  unfold ShardTable.sortedShards in H.
  apply (Permutation_in _ (array_sort_perm _ _)) in H.
  unfold ShardTable.filteredShards in H.
  destruct (negb (string_truthy searchTerm)); [exact H|].
  apply filter_In in H. tauto.
Qed.

(** X18: every row of the shard table, on any page and under any search
    term and sort order, carries the position of the shard it was computed
    from: selecting the row selects that shard.  Its name is the shard's id,
    or [shard-] and the position when the id is missing or empty, and is
    never empty. *)
Theorem paginatedItems_rows (shards : option (list ShardTable.ShardProfile))
    (searchTerm : string) (sortField : ShardTable.SortField)
    (sortDirection : ShardTable.SortDirection) (pageIndex pageSize : nat)
    (row : ShardTable.ShardMetrics) :
  In row (ShardTable.paginatedItems toLowerCase localeCompare shards searchTerm sortField
            sortDirection pageIndex pageSize) ->
  exists l shard,
    shards = Some l /\
    nth_error l (ShardTable.index row) = Some shard /\
    row = ShardTable.metrics_of shard (ShardTable.index row) /\
    ShardTable.name row
    = or_string (ShardTable.shard_id shard)
        ("shard-" +:+ string_of_index (ShardTable.index row)) /\
    ShardTable.id row = ShardTable.name row /\
    string_truthy (ShardTable.name row) = true.
Proof.
  intros H. apply paginatedItems_in in H as [_ H].
  destruct shards as [l|]; [|contradiction]. cbn [ShardTable.shardMetrics] in H.
  apply in_map_from_nth in H as (shard & j & Hj & ->). cbn [Nat.add].
  exists l, shard. cbn [ShardTable.metrics_of ShardTable.index ShardTable.name ShardTable.id].
  repeat split; try assumption.
  unfold or_string. destruct (ShardTable.shard_id shard) as [v|]; [|reflexivity].
  destruct (string_truthy v) eqn:Hv; [exact Hv | reflexivity].
Qed.
End ShardRows.

Lemma paginatedItems_rows_witness :
  exists shard,
    nth_error Shards.shards 1 = Some shard /\
    ShardTable.metrics_of Shards.shard_b 1 = ShardTable.metrics_of shard 1 /\
    ShardTable.name (ShardTable.metrics_of Shards.shard_b 1) = "shard-1".
Proof.
  destruct (paginatedItems_rows FileValidation.toLowerCase Shards.no_collation
              (Some Shards.shards) "SHARD" ShardTable.by_aggTime ShardTable.desc 0 5
              (ShardTable.metrics_of Shards.shard_b 1))
    as (l & shard & Hl & Hnth & Hrow & Hname & _).
  - vm_compute. left. reflexivity.
  - injection Hl as <-. exists shard. split; [exact Hnth|]. split; [exact Hrow|].
    reflexivity.
Defined.

Section ShardOrder.
Variable localeCompare : string -> string -> float.

(** X19: the sorted rows are the filtered rows in another order, and for a
    numeric sort field whose values are numbers they are in the chosen
    order: largest first when descending, smallest first when ascending. *)
Theorem sortedShards_order (filtered : list ShardTable.ShardMetrics)
    (sortField : ShardTable.SortField) (sortDirection : ShardTable.SortDirection) :
  let sorted := ShardTable.sortedShards localeCompare filtered sortField sortDirection in
  Permutation sorted filtered /\
  (sortField <> ShardTable.by_name ->
   Forall (fun shard => is_nan (ShardTable.numeric_field sortField shard) = false) filtered ->
   Sorted (fun a b =>
             match sortDirection with
             | ShardTable.desc =>
                 (ShardTable.numeric_field sortField b
                  <=? ShardTable.numeric_field sortField a)%float = true
             | ShardTable.asc =>
                 (ShardTable.numeric_field sortField a
                  <=? ShardTable.numeric_field sortField b)%float = true
             end) sorted).
Proof.
  intros sorted. subst sorted. unfold ShardTable.sortedShards.
  split; [apply array_sort_perm|]. intros Hfield Hnum.
  assert (Hanti : forall a b,
            (0 <? ShardTable.compareShards localeCompare sortField sortDirection a b)%float
              = true ->
            (0 <? ShardTable.compareShards localeCompare sortField sortDirection b a)%float
              = false).
  { intros a b. destruct sortField; try contradiction; destruct sortDirection;
      apply FloatFacts.sub_positive_antisym. }
  assert (Hin : forall x,
            In x (array_sort (ShardTable.compareShards localeCompare sortField sortDirection)
                    filtered) ->
            is_nan (ShardTable.numeric_field sortField x) = false).
  { intros x Hx. apply (Permutation_in _ (array_sort_perm _ _)) in Hx.
    rewrite List.Forall_forall in Hnum. exact (Hnum x Hx). }
  eapply Sorted_weaken; [|exact (array_sort_sorted _ Hanti filtered)].
  intros a b Ha Hb Hab. cbv beta in Hab.
  destruct sortField; try contradiction; destruct sortDirection;
    cbn [ShardTable.compareShards] in Hab;
    apply FloatOrder.sub_not_positive_leb; auto.
Qed.
End ShardOrder.

Lemma sortedShards_order_witness :
  map ShardTable.name
    (ShardTable.sortedShards Shards.no_collation
       (ShardTable.shardMetrics (Some Shards.shards)) ShardTable.by_aggTime ShardTable.desc)
  = ["shard-1"; "[node][idx][0]"] /\
  Sorted (fun a b => (ShardTable.aggTime b <=? ShardTable.aggTime a)%float = true)
    (ShardTable.sortedShards Shards.no_collation
       (ShardTable.shardMetrics (Some Shards.shards)) ShardTable.by_aggTime ShardTable.desc).
Proof.
  split; [reflexivity|].
  apply (proj2 (sortedShards_order Shards.no_collation
                  (ShardTable.shardMetrics (Some Shards.shards))
                  ShardTable.by_aggTime ShardTable.desc)).
  - discriminate.
  - repeat constructor.
Defined.

Section ShardBars.
Variable toLowerCase : string -> string.
Variable localeCompare : string -> string -> float.

(** X20: the scale of the bars of the shard table.  When the times of the
    rows are numbers, [maxSearchTime] and [maxAggTime], taken over the
    whole sorted list, are at least 1, and no row of any page has a search
    or aggregation time above them. *)
Theorem shard_bars_bounded (shards : option (list ShardTable.ShardProfile))
    (searchTerm : string) (sortField : ShardTable.SortField)
    (sortDirection : ShardTable.SortDirection) :
  Forall (fun row => is_nan (ShardTable.searchTime row) = false
                     /\ is_nan (ShardTable.aggTime row) = false)
    (ShardTable.shardMetrics shards) ->
  let sorted :=
    ShardTable.sortedShards localeCompare
      (ShardTable.filteredShards toLowerCase (ShardTable.shardMetrics shards) searchTerm)
      sortField sortDirection in
  (1 <=? ShardTable.maxSearchTime sorted)%float = true /\
  (1 <=? ShardTable.maxAggTime sorted)%float = true /\
  forall pageIndex pageSize row,
    In row (ShardTable.paginatedItems toLowerCase localeCompare shards searchTerm sortField
              sortDirection pageIndex pageSize) ->
    (ShardTable.searchTime row <=? ShardTable.maxSearchTime sorted)%float = true /\
    (ShardTable.aggTime row <=? ShardTable.maxAggTime sorted)%float = true.
Proof.
  intros Hnum sorted.
  assert (Hsorted : forall row, In row sorted ->
                      is_nan (ShardTable.searchTime row) = false
                      /\ is_nan (ShardTable.aggTime row) = false).
  { intros row Hrow. subst sorted. unfold ShardTable.sortedShards in Hrow.
    apply (Permutation_in _ (array_sort_perm _ _)) in Hrow.
    rewrite List.Forall_forall in Hnum. apply Hnum.
    unfold ShardTable.filteredShards in Hrow.
    destruct (negb (string_truthy searchTerm)); [exact Hrow|].
    apply filter_In in Hrow. tauto. }
  destruct (Math_max_list_floor (map ShardTable.searchTime sorted)) as (Hs1 & Hs & _).
  { apply List.Forall_forall. intros x Hx. apply in_map_iff in Hx as (row & <- & Hrow).
    exact (proj1 (Hsorted row Hrow)). }
  destruct (Math_max_list_floor (map ShardTable.aggTime sorted)) as (Ha1 & Ha & _).
  { apply List.Forall_forall. intros x Hx. apply in_map_iff in Hx as (row & <- & Hrow).
    exact (proj2 (Hsorted row Hrow)). }
  fold (ShardTable.maxSearchTime sorted) in Hs1, Hs.
  fold (ShardTable.maxAggTime sorted) in Ha1, Ha.
  split; [exact Hs1|]. split; [exact Ha1|]. intros pageIndex pageSize row Hrow.
  apply paginatedItems_in in Hrow as [Hrow _]. fold sorted in Hrow.
  rewrite List.Forall_forall in Hs, Ha.
  split; [apply Hs | apply Ha]; now apply in_map.
Qed.
End ShardBars.

Lemma shard_bars_bounded_witness :
  ShardTable.maxSearchTime
    (ShardTable.sortedShards Shards.no_collation
       (ShardTable.filteredShards FileValidation.toLowerCase
          (ShardTable.shardMetrics (Some Shards.shards)) "")
       ShardTable.by_searchTime ShardTable.desc) = 5%float /\
  (1 <=? ShardTable.maxAggTime
           (ShardTable.sortedShards Shards.no_collation
              (ShardTable.filteredShards FileValidation.toLowerCase
                 (ShardTable.shardMetrics (Some Shards.shards)) "")
              ShardTable.by_searchTime ShardTable.desc))%float = true.
Proof.
  split; [reflexivity|].
  apply (shard_bars_bounded FileValidation.toLowerCase Shards.no_collation
           (Some Shards.shards) "" ShardTable.by_searchTime ShardTable.desc).
  repeat constructor.
Defined.

(** ** Sums of times that are not negative *)

Module FloatSum.

(** Plus zero or a positive value. *)
Lemma nonneg_spec (x : float) :
  x = 0%float \/ (0 <? x)%float = true <->
  Prim2SF x = S754_zero false \/ SFpositive (Prim2SF x) = true.
Proof.
  rewrite FloatAxioms.ltb_spec. change (Prim2SF 0) with (S754_zero false).
  rewrite FloatFacts.SFltb_zero. split; intros [H | H]; auto.
  - left. now rewrite H.
  - left. rewrite <- (SF2Prim_Prim2SF x), H. reflexivity.
Qed.

Lemma SFadd_nonneg (a b : spec_float) :
  valid_binary a = true -> valid_binary b = true ->
  a = S754_zero false \/ SFpositive a = true ->
  b = S754_zero false \/ SFpositive b = true ->
  SFadd prec emax a b = S754_zero false \/ SFpositive (SFadd prec emax a b) = true.
Proof.
  intros Hva Hvb [-> | Ha] [-> | Hb].
  - left. reflexivity.
  - right. destruct b as [[|]|[|]| |[|] m e]; try discriminate Hb; reflexivity.
  - right. destruct a as [[|]|[|]| |[|] m e]; try discriminate Ha; reflexivity.
  - right.
    destruct a as [[|]|[|]| |[|] ma ea]; try discriminate Ha;
      destruct b as [[|]|[|]| |[|] mb eb]; try discriminate Hb; try reflexivity.
    cbn [SFadd cond_Zopp].
    apply FloatOrder.valid_finite in Hva as [Hea _].
    apply FloatOrder.valid_finite in Hvb as [Heb _].
    apply FloatOrder.binary_normalize_positive_intro; lia.
Qed.

(** A sum of two values that are not negative is not negative. *)
Lemma add_nonneg (x y : float) :
  x = 0%float \/ (0 <? x)%float = true ->
  y = 0%float \/ (0 <? y)%float = true ->
  (x + y)%float = 0%float \/ (0 <? x + y)%float = true.
Proof.
  rewrite !nonneg_spec, FloatAxioms.add_spec.
  apply SFadd_nonneg; apply Prim2SF_valid.
Qed.

(** Adding zero to a value that is not negative changes nothing. *)
Lemma add_zero_r (x : float) :
  x = 0%float \/ (0 <? x)%float = true -> (x + 0)%float = x.
Proof.
  intros Hx. apply nonneg_spec in Hx.
  assert (H : Prim2SF (x + 0) = Prim2SF x).
  { rewrite FloatAxioms.add_spec. change (Prim2SF 0) with (S754_zero false).
    destruct Hx as [-> | Hx]; [reflexivity|].
    destruct (Prim2SF x) as [[|]|[|]| |[|] m e]; try discriminate Hx; reflexivity. }
  rewrite <- (SF2Prim_Prim2SF (x + 0)), H. apply SF2Prim_Prim2SF.
Qed.

(** [t || 0] on a time that is not negative. *)
Lemma or_zero_nonneg (t : option float) :
  (forall v, t = Some v -> (0 <=? v)%float = true) ->
  or_zero t = 0%float \/ (0 <? or_zero t)%float = true.
Proof.
  intros Ht. destruct t as [v|]; [|now left]. specialize (Ht v eq_refl). cbn [or_zero].
  destruct (number_truthy v) eqn:Hv; [|now left]. right.
  unfold number_truthy in Hv. apply negb_true_iff, orb_false_iff in Hv as [Hz _].
  rewrite FloatAxioms.leb_spec in Ht. rewrite FloatAxioms.eqb_spec in Hz.
  rewrite FloatAxioms.ltb_spec. unfold SFleb, SFeqb, SFltb in *.
  rewrite (FloatFacts.SFcompare_antisym (Prim2SF 0) (Prim2SF v)) in Hz.
  destruct (SFcompare (Prim2SF 0) (Prim2SF v)) as [[| |]|]; simpl in Hz; congruence.
Qed.

(** [s || 0] on a value that is not negative. *)
Lemma or_zero_fixed (s : float) :
  s = 0%float \/ (0 <? s)%float = true -> or_zero (Some s) = s.
Proof.
  intros [-> | Hs]; [reflexivity|]. cbn [or_zero].
  now rewrite (positive_truthy s Hs).
Qed.

Lemma sum_nonneg {A : Type} (time : A -> option float) (l : list A) :
  Forall (fun x => forall v, time x = Some v -> (0 <=? v)%float = true) l ->
  sum_time_in_nanos time l = 0%float \/ (0 <? sum_time_in_nanos time l)%float = true.
Proof.
  unfold sum_time_in_nanos. intros Hl.
  assert (H : forall acc : float,
            acc = 0%float \/ (0 <? acc)%float = true ->
            fold_left (fun sum q => (sum + or_zero (time q))%float) l acc = 0%float
            \/ (0 <? fold_left (fun sum q => (sum + or_zero (time q))%float) l acc)%float
               = true).
  { induction Hl as [|x l Hx _ IH]; intros acc Hacc; cbn [fold_left]; [exact Hacc|].
    apply IH, add_nonneg; [exact Hacc | now apply or_zero_nonneg]. }
  apply H. now left.
Qed.

End FloatSum.

(** X21: the shard table and the tree agree.  For a shard the dashboard
    mounts the tree for, whose times are not negative, the search time of
    its row in the shard table is the denominator of the tree's search tab
    divided by 1000000, and the aggregation time of the row is the
    denominator of the aggregation tab divided by 1000000. *)
Theorem shard_times_are_tree_totals (shards : list ShardTable.ShardProfile) (i : nat)
    (shard : ShardTable.ShardProfile) (props : QueryTreeProps) :
  nth_error shards i = Some shard ->
  tree_props shards i = Some props ->
  Forall (fun q => forall t, qp_time_in_nanos q = Some t -> (0 <=? t)%float = true)
    (activeData props search) ->
  Forall (fun q => forall t, qp_time_in_nanos q = Some t -> (0 <=? t)%float = true)
    (activeData props aggregation) ->
  (forall r, rewriteTime props = Some r -> (0 <=? r)%float = true) ->
  (forall cs, collectors props = Some cs ->
     Forall (fun c => forall t, cp_time_in_nanos c = Some t -> (0 <=? t)%float = true) cs) ->
  ShardTable.searchTime (ShardTable.metrics_of shard i)
    = (totalTime props search / 1000000)%float /\
  ShardTable.aggTime (ShardTable.metrics_of shard i)
    = (totalTime props aggregation / 1000000)%float.
Proof.
  intros Hshard Hprops Hq Ha Hr Hc. unfold tree_props in Hprops. rewrite Hshard in Hprops.
  destruct (ShardTable.shard_searches shard) as [[|first rest]|] eqn:Hsearches;
    try discriminate Hprops.
  injection Hprops as <-.
  unfold ShardTable.metrics_of, ShardTable.first_search. rewrite Hsearches.
  cbn [ShardTable.searchTime ShardTable.aggTime]. unfold totalTime, activeData in *.
  cbn [queries aggregations rewriteTime collectors] in *.
  assert (Hsum : forall l : option (list QueryProfile),
            Forall (fun q => forall t, qp_time_in_nanos q = Some t -> (0 <=? t)%float = true)
              match l with Some l => l | None => [] end ->
            ShardTable.reduce_or_zero qp_time_in_nanos l
            = sum_time_in_nanos qp_time_in_nanos match l with Some l => l | None => [] end).
  { intros [l|] Hl; [|reflexivity]. cbn [ShardTable.reduce_or_zero].
    apply FloatSum.or_zero_fixed, FloatSum.sum_nonneg, Hl. }
  split; [|now rewrite Hsum].
  rewrite Hsum by assumption. f_equal.
  set (total := sum_time_in_nanos qp_time_in_nanos
                  match ShardTable.sp_query first with Some l => l | None => [] end).
  assert (Htotal : total = 0%float \/ (0 <? total)%float = true)
    by (apply FloatSum.sum_nonneg; assumption).
  set (total1 := match ShardTable.sp_rewrite_time first with
                 | Some r => if (0 <? r)%float then (total + r)%float else total
                 | None => total
                 end).
  assert (Hrewrite : (total + or_zero (ShardTable.sp_rewrite_time first))%float = total1
                     /\ (total1 = 0%float \/ (0 <? total1)%float = true)).
  { subst total1. destruct (ShardTable.sp_rewrite_time first) as [r|].
    - destruct (0 <? r)%float eqn:Hpos.
      + cbn [or_zero]. rewrite (positive_truthy r Hpos). split; [reflexivity|].
        apply FloatSum.add_nonneg; auto.
      + assert (Hzero : or_zero (Some r) = 0%float).
        { destruct (FloatSum.or_zero_nonneg (Some r)) as [E | E];
            [intros v [= <-]; now apply Hr | exact E |].
          cbn [or_zero] in E |- *. destruct (number_truthy r); [congruence | reflexivity]. }
        rewrite Hzero. split; [now apply FloatSum.add_zero_r | exact Htotal].
    - cbn [or_zero]. split; [now apply FloatSum.add_zero_r | exact Htotal]. }
  destruct Hrewrite as [-> Htotal1].
  destruct (ShardTable.sp_collector first) as [cs|]; cbn [ShardTable.reduce_or_zero].
  - rewrite FloatSum.or_zero_fixed by (apply FloatSum.sum_nonneg; now apply Hc).
    destruct cs as [|c cs]; [|reflexivity].
    cbn [length Nat.ltb Nat.leb]. now apply FloatSum.add_zero_r.
  - now apply FloatSum.add_zero_r.
Qed.

Lemma shard_times_are_tree_totals_witness :
  ShardTable.searchTime (ShardTable.metrics_of Shards.shard_a 0) = 5%float /\
  ShardTable.searchTime (ShardTable.metrics_of Shards.shard_a 0)
  = (totalTime Samples.search_props search / 1000000)%float.
Proof.
  split; [reflexivity|].
  apply (proj1 (shard_times_are_tree_totals Shards.shards 0 Shards.shard_a
                  Samples.search_props eq_refl eq_refl
                  ltac:(repeat constructor; intros t [= <-]; reflexivity)
                  ltac:(constructor)
                  ltac:(intros r [= <-]; reflexivity)
                  ltac:(intros cs [= <-]; repeat constructor; intros t [= <-]; reflexivity))).
Defined.

(** ** The colour of a node type *)

Lemma includes_append (stem needle rest : string) :
  String.prefix needle needle = true ->
  includes (stem +:+ needle +:+ rest) needle = true.
Proof.
  intros Hn. induction stem as [|c stem IH].
  - change (includes (needle +:+ rest) needle = true).
    destruct (needle +:+ rest) eqn:E; cbn [includes];
      rewrite <- E, (prefix_append needle needle rest Hn); reflexivity.
  - change (includes (String c (stem +:+ needle +:+ rest)) needle = true).
    cbn [includes]. rewrite IH. apply orb_true_r.
Qed.

(** X22: the colour of a node type.  A type that contains [Collector]
    is shown in the collector colour, whatever else it is; the result is
    never anything but one of the seven colours, except for a type that
    is the name of a member of [Object.prototype], for which the lookup in
    the table finds no colour; the Rewrite node gets the Rewrite colour and
    a collector without a name the collector colour. *)
Theorem getTypeColor_palette (ty : string) :
  (forall stem rest,
     ty = stem +:+ "Collector" +:+ rest -> getTypeColor ty = Some "#F2959B") /\
  (getTypeColor ty = None <-> In ty object_prototype_names) /\
  (forall c, getTypeColor ty = Some c ->
             In c ["#F2959B"; "#FFE0B2"; "#D1C4E9"; "#B2DFDB"; "#FFF9C4"; "#C8E6C9";
                   "#E0E7EF"]) /\
  (forall total r, getTypeColor (type (rewrite_node total r)) = Some "#C8E6C9") /\
  (forall total c i p,
     cp_name c = None ->
     getTypeColor (type (transformCollector total c i p)) = Some "#F2959B").
Proof.
  split; [|split; [|split; [|split]]].
  - intros stem rest ->. unfold getTypeColor.
    now rewrite (includes_append stem "Collector" rest eq_refl).
  - split.
    + unfold getTypeColor. destruct (includes ty "Collector"); [discriminate|].
      destruct (find _ colors); [discriminate|].
      destruct (existsb (String.eqb ty) object_prototype_names) eqn:E; [|discriminate].
      intros _. apply existsb_exists in E as (x & Hx & E).
      apply String.eqb_eq in E. now subst x.
    + intros H. cbn [object_prototype_names In] in H.
      repeat (destruct H as [<- | H]; [reflexivity|]). contradiction.
  - intros c. unfold getTypeColor. destruct (includes ty "Collector").
    { intros [= <-]. now left. }
    destruct (find _ colors) as [entry|] eqn:Hfind.
    + intros [= <-]. apply find_some in Hfind as [Hin _].
      cbn [colors In] in Hin.
      repeat (destruct Hin as [<- | Hin]; [in_list|]). contradiction.
    + destruct (existsb _ _); [discriminate|]. intros [= <-]. in_list.
  - reflexivity.
  - intros total c i p Hname. destruct c as [nm r t b ch]. cbn in Hname. subst nm.
    reflexivity.
Qed.

Lemma getTypeColor_palette_witness :
  getTypeColor "SimpleTopScoreDocCollector" = Some "#F2959B" /\
  getTypeColor (type (transformCollector 0 (mkCollectorProfile None None None None None) 0 ""))
  = Some "#F2959B".
Proof.
  split.
  - apply (proj1 (getTypeColor_palette "SimpleTopScoreDocCollector") "SimpleTopScoreDoc" "").
    reflexivity.
  - apply (proj2 (proj2 (proj2 (proj2 (getTypeColor_palette ""))))). reflexivity.
Defined.

(** ** Prettifying the JSON editor *)

Section Prettify.
Variable JSON_parse : string -> JSValue + string.
Variable JSON_stringify : JSValue -> option string.

End Prettify.


